(** * SciSquad: squad alerts, position benchmarks and squad insights

    A shallow embedding of the alerting and benchmarking code of the
    SciSquad repository:

    - [scisquad/model/entities.py]        (positions, squad, match sheets)
    - [scisquad/model/recommendations.py] (alert types and priorities)
    - [scisquad/recommendations/alerts.py] ([PlayerAlerts], [PositionAlerts])
    - [scisquad/insights/squad.py]        (transfer and performance insights)
    - [scisquad/insights/league.py], [scisquad/planning/scout.py],
      [scisquad/api/entities.py], [scisquad/api/player_search.py]
      (the teams of a season, the scouting planner, the players of the
      provider, the guided search)

    pandas data frames are lists of typed records together with the list of
    their column labels; a Python exception is a value of [exn] carried by
    the [result] type.  Floats are the rational they denote, or one of the
    three special values; arithmetic on finite floats is exact.  The cells
    of an integer column are int64 numbers, and the sum of such a column
    wraps around modulo 2^64.  A sort keeps rows of equal key in their
    order and puts null keys last. *)

From Stdlib Require Import ZArith QArith Qround Bool List String Lia.
From Stdlib Require Import Permutation Sorted Lqa.
Import ListNotations.
Open Scope string_scope.
Open Scope list_scope.
Open Scope Z_scope.

Set Implicit Arguments.

(* ===================================================================== *)
(** ** Exceptions *)
(* ===================================================================== *)

Inductive exn : Type :=
| KeyError (key : string)
| ZeroDivisionError
| IndexError.

Inductive result (A : Type) : Type :=
| Ok (a : A)
| Raise (e : exn).

Arguments Ok {A} a.
Arguments Raise {A} e.

Definition bind {A B} (m : result A) (k : A -> result B) : result B :=
  match m with
  | Ok a => k a
  | Raise e => Raise e
  end.

Notation "x <- m ;; k" := (bind m (fun x => k))
  (at level 61, m at next level, right associativity).

(* ===================================================================== *)
(** ** Floats *)
(* ===================================================================== *)

(** A float64 value: a finite value (the rational it denotes), an infinity
    or NaN.  A null cell of a numeric column is NaN. *)
Inductive pyfloat : Type :=
| Fin (q : Q)
| PInf
| NInf
| NaN.

Arguments Fin q%_Q.

Definition of_Z (z : Z) : pyfloat := Fin (inject_Z z).

Definition Qltb (a b : Q) : bool := negb (Qle_bool b a).

(** [a < b]; every comparison with NaN is false. *)
Definition fltb (a b : pyfloat) : bool :=
  match a, b with
  | Fin x, Fin y => Qltb x y
  | NInf, Fin _ | NInf, PInf | Fin _, PInf => true
  | _, _ => false
  end.

(** [a <= b]. *)
Definition fleb (a b : pyfloat) : bool :=
  match a, b with
  | Fin x, Fin y => Qle_bool x y
  | NInf, Fin _ | NInf, PInf | Fin _, PInf => true
  | NInf, NInf | PInf, PInf => true
  | _, _ => false
  end.

(** [a > b]. *)
Definition fgtb (a b : pyfloat) : bool := fltb b a.

(** [a == b]. *)
Definition feqb (a b : pyfloat) : bool :=
  match a, b with
  | Fin x, Fin y => Qeq_bool x y
  | PInf, PInf | NInf, NInf => true
  | _, _ => false
  end.

Definition isnan (a : pyfloat) : bool :=
  match a with NaN => true | _ => false end.

(** True division of two numeric cells, as numpy does it: a finite value
    over zero is an infinity of its sign, zero over zero is NaN. *)
Definition fdiv (a b : pyfloat) : pyfloat :=
  match a, b with
  | NaN, _ | _, NaN => NaN
  | Fin x, Fin y =>
      if Qeq_bool y 0 then
        (if Qltb 0 x then PInf else if Qltb x 0 then NInf else NaN)
      else Fin (x / y)
  | Fin _, _ => Fin 0
  | PInf, Fin y => if Qltb y 0 then NInf else PInf
  | NInf, Fin y => if Qltb y 0 then PInf else NInf
  | _, _ => NaN
  end.

Definition fmul (a b : pyfloat) : pyfloat :=
  match a, b with
  | NaN, _ | _, NaN => NaN
  | Fin x, Fin y => Fin (x * y)
  | Fin x, PInf | PInf, Fin x =>
      if Qltb 0 x then PInf else if Qltb x 0 then NInf else NaN
  | Fin x, NInf | NInf, Fin x =>
      if Qltb 0 x then NInf else if Qltb x 0 then PInf else NaN
  | PInf, PInf | NInf, NInf => PInf
  | PInf, NInf | NInf, PInf => NInf
  end.

Definition fsub (a b : pyfloat) : pyfloat :=
  match a, b with
  | NaN, _ | _, NaN => NaN
  | Fin x, Fin y => Fin (x - y)
  | PInf, PInf | NInf, NInf => NaN
  | PInf, _ | _, NInf => PInf
  | NInf, _ | _, PInf => NInf
  end.

(** Round to the nearest integer, ties to the even one ([rint]). *)
Definition rint (q : Q) : Z :=
  let f := Qfloor q in
  let r := (q - inject_Z f)%Q in
  if Qltb r (1 # 2) then f
  else if Qltb (1 # 2) r then f + 1
  else if Z.even f then f else f + 1.

(** [round(x, 1)] on a numeric cell. *)
Definition round1 (a : pyfloat) : pyfloat :=
  match a with
  | Fin q => Fin (inject_Z (rint (q * 10)) / 10)
  | _ => a
  end.

(** [x // 1000 * 1000] on a numeric cell. *)
Definition floor_thousand (a : pyfloat) : pyfloat :=
  match a with
  | Fin q => Fin (inject_Z (Qfloor (q / 1000) * 1000))
  | _ => NaN
  end.

(* ===================================================================== *)
(** ** Dates *)
(* ===================================================================== *)

(** [datetime.datetime]: the proleptic Gregorian fields. *)
Record datetime : Type := {
  year : Z;
  month : Z;
  day : Z;
  hour : Z;
  minute : Z;
  second : Z;
  microsecond : Z
}.

Definition is_leap (y : Z) : bool :=
  (y mod 4 =? 0) && (negb (y mod 100 =? 0) || (y mod 400 =? 0)).

Definition _days_before_year (y : Z) : Z :=
  let y' := y - 1 in y' * 365 + y' / 4 - y' / 100 + y' / 400.

Definition _days_before_month (y m : Z) : Z :=
  nth (Z.to_nat m) [0; 0; 31; 59; 90; 120; 151; 181; 212; 243; 273; 304; 334] 0
  + (if (2 <? m) && is_leap y then 1 else 0).

Definition toordinal (d : datetime) : Z :=
  _days_before_year (year d) + _days_before_month (year d) (month d) + day d.

(** Microseconds since the start of day 0; datetimes are ordered, and
    subtracted, as these numbers are. *)
Definition to_micros (d : datetime) : Z :=
  (((toordinal d * 24 + hour d) * 60 + minute d) * 60 + second d) * 1000000
  + microsecond d.

(** [datetime.timedelta], in microseconds. *)
Definition timedelta : Type := Z.

Definition day_micros : Z := 86400 * 1000000.

Definition weeks (n : Z) : timedelta := n * 7 * day_micros.

(** A datetime cell is null ([NaT]) or a datetime; every comparison with a
    null cell is false. *)
Definition dt_ltb (cell : option datetime) (micros : Z) : bool :=
  match cell with
  | Some d => to_micros d <? micros
  | None => false
  end.

Definition dt_leb (cell : option datetime) (micros : Z) : bool :=
  match cell with
  | Some d => to_micros d <=? micros
  | None => false
  end.

(** [(a - b).dt.days]: whole days, rounded down; null when [b] is null. *)
Definition days_between (a : datetime) (b : option datetime) : option Z :=
  match b with
  | Some d => Some ((to_micros a - to_micros d) / day_micros)
  | None => None
  end.

(* ===================================================================== *)
(** ** [model/entities.py] and [model/recommendations.py] *)
(* ===================================================================== *)

Inductive Position : Type :=
| UNKNOWN
| NOT_APPLICABLE
| GOALKEEPER
| LEFT_BACK
| RIGHT_BACK
| CENTRE_BACK
| DEFENSIVE_MIDFIELDER
| CENTRE_MIDFIELDER
| ATTACKING_MIDFIELDER
| LEFT_WING
| RIGHT_WING
| CENTRE_FORWARD
| OTHER.

Definition position_id (p : Position) : Z :=
  match p with
  | UNKNOWN => -2
  | NOT_APPLICABLE => -1
  | GOALKEEPER => 0
  | LEFT_BACK => 1
  | RIGHT_BACK => 2
  | CENTRE_BACK => 3
  | DEFENSIVE_MIDFIELDER => 4
  | CENTRE_MIDFIELDER => 5
  | ATTACKING_MIDFIELDER => 6
  | LEFT_WING => 7
  | RIGHT_WING => 8
  | CENTRE_FORWARD => 9
  | OTHER => 10
  end.

Definition Position_eqb (p q : Position) : bool :=
  position_id p =? position_id q.

Inductive AlertPriority : Type :=
| LOW
| MEDIUM
| HIGH
| CRITICAL.

Inductive AlertType : Type :=
| PAST_PEAK_AGE
| CONTRACT_ENDING
| LOAN_ENDING
| WEAK_SPOT_STARTER
| WEAK_SPOT_BACK_UP
| WEAK_SPOT_SECONDARY
| LACK_OF_DEPTH
| CONTRACT_OR_LOAN_EXPIRED.

Record Alert : Type := {
  alert_type : AlertType;
  position : Position;
  alert_priority : AlertPriority;
  player : option string
}.

(** [Transfer]; the names of the teams and leagues are left out.  The
    nation of a league is null for a player without a league. *)
Record Transfer : Type := {
  t_player_id : Z;
  from_league_nation : option string;
  to_team_id : Z;
  to_league_nation : option string;
  fee : option Z;
  is_internal : option bool;
  is_end_loan : option bool;
  is_loan : option bool;
  t_market_value : option Z;
  transfer_date : datetime;
  contract_date : option datetime
}.

(** [SquadPlayer]; nationality, height, foot and the name parts are left
    out, no code below reads them. *)
Record SquadPlayer : Type := {
  player_id : Z;
  name : string;
  birth_date : option datetime;
  first_position : string;
  second_position : string;
  third_position : string;
  contract_end : option datetime;
  loan_end : option datetime;
  on_loan : bool;
  market_value : option Z;
  etv_current : pyfloat;
  etv_dev : pyfloat;
  sciskill : pyfloat;
  sciskill_dev : pyfloat;
  potential : pyfloat
}.

(** A match sheet is the JSON object of the provider; these are the keys
    the code reads. *)
Record SheetPlayer : Type := {
  sp_player_id : Z;
  minutesPlayed : Z
}.

Record SheetTeam : Type := {
  st_id : Z;
  goals : Z;
  players : list SheetPlayer
}.

Record MatchSheet : Type := {
  sheet_id : Z;
  sheet_name : string;
  kickOffDate : string;
  formationHome : option string;
  formationAway : option string;
  homeTeam : SheetTeam;
  awayTeam : SheetTeam
}.

Record MatchTeamPlayer : Type := {
  mtp_match_id : Z;
  mtp_name : string;
  mtp_kick_off_date : string;
  mtp_player_id : Z;
  minutes_played : Z
}.

Record MatchTeamAttributes : Type := {
  match_id : Z;
  mta_name : string;
  kick_off_date : string;
  formation : option string;
  goals_scored : Z;
  goals_conceded : Z;
  formation_faced : option string;
  match_duration : Z
}.

Record SciSportsTeam : Type := {
  team_id : Z;
  team_name : string;
  transfers : list Transfer;
  match_sheets : list MatchSheet;
  squad : list SquadPlayer
}.

Definition own_side (team : SciSportsTeam) (sheet : MatchSheet) : SheetTeam :=
  if st_id (homeTeam sheet) =? team_id team then homeTeam sheet
  else awayTeam sheet.

Definition _set_match_team_players (team : SciSportsTeam)
  : list MatchTeamPlayer :=
  flat_map
    (fun sheet =>
       map (fun plr =>
              {| mtp_match_id := sheet_id sheet;
                 mtp_name := sheet_name sheet;
                 mtp_kick_off_date := kickOffDate sheet;
                 mtp_player_id := sp_player_id plr;
                 minutes_played := minutesPlayed plr |})
           (players (own_side team sheet)))
    (match_sheets team).

Definition max_minutes (plrs : list SheetPlayer) : Z :=
  fold_left
    (fun match_duration plr =>
       if minutesPlayed plr >? match_duration then minutesPlayed plr
       else match_duration)
    plrs 0.

Definition _set_match_team_attributes (team : SciSportsTeam)
  : list MatchTeamAttributes :=
  map
    (fun sheet =>
       let home := st_id (homeTeam sheet) =? team_id team in
       let t := own_side team sheet in
       {| match_id := sheet_id sheet;
          mta_name := sheet_name sheet;
          kick_off_date := kickOffDate sheet;
          formation :=
            if home then formationHome sheet else formationAway sheet;
          goals_scored := goals t;
          goals_conceded := goals t;
          formation_faced :=
            if home then formationAway sheet else formationHome sheet;
          match_duration := max_minutes (players t) |})
    (match_sheets team).

Definition match_team_players := _set_match_team_players.
Definition match_team_attributes := _set_match_team_attributes.

(* ===================================================================== *)
(** ** Data frames *)
(* ===================================================================== *)

(** A data frame: its column labels and its rows, in index order. *)
Record DataFrame (R : Type) : Type := {
  columns : list string;
  records : list R
}.

(** [pd.DataFrame(rows)]: the columns are the keys of the rows, so a frame
    built from no row at all has no column either. *)
Definition from_records {R} (cols : list string) (rows : list R)
  : DataFrame R :=
  {| columns := match rows with [] => [] | _ => cols end; records := rows |}.

(** [pd.DataFrame()]. *)
Definition empty_frame {R} : DataFrame R :=
  {| columns := []; records := [] |}.

Definition has_column {R} (df : DataFrame R) (c : string) : bool :=
  existsb (String.eqb c) (columns df).

(** [df.empty] *)
Definition empty {R} (df : DataFrame R) : bool :=
  match columns df, records df with
  | _ :: _, _ :: _ => false
  | _, _ => true
  end.

(** [df[c]] raises [KeyError] on a label that is not a column. *)
Definition getitem {R} (df : DataFrame R) (c : string) : result unit :=
  if has_column df c then Ok tt else Raise (KeyError c).

Section Sorting.
Variable A : Type.
(** [before x y]: [x] has to come strictly before [y]. *)
Variable before : A -> A -> bool.

Fixpoint insert_by (x : A) (l : list A) : list A :=
  match l with
  | [] => [x]
  | y :: l' => if before y x then y :: insert_by x l' else x :: y :: l'
  end.

(** A stable sort: rows that compare equal keep their order. *)
Fixpoint sort_by (l : list A) : list A :=
  match l with
  | [] => []
  | x :: l' => insert_by x (sort_by l')
  end.
End Sorting.

(** Descending order on a float column, null cells last. *)
Definition desc_before (a b : pyfloat) : bool :=
  fgtb a b || (negb (isnan a) && isnan b).

(** [df.sort_values(col, ascending=False)]; ties keep the index order. *)
Definition sort_values_desc {R} (col : R -> pyfloat) (rows : list R)
  : list R :=
  sort_by (fun x y => desc_before (col x) (col y)) rows.

(** [df.drop_duplicates(key, keep="first")] *)
Fixpoint drop_duplicates_from {R} (key : R -> Z) (seen : list Z)
  (rows : list R) : list R :=
  match rows with
  | [] => []
  | x :: rest =>
      if existsb (Z.eqb (key x)) seen then drop_duplicates_from key seen rest
      else x :: drop_duplicates_from key (key x :: seen) rest
  end.

Definition drop_duplicates {R} (key : R -> Z) (rows : list R) : list R :=
  drop_duplicates_from key [] rows.

(** [left.merge(right, on=label, how="left")]: every left row, in order,
    once for each right row with the same key, or once with null cells when
    there is none.  The label has to be a column of both frames. *)
Definition merge_left {L R} (kl : L -> Z) (kr : R -> Z) (label : string)
  (left : DataFrame L) (right : DataFrame R)
  : result (DataFrame (L * option R)) :=
  _ <- getitem left label ;;
  _ <- getitem right label ;;
  Ok {| columns := columns left ++ columns right;
        records :=
          flat_map
            (fun l =>
               match filter (fun r => kr r =? kl l) (records right) with
               | [] => [(l, None)]
               | ms => map (fun r => (l, Some r)) ms
               end)
            (records left) |}.

Definition sumZ (l : list Z) : Z := fold_right Z.add 0 l.

(** The cells of an integer column are int64 numbers, and numpy adds them
    modulo 2^64: [wrap64 z] is the int64 number that stands for [z]. *)
Definition wrap64 (z : Z) : Z := (z + 2 ^ 63) mod 2 ^ 64 - 2 ^ 63.

(** [Series.sum()] on an int64 column. *)
Definition sum_int64 (l : list Z) : Z := wrap64 (sumZ l).

(* ===================================================================== *)
(** ** Usage: [_preprocess_squad], the part shared by the three classes *)
(* ===================================================================== *)

Record UsageAgg : Type := {
  ua_player_id : Z;
  ua_total_minutes : Z;
  ua_avg_minutes : Q;
  ua_total_games : Z
}.

(** [groupby("player_id").agg(...).reset_index()]: one row for each player
    id, ids ascending.  The sum of the minutes is an int64 sum; the mean is
    taken in floating point. *)
Definition groupby_player_id (mtp : list MatchTeamPlayer) : list UsageAgg :=
  map
    (fun k =>
       let g := filter (fun r => mtp_player_id r =? k) mtp in
       let total := sum_int64 (map minutes_played g) in
       let n := Z.of_nat (List.length g) in
       {| ua_player_id := k;
          ua_total_minutes := total;
          ua_avg_minutes :=
            (inject_Z (sumZ (map minutes_played g)) / inject_Z n)%Q;
          ua_total_games := n |})
    (nodup Z.eq_dec (sort_by Z.ltb (map mtp_player_id mtp))).

Record UsageRow (A : Type) : Type := {
  base : A;
  total_minutes : pyfloat;
  avg_minutes : pyfloat;
  total_games : pyfloat;
  usage : pyfloat
}.

Definition mtp_columns : list string :=
  ["match_id"; "name"; "kick_off_date"; "player_id"; "minutes_played"].

Definition mta_columns : list string :=
  ["match_id"; "name"; "kick_off_date"; "formation"; "goals_scored";
   "goals_conceded"; "formation_faced"; "match_duration"].

Definition usage_of (total_minutes : pyfloat) (available_minutes : Z)
  : pyfloat :=
  round1 (fmul (fdiv total_minutes (of_Z available_minutes)) (of_Z 100)).

Definition add_usage {A} (available_minutes : Z) (m : A * option UsageAgg)
  : UsageRow A :=
  let total :=
    match snd m with
    | Some a => of_Z (ua_total_minutes a)
    | None => NaN
    end in
  {| base := fst m;
     total_minutes := total;
     avg_minutes :=
       match snd m with Some a => Fin (ua_avg_minutes a) | None => NaN end;
     total_games :=
       match snd m with Some a => of_Z (ua_total_games a) | None => NaN end;
     usage := usage_of total available_minutes |}.

(** Minutes per player, left-joined to the squad; usage; the squad sorted by
    usage, highest first. *)
Definition merge_usage {A} (pid : A -> Z) (team : SciSportsTeam)
  (_matches : DataFrame MatchTeamAttributes) (_squad : DataFrame A)
  : result (DataFrame (UsageRow A)) :=
  let plays := from_records mtp_columns (match_team_players team) in
  _ <- getitem plays "player_id" ;;
  let df_match_team_players :=
    {| columns :=
         ["player_id"; "total_minutes"; "avg_minutes"; "total_games"];
       records := groupby_player_id (records plays) |} in
  _ <- getitem _matches "match_duration" ;;
  let available_minutes :=
    sum_int64 (map match_duration (records _matches)) in
  merged <- merge_left pid ua_player_id "player_id" _squad
              df_match_team_players ;;
  Ok {| columns := columns merged ++ ["usage"];
        records :=
          sort_values_desc (@usage A)
            (map (add_usage available_minutes) (records merged)) |}.

Definition squad_columns : list string :=
  ["player_id"; "team_id"; "name"; "age"; "height"; "birth_date";
   "first_nationality"; "second_nationality"; "image_url"; "first_name";
   "last_name"; "football_name"; "preferred_foot"; "first_position";
   "second_position"; "third_position"; "contract_end"; "loan_end";
   "on_loan"; "market_value"; "etv_current"; "etv_dev"; "sciskill";
   "sciskill_dev"; "potential"].

Definition transfer_columns : list string :=
  ["player_id"; "player_name"; "from_team_id"; "from_team_name";
   "from_league_id"; "from_league_name"; "from_league_nation"; "to_team_id";
   "to_team_name"; "to_league_id"; "to_league_name"; "to_league_nation";
   "fee"; "is_internal"; "is_end_loan"; "is_loan"; "market_value";
   "transfer_date"; "contract_date"].

(** [fillna] on the cells of a column *)
Definition fillna {A} (default : A) (cell : option A) : A :=
  match cell with
  | Some v => v
  | None => default
  end.

(** [fillna(0).astype('int')] on a float cell holding a whole number *)
Definition fillna0_int (cell : pyfloat) : Z :=
  match cell with
  | Fin q => Qfloor q
  | _ => 0
  end.

(** Most recent on top; transfers of one date keep their order. *)
Definition later (x y : Transfer) : bool :=
  to_micros (transfer_date y) <? to_micros (transfer_date x).

(* ===================================================================== *)
(** ** [recommendations/alerts.py]: [PlayerAlerts] *)
(* ===================================================================== *)

Module PlayerAlerts.

(** The frame [_preprocess_transfers] returns. *)
Record TransferRow : Type := {
  tr_paid_fee : Z;
  tr_academy_player : option bool;
  tr_starting_market_value : Z;
  tr_player_id : Z
}.

Definition _preprocess_transfers (team : SciSportsTeam)
  (_transfers : DataFrame Transfer) : DataFrame TransferRow :=
  if negb (empty _transfers) then
    let incoming :=
      filter (fun t => to_team_id t =? team_id team) (records _transfers) in
    let kept :=
      sort_by later
        (filter (fun t => negb (fillna false (is_end_loan t))) incoming) in
    {| columns :=
         ["paid_fee"; "academy_player"; "starting_market_value";
          "player_id"];
       records :=
         map (fun t =>
                {| tr_paid_fee := fillna 0 (fee t);
                   tr_academy_player := is_internal t;
                   tr_starting_market_value := fillna 0 (t_market_value t);
                   tr_player_id := t_player_id t |})
             (drop_duplicates t_player_id kept) |}
  else empty_frame.

(** A row of [_squad] once [_preprocess] is done.  [cells] holds the squad
    columns as they then stand ([contract_end], [etv_current] and
    [etv_dev] rewritten) with the usage columns. *)
Record SquadRow : Type := {
  cells : UsageRow SquadPlayer;
  academy_player : bool;
  paid_fee : Z;
  starting_market_value : option Z;
  months_left : option Z;
  etv_revenue : Z;
  value_added : Z
}.

Definition set_columns (p : SquadPlayer) (contract_end' : option datetime)
  (etv_current' etv_dev' : pyfloat) : SquadPlayer :=
  {| player_id := player_id p;
     name := name p;
     birth_date := birth_date p;
     first_position := first_position p;
     second_position := second_position p;
     third_position := third_position p;
     contract_end := contract_end';
     loan_end := loan_end p;
     on_loan := on_loan p;
     market_value := market_value p;
     etv_current := etv_current';
     etv_dev := etv_dev';
     sciskill := sciskill p;
     sciskill_dev := sciskill_dev p;
     potential := potential p |}.

(** The column assignments of [_preprocess_squad] that follow the sort,
    on one row; [now] is [datetime.now()]. *)
Definition normalise (now : datetime)
  (r : UsageRow (SquadPlayer * option TransferRow)) : SquadRow :=
  let p := fst (base r) in
  let t := snd (base r) in
  let contract_end' := if on_loan p then loan_end p else contract_end p in
  let paid := fillna 0 (option_map tr_paid_fee t) in
  let etv_current' := floor_thousand (etv_current p) in
  let etv_dev' := floor_thousand (etv_dev p) in
  let starting := option_map tr_starting_market_value t in
  let revenue :=
    if negb (on_loan p) then fsub etv_current' (of_Z paid) else NaN in
  let added :=
    if negb (on_loan p) then
      match market_value p, starting with
      | Some mv, Some smv => Some (mv - smv)
      | _, _ => None
      end
    else None in
  {| cells :=
       {| base := set_columns p contract_end' etv_current' etv_dev';
          total_minutes := total_minutes r;
          avg_minutes := avg_minutes r;
          total_games := total_games r;
          usage := usage r |};
     academy_player :=
       fillna false
         (match t with Some tr => tr_academy_player tr | None => None end);
     paid_fee := paid;
     starting_market_value := starting;
     months_left :=
       option_map
         (fun x => (year now - year x) * 12 + month now - month x)
         contract_end';
     etv_revenue := fillna0_int (floor_thousand revenue);
     value_added := fillna 0 added |}.

Definition _preprocess_squad (team : SciSportsTeam) (now : datetime)
  (_matches : DataFrame MatchTeamAttributes)
  (_squad : DataFrame (SquadPlayer * option TransferRow))
  : result (list SquadRow) :=
  u <- merge_usage (fun m => player_id (fst m)) team _matches _squad ;;
  Ok (map (normalise now) (records u)).

Definition _preprocess (team : SciSportsTeam) (now : datetime)
  (_matches : DataFrame MatchTeamAttributes)
  (_squad : DataFrame SquadPlayer) (_transfers : DataFrame Transfer)
  : result (list SquadRow) :=
  let df_transfers := _preprocess_transfers team _transfers in
  merged <- merge_left player_id tr_player_id "player_id" _squad
              df_transfers ;;
  _preprocess_squad team now _matches merged.

Record Params : Type := {
  contract_delta : timedelta;
  loan_delta : timedelta;
  run_date : datetime;
  peak_age_limit : pyfloat
}.

(** A row of [_squad] with the columns [age] and [exclude]. *)
Record Row : Type := {
  row : SquadRow;
  age : pyfloat;
  exclude : bool
}.

Definition col_usage (plr : Row) : pyfloat := usage (cells (row plr)).
Definition col_name (plr : Row) : string := name (base (cells (row plr))).
Definition col_first_position (plr : Row) : string :=
  first_position (base (cells (row plr))).
Definition col_on_loan (plr : Row) : bool :=
  on_loan (base (cells (row plr))).
Definition col_contract_end (plr : Row) : option datetime :=
  contract_end (base (cells (row plr))).
Definition col_loan_end (plr : Row) : option datetime :=
  loan_end (base (cells (row plr))).

Definition _map_group (group : string) : Position :=
  if (group =? "Goalkeeper")%string then GOALKEEPER
  else if (group =? "CentreBack")%string then CENTRE_BACK
  else if (group =? "LeftBack")%string then LEFT_BACK
  else if (group =? "RightBack")%string then RIGHT_BACK
  else if (group =? "DefensiveMidfield")%string then DEFENSIVE_MIDFIELDER
  else if (group =? "CentreMidfield")%string then CENTRE_MIDFIELDER
  else if (group =? "AttackingMidfield")%string then ATTACKING_MIDFIELDER
  else if (group =? "RightWing")%string then RIGHT_WING
  else if (group =? "LeftWing")%string then LEFT_WING
  else if (group =? "CentreForward")%string then CENTRE_FORWARD
  else OTHER.

Definition _get_player_priority (plr : Row) : AlertPriority :=
  if fgtb (col_usage plr) (of_Z 75) then CRITICAL
  else if fltb (of_Z 50) (col_usage plr) && fleb (col_usage plr) (of_Z 75)
  then HIGH
  else if fltb (of_Z 25) (col_usage plr) && fleb (col_usage plr) (of_Z 50)
  then MEDIUM
  else LOW.

(** The object: the squad still under evaluation and the alerts so far. *)
Record t : Type := {
  params : Params;
  _squad : list Row;
  alerts : list Alert
}.

Definition age_of (run_date : datetime) (birth_date : option datetime)
  : pyfloat :=
  match days_between run_date birth_date with
  | Some d => Fin (inject_Z d / (36525 # 100))
  | None => NaN
  end.

Definition expired (run_date : datetime) (p : SquadPlayer) : bool :=
  (dt_ltb (contract_end p) (to_micros run_date) && negb (on_loan p))
  || (dt_ltb (loan_end p) (to_micros run_date) && on_loan p).

Definition expired_alert (plr : Row) : Alert :=
  {| alert_type := CONTRACT_OR_LOAN_EXPIRED;
     alert_priority := _get_player_priority plr;
     position := _map_group (col_first_position plr);
     player := Some (col_name plr) |}.

Definition _move_squad_forward (ps : Params) (squad : list SquadRow)
  (alerts0 : list Alert) : t :=
  let rows :=
    map (fun r =>
           {| row := r;
              age := age_of (run_date ps) (birth_date (base (cells r)));
              exclude := expired (run_date ps) (base (cells r)) |})
        squad in
  {| params := ps;
     _squad := filter (fun plr => negb (exclude plr)) rows;
     alerts := alerts0 ++ map expired_alert (filter exclude rows) |}.

Definition __init__ (team : SciSportsTeam) (ps : Params) (now : datetime)
  : result t :=
  let _matches := from_records mta_columns (match_team_attributes team) in
  let _squad := from_records squad_columns (squad team) in
  let _transfers := from_records transfer_columns (transfers team) in
  squad' <- _preprocess team now _matches _squad _transfers ;;
  Ok (_move_squad_forward ps squad' []).

(** A row with the three alert columns of [set_alerts]. *)
Record Flagged : Type := {
  plr_row : Row;
  contract_ends_alert : bool;
  loan_ends_alert : bool;
  age_alert : bool
}.

Definition _get_player_alert_type (plr : Flagged) : list AlertType :=
  (if contract_ends_alert plr then [CONTRACT_ENDING] else [])
  ++ (if loan_ends_alert plr then [LOAN_ENDING] else [])
  ++ (if age_alert plr then [PAST_PEAK_AGE] else []).

Definition _set_player_alerts (plr : Flagged) : list Alert :=
  let prio := _get_player_priority (plr_row plr) in
  map (fun alert =>
         {| alert_type := alert;
            alert_priority := prio;
            position := _map_group (col_first_position (plr_row plr));
            player := Some (col_name (plr_row plr)) |})
      (_get_player_alert_type plr).

Definition _set_contract_action (ps : Params) (plr : Row) : bool :=
  dt_leb (col_contract_end plr) (to_micros (run_date ps) + contract_delta ps)
  && negb (col_on_loan plr).

Definition _set_loan_ending (ps : Params) (plr : Row) : bool :=
  dt_leb (col_loan_end plr) (to_micros (run_date ps) + loan_delta ps)
  && col_on_loan plr.

Definition _set_age_issues (ps : Params) (plr : Row) : bool :=
  fgtb (age plr) (peak_age_limit ps).

Definition flag (ps : Params) (plr : Row) : Flagged :=
  {| plr_row := plr;
     contract_ends_alert := _set_contract_action ps plr;
     loan_ends_alert := _set_loan_ending ps plr;
     age_alert := _set_age_issues ps plr |}.

(** [set_alerts] appends the alerts of every row still in [_squad]. *)
Definition set_alerts (self : t) : t :=
  {| params := params self;
     _squad := _squad self;
     alerts :=
       alerts self
       ++ flat_map _set_player_alerts (map (flag (params self)) (_squad self))
  |}.

End PlayerAlerts.

(* ===================================================================== *)
(** ** [recommendations/alerts.py]: [PositionAlerts] *)
(* ===================================================================== *)

Module PositionAlerts.

Definition _preprocess_squad (team : SciSportsTeam)
  (_matches : DataFrame MatchTeamAttributes)
  (_squad : DataFrame SquadPlayer)
  : result (list (UsageRow SquadPlayer)) :=
  u <- merge_usage player_id team _matches _squad ;;
  Ok (records u).

Record Benchmark : Type := {
  group : Position;
  starter_level : pyfloat;
  starter_potential : pyfloat;
  back_up_level : pyfloat;
  back_up_potential : pyfloat;
  secondary_back_up_level : pyfloat;
  secondary_back_up_potential : pyfloat
}.

(** The object. *)
Record t : Type := {
  _squad : list (UsageRow SquadPlayer);
  alerts : list Alert;
  _benchmarks : list Benchmark
}.

Definition __init__ (team : SciSportsTeam) : result t :=
  let _matches := from_records mta_columns (match_team_attributes team) in
  let squad0 := from_records squad_columns (squad team) in
  squad' <- _preprocess_squad team _matches squad0 ;;
  Ok {| _squad := squad'; alerts := []; _benchmarks := [] |}.

(** [_map_group(group)] *)
Definition _map_group (group : string) : Position :=
  if (group =? "Goalkeeper")%string then GOALKEEPER
  else if (group =? "CentreBack")%string then CENTRE_BACK
  else if (group =? "LeftBack")%string then LEFT_BACK
  else if (group =? "RightBack")%string then RIGHT_BACK
  else if (group =? "DefensiveMidfield")%string then DEFENSIVE_MIDFIELDER
  else if (group =? "CentralMidfield")%string then CENTRE_MIDFIELDER
  else if (group =? "AttackingMidfield")%string then ATTACKING_MIDFIELDER
  else if (group =? "RightWing")%string then RIGHT_WING
  else if (group =? "LeftWing")%string then LEFT_WING
  else if (group =? "CentreForward")%string then CENTRE_FORWARD
  else OTHER.

(** [_map_group(group, reverse=True)]: the label of a position, [None]
    for a position that is no value of the mapping. *)
Definition _map_group_reverse (group : Position) : option string :=
  match group with
  | GOALKEEPER => Some "Goalkeeper"
  | CENTRE_BACK => Some "CentreBack"
  | LEFT_BACK => Some "LeftBack"
  | RIGHT_BACK => Some "RightBack"
  | DEFENSIVE_MIDFIELDER => Some "DefensiveMidfield"
  | CENTRE_MIDFIELDER => Some "CentralMidfield"
  | ATTACKING_MIDFIELDER => Some "AttackingMidfield"
  | RIGHT_WING => Some "RightWing"
  | LEFT_WING => Some "LeftWing"
  | CENTRE_FORWARD => Some "CentreForward"
  | _ => None
  end.

(** [column == label], false everywhere when the label is [None] *)
Definition is_label (label : option string) (cell : string) : bool :=
  match label with
  | Some s => (cell =? s)%string
  | None => false
  end.

Definition _get_position_group (self : t) (group : Position)
  (include_secondary_positions : bool) : list (UsageRow SquadPlayer) :=
  let label := _map_group_reverse group in
  if include_secondary_positions then
    sort_values_desc (fun r => sciskill (base r))
      (filter (fun r =>
                 is_label label (first_position (base r))
                 || is_label label (second_position (base r))
                 || is_label label (third_position (base r)))
              (_squad self))
  else
    sort_values_desc (fun r => sciskill (base r))
      (filter (fun r => is_label label (first_position (base r)))
              (_squad self)).

(** [df[col].iloc[i]] when the frame has more than [i] rows, else 0 *)
Definition iloc_or_zero (col : SquadPlayer -> pyfloat)
  (df : list (UsageRow SquadPlayer)) (i : nat) : pyfloat :=
  match nth_error df i with
  | Some r => col (base r)
  | None => of_Z 0
  end.

(** The row [_set_position_benchmarks] appends to [_benchmarks]. *)
Definition _set_position_benchmarks (self : t) (group0 : Position)
  : Benchmark :=
  let df := _get_position_group self group0 true in
  {| group := group0;
     starter_level := iloc_or_zero sciskill df 0;
     starter_potential := iloc_or_zero potential df 0;
     back_up_level := iloc_or_zero sciskill df 1;
     back_up_potential := iloc_or_zero potential df 1;
     secondary_back_up_level := iloc_or_zero sciskill df 2;
     secondary_back_up_potential := iloc_or_zero potential df 2 |}.

Definition group_labels : list string :=
  ["Goalkeeper"; "CentreBack"; "LeftBack"; "RightBack";
   "DefensiveMidfield"; "CentralMidfield"; "AttackingMidfield";
   "RightWing"; "LeftWing"; "CentreForward"].

(** [_aggregate_groups]: [_benchmarks] afterwards *)
Definition _aggregate_groups (self : t) : list Benchmark :=
  _benchmarks self
  ++ map (fun label => _set_position_benchmarks self (_map_group label))
         group_labels.

Inductive Level : Type := starter | back_up | secondary_back_up.
Inductive Feature : Type := level | potential_.

Definition Level_eqb (a b : Level) : bool :=
  match a, b with
  | starter, starter | back_up, back_up
  | secondary_back_up, secondary_back_up => true
  | _, _ => false
  end.

Definition Feature_eqb (a b : Feature) : bool :=
  match a, b with
  | level, level | potential_, potential_ => true
  | _, _ => false
  end.

(** The column [f"{level}_{feature}"] *)
Definition value (l : Level) (f : Feature) (b : Benchmark) : pyfloat :=
  match l, f with
  | starter, level => starter_level b
  | starter, potential_ => starter_potential b
  | back_up, level => back_up_level b
  | back_up, potential_ => back_up_potential b
  | secondary_back_up, level => secondary_back_up_level b
  | secondary_back_up, potential_ => secondary_back_up_potential b
  end.

(** A row of [df_groups].  [rank l f] is the column
    [f"{level}_{feature}_rank"] and [weak_alert l] the column
    [f"weak_{level}_alert"]; a column that has not been assigned yet
    reads as null. *)
Record GroupRow : Type := {
  bench : Benchmark;
  rank : Level -> Feature -> option Z;
  depth_alert : option bool;
  weak_alert : Level -> option bool
}.

Definition of_benchmark (b : Benchmark) : GroupRow :=
  {| bench := b;
     rank := fun _ _ => None;
     depth_alert := None;
     weak_alert := fun _ => None |}.

Definition set_rank (l : Level) (f : Feature) (v : Z) (r : GroupRow)
  : GroupRow :=
  {| bench := bench r;
     rank := fun l' f' =>
               if Level_eqb l' l && Feature_eqb f' f then Some v
               else rank r l' f';
     depth_alert := depth_alert r;
     weak_alert := weak_alert r |}.

Definition set_depth_alert (v : bool) (r : GroupRow) : GroupRow :=
  {| bench := bench r;
     rank := rank r;
     depth_alert := Some v;
     weak_alert := weak_alert r |}.

Definition set_weak_alert (l : Level) (v : bool) (r : GroupRow)
  : GroupRow :=
  {| bench := bench r;
     rank := rank r;
     depth_alert := depth_alert r;
     weak_alert := fun l' => if Level_eqb l' l then Some v
                             else weak_alert r l' |}.

(** Number the rows from [i] on. *)
Fixpoint number_from (l : Level) (f : Feature) (i : Z) (df : list GroupRow)
  : list GroupRow :=
  match df with
  | [] => []
  | r :: rest => set_rank l f (i + 1) r :: number_from l f (i + 1) rest
  end.

Definition _set_rank (df : list GroupRow) (l : Level) (f : Feature)
  : list GroupRow :=
  number_from l f 0 (sort_values_desc (fun r => value l f (bench r)) df).

Definition _get_set_group_kpis (self : t) : list GroupRow :=
  let df_groups := map of_benchmark (_aggregate_groups self) in
  let df_groups := _set_rank df_groups starter level in
  let df_groups := _set_rank df_groups back_up level in
  let df_groups := _set_rank df_groups secondary_back_up level in
  let df_groups := _set_rank df_groups starter potential_ in
  let df_groups := _set_rank df_groups back_up potential_ in
  let df_groups := _set_rank df_groups secondary_back_up potential_ in
  df_groups.

(** [df.loc[df['group'] == g, col] = v] *)
Definition loc_group (g : Position) (set : GroupRow -> GroupRow)
  (df : list GroupRow) : list GroupRow :=
  map (fun r => if Position_eqb (group (bench r)) g then set r else r) df.

Definition is_zero (x : pyfloat) : bool := feqb x (of_Z 0).

Definition _set_depth_issues (df_groups : list GroupRow) : list GroupRow :=
  fold_left
    (fun df g =>
       if is_zero (starter_level (bench g))
          || is_zero (back_up_level (bench g))
          || is_zero (secondary_back_up_level (bench g))
       then loc_group (group (bench g)) (set_depth_alert true) df
       else loc_group (group (bench g)) (set_depth_alert false) df)
    df_groups df_groups.

(** [column.max()], nulls skipped *)
Definition col_max (cells : list (option Z)) : option Z :=
  fold_left
    (fun acc c =>
       match acc, c with
       | Some a, Some b => Some (Z.max a b)
       | None, _ => c
       | _, None => acc
       end)
    cells None.

(** [cell > column.max() - 3] *)
Definition in_bottom_three (cell : option Z) (cells : list (option Z))
  : bool :=
  match cell, col_max cells with
  | Some r, Some m => r >? m - 3
  | _, _ => false
  end.

Definition _set_strength_issues (df_groups : list GroupRow) (l : Level)
  : list GroupRow :=
  fold_left
    (fun df g =>
       let level_bottom :=
         in_bottom_three (rank g l level)
           (map (fun r => rank r l level) df) in
       let potential_bottom :=
         in_bottom_three (rank g l potential_)
           (map (fun r => rank r l potential_) df) in
       if level_bottom && potential_bottom
       then loc_group (group (bench g)) (set_weak_alert l true) df
       else loc_group (group (bench g)) (set_weak_alert l false) df)
    df_groups df_groups.

Definition _get_set_alerts (self : t) : list GroupRow :=
  let df_groups := _get_set_group_kpis self in
  let df_groups := _set_depth_issues df_groups in
  let df_groups := _set_strength_issues df_groups starter in
  let df_groups := _set_strength_issues df_groups back_up in
  let df_groups := _set_strength_issues df_groups secondary_back_up in
  df_groups.

(** The truth value of a cell: a null cell (NaN) is true. *)
Definition truthy (cell : option bool) : bool :=
  match cell with
  | Some b => b
  | None => true
  end.

Definition position_alert (ty : AlertType) (prio : AlertPriority)
  (pos : GroupRow) : Alert :=
  {| alert_type := ty;
     alert_priority := prio;
     position := group (bench pos);
     player := None |}.

Definition _set_position_alerts (pos : GroupRow) : list Alert :=
  (if truthy (depth_alert pos)
   then [position_alert LACK_OF_DEPTH MEDIUM pos] else [])
  ++ (if truthy (weak_alert pos starter)
      then [position_alert WEAK_SPOT_STARTER HIGH pos] else [])
  ++ (if truthy (weak_alert pos back_up)
      then [position_alert WEAK_SPOT_BACK_UP MEDIUM pos] else [])
  ++ (if truthy (weak_alert pos secondary_back_up)
      then [position_alert WEAK_SPOT_SECONDARY LOW pos] else []).

(** [set_alerts]: the frame it returns and the object afterwards. *)
Definition set_alerts (self : t) : list GroupRow * t :=
  let df_groups := _get_set_alerts self in
  (df_groups,
   {| _squad := _squad self;
      alerts := alerts self ++ flat_map _set_position_alerts df_groups;
      _benchmarks := _aggregate_groups self |}).

End PositionAlerts.

(* ===================================================================== *)
(** ** Column statistics *)
(* ===================================================================== *)

Definition fadd (a b : pyfloat) : pyfloat :=
  match a, b with
  | NaN, _ | _, NaN => NaN
  | Fin x, Fin y => Fin (x + y)
  | PInf, NInf | NInf, PInf => NaN
  | PInf, _ | _, PInf => PInf
  | NInf, _ | _, NInf => NInf
  end.

(** [column.mean()]: nulls skipped, NaN for a column without values *)
Definition fmean (cells : list pyfloat) : pyfloat :=
  match filter (fun c => negb (isnan c)) cells with
  | [] => NaN
  | c :: cs =>
      fdiv (fold_left fadd cs c) (of_Z (Z.of_nat (List.length (c :: cs))))
  end.

(** [column.min()] and [column.max()] *)
Definition fmin (cells : list pyfloat) : pyfloat :=
  match filter (fun c => negb (isnan c)) cells with
  | [] => NaN
  | c :: cs => fold_left (fun a b => if fltb b a then b else a) cs c
  end.

Definition fmax (cells : list pyfloat) : pyfloat :=
  match filter (fun c => negb (isnan c)) cells with
  | [] => NaN
  | c :: cs => fold_left (fun a b => if fltb a b then b else a) cs c
  end.

Definition count_where {A} (p : A -> bool) (l : list A) : Z :=
  Z.of_nat (List.length (filter p l)).

(** Python's [a / b] on two ints *)
Definition py_truediv (a b : Z) : result Q :=
  if b =? 0 then Raise ZeroDivisionError
  else Ok (inject_Z a / inject_Z b)%Q.

(** [column.value_counts()]: the distinct values, nulls dropped, with the
    number of rows holding each, most frequent first. *)
Fixpoint distinct (l : list string) : list string :=
  match l with
  | [] => []
  | x :: rest => x :: filter (fun y => negb (y =? x)%string) (distinct rest)
  end.

Definition present {A} (cells : list (option A)) : list A :=
  flat_map (fun c => match c with Some v => [v] | None => [] end) cells.

Definition value_counts (cells : list (option string)) : list (string * Z) :=
  let vs := present cells in
  sort_by (fun x y => snd y <? snd x)
    (map (fun v => (v, count_where (String.eqb v) vs)) (distinct vs)).

(* ===================================================================== *)
(** ** [insights/squad.py]: [SquadTransferInsights] *)
(* ===================================================================== *)

Module SquadTransferInsights.

(** A row of [_data]: the columns [_preprocess] fills or adds, and the
    two the aggregates group on. *)
Record DataRow : Type := {
  d_fee : Z;
  d_market_value : Z;
  d_is_loan : bool;
  incoming : bool;
  contract_years_left : pyfloat;
  d_from_league_nation : option string;
  d_to_league_nation : option string
}.

Record t : Type := {
  _team : SciSportsTeam;
  _data : list DataRow
}.

Definition years_left (x : Transfer) : pyfloat :=
  match days_between (fillna (transfer_date x) (contract_date x))
          (Some (transfer_date x)) with
  | Some d => Fin (inject_Z d / 365)
  | None => NaN
  end.

Definition _preprocess (team : SciSportsTeam) (data : DataFrame Transfer)
  : result (list DataRow) :=
  _ <- getitem data "is_end_loan" ;;
  let kept :=
    sort_by later
      (filter (fun x => negb (fillna false (is_end_loan x)))
              (records data)) in
  Ok (map (fun x =>
             {| d_fee := fillna 0 (fee x);
                d_market_value := fillna 0 (t_market_value x);
                d_is_loan := fillna false (is_loan x);
                incoming := to_team_id x =? team_id team;
                contract_years_left := years_left x;
                d_from_league_nation := from_league_nation x;
                d_to_league_nation := to_league_nation x |})
          kept).

Definition __init__ (team : SciSportsTeam) : result t :=
  data <- _preprocess team (from_records transfer_columns (transfers team)) ;;
  Ok {| _team := team; _data := data |}.

Record Range : Type := {
  min : pyfloat;
  mean : pyfloat;
  max : pyfloat
}.

Definition range_of (cells : list pyfloat) : Range :=
  {| min := fmin cells; mean := fmean cells; max := fmax cells |}.

(** The object [analyze_inbound] and [analyze_outbound] return; [total_fee]
    is its [total_spend] or [total_earned], [market_shares] its
    [inbound_market_shares] or [outbound_market_shares]. *)
Record Insights : Type := {
  i_team_id : Z;
  i_team_name : string;
  total_transfers : Z;
  total_fee : Z;
  percentage_loans : pyfloat;
  percentage_free : Q;
  fee_range : Range;
  market_value_range : Range;
  contract_years_left_range : Range;
  market_shares : list (string * Q)
}.

Definition bool_cell (b : bool) : pyfloat :=
  if b then of_Z 1 else of_Z 0.

(** [value_counts(normalize=True)]: null cells are left out, and each
    count is divided by the number of cells that are not null. *)
Definition shares (nations : list (option string)) : list (string * Q) :=
  let n := Z.of_nat (List.length (present nations)) in
  map (fun vc => (fst vc, (inject_Z (snd vc) / inject_Z n)%Q))
      (value_counts nations).

(** The body the two methods share: [sample] is the inbound or the outbound
    part of [_data], [nation] the league nation on the other side. *)
Definition analyze (self : t) (sample : list DataRow)
  (nation : DataRow -> option string) : result Insights :=
  let loans_excluded := filter (fun r => negb (d_is_loan r)) sample in
  free <- py_truediv
            (Z.of_nat (List.length
                         (filter (fun r => d_fee r =? 0) loans_excluded)))
            (Z.of_nat (List.length loans_excluded)) ;;
  Ok {| i_team_id := team_id (_team self);
        i_team_name := team_name (_team self);
        total_transfers := Z.of_nat (List.length sample);
        total_fee := sum_int64 (map d_fee loans_excluded);
        percentage_loans :=
          fmean (map (fun r => bool_cell (d_is_loan r)) sample);
        percentage_free := free;
        fee_range :=
          range_of (map (fun r => of_Z (d_fee r)) loans_excluded);
        market_value_range :=
          range_of (map (fun r => of_Z (d_market_value r)) loans_excluded);
        contract_years_left_range :=
          range_of (map contract_years_left loans_excluded);
        market_shares := shares (map nation sample) |}.

Definition analyze_inbound (self : t) : result Insights :=
  analyze self (filter incoming (_data self)) d_from_league_nation.

Definition analyze_outbound (self : t) : result Insights :=
  analyze self (filter (fun r => negb (incoming r)) (_data self))
    d_to_league_nation.

End SquadTransferInsights.

(* ===================================================================== *)
(** ** [insights/squad.py]: [SquadPerformanceInsights] *)
(* ===================================================================== *)

Module SquadPerformanceInsights.

(** A row of [_matches] with the column [points]; the cell is null when
    none of the three assignments reaches the row. *)
Record MatchRow : Type := {
  attrs : MatchTeamAttributes;
  points : option Z
}.

Definition assign (mask : bool) (v : Z) (cell : option Z) : option Z :=
  if mask then Some v else cell.

Definition points_of (m : MatchTeamAttributes) : option Z :=
  assign (goals_scored m <? goals_conceded m) 0
    (assign (goals_scored m =? goals_conceded m) 1
       (assign (goals_scored m >? goals_conceded m) 3 None)).

Definition _preprocess_matches (_matches : DataFrame MatchTeamAttributes)
  : result (list MatchRow) :=
  _ <- getitem _matches "goals_scored" ;;
  Ok (map (fun m => {| attrs := m; points := points_of m |})
          (records _matches)).

Definition _preprocess_squad (team : SciSportsTeam)
  (_matches : DataFrame MatchTeamAttributes)
  (_squad : DataFrame SquadPlayer)
  : result (list (UsageRow SquadPlayer)) :=
  u <- merge_usage player_id team _matches _squad ;;
  Ok (records u).

Record t : Type := {
  _team : SciSportsTeam;
  _matches : list MatchRow;
  _squad : list (UsageRow SquadPlayer)
}.

Definition __init__ (team : SciSportsTeam) : result t :=
  let matches0 := from_records mta_columns (match_team_attributes team) in
  let squad0 := from_records squad_columns (squad team) in
  matches' <- _preprocess_matches matches0 ;;
  squad' <- _preprocess_squad team matches0 squad0 ;;
  Ok {| _team := team; _matches := matches'; _squad := squad' |}.

Definition get_team_formations (self : t) : result (string * string) :=
  match value_counts (map (fun r => formation (attrs r)) (_matches self))
  with
  | f0 :: f1 :: _ => Ok (fst f0, fst f1)
  | [f0] => Ok (fst f0, fst f0)
  | [] => Raise IndexError
  end.

Record Insights : Type := {
  i_team_id : Z;
  i_team_name : string;
  primary_formation : string;
  secondary_formation : string;
  i_goals_scored : Z;
  i_goals_conceded : Z;
  matches_won : Z;
  matches_drawn : Z;
  matches_lost : Z;
  goals_scored_per_game : pyfloat;
  goals_conceded_per_game : pyfloat;
  total_points : Z;
  points_per_game : pyfloat;
  mean_sciskill : pyfloat;
  mean_potential : pyfloat;
  mean_sciskill_top_15 : pyfloat;
  mean_potential_top_15 : pyfloat;
  mean_sciskill_dev : pyfloat
}.

Definition has_points (v : Z) (r : MatchRow) : bool :=
  match points r with
  | Some p => p =? v
  | None => false
  end.

Definition points_cell (r : MatchRow) : pyfloat :=
  match points r with
  | Some p => of_Z p
  | None => NaN
  end.

Definition get_team_performance_insights (self : t) : result Insights :=
  fs <- get_team_formations self ;;
  let ms := _matches self in
  let sq := map (@base SquadPlayer) (_squad self) in
  Ok {| i_team_id := team_id (_team self);
        i_team_name := team_name (_team self);
        primary_formation := fst fs;
        secondary_formation := snd fs;
        i_goals_scored :=
          sum_int64 (map (fun r => goals_scored (attrs r)) ms);
        i_goals_conceded :=
          sum_int64 (map (fun r => goals_conceded (attrs r)) ms);
        matches_won := count_where (has_points 3) ms;
        matches_drawn := count_where (has_points 1) ms;
        matches_lost := count_where (has_points 0) ms;
        goals_scored_per_game :=
          round1 (fmean (map (fun r => of_Z (goals_scored (attrs r))) ms));
        goals_conceded_per_game :=
          round1 (fmean (map (fun r => of_Z (goals_conceded (attrs r))) ms));
        total_points := sumZ (present (map points ms));
        points_per_game := round1 (fmean (map points_cell ms));
        mean_sciskill := round1 (fmean (map sciskill sq));
        mean_potential := round1 (fmean (map potential sq));
        mean_sciskill_top_15 :=
          round1 (fmean (map sciskill (firstn 15 sq)));
        mean_potential_top_15 :=
          round1 (fmean (map potential (firstn 15 sq)));
        mean_sciskill_dev := round1 (fmean (map sciskill_dev sq)) |}.

End SquadPerformanceInsights.

(* ===================================================================== *)
(** ** The squad frame of [PlayerAlerts], player by player *)
(* ===================================================================== *)

(** The frames [__init__] builds from a team. *)
Definition matches_frame (team : SciSportsTeam)
  : DataFrame MatchTeamAttributes :=
  from_records mta_columns (match_team_attributes team).

Definition squad_frame (team : SciSportsTeam) : DataFrame SquadPlayer :=
  from_records squad_columns (squad team).

Definition transfers_frame (team : SciSportsTeam) : DataFrame Transfer :=
  from_records transfer_columns (transfers team).

(** The row of [df_transfers] joined to a player, if there is one. *)
Definition transfer_of (team : SciSportsTeam) (p : SquadPlayer)
  : option PlayerAlerts.TransferRow :=
  find (fun r => PlayerAlerts.tr_player_id r =? player_id p)
       (records (PlayerAlerts._preprocess_transfers team
                   (transfers_frame team))).

(** The row of [df_match_team_players] joined to a player, if there is
    one. *)
Definition minutes_of (team : SciSportsTeam) (p : SquadPlayer)
  : option UsageAgg :=
  find (fun a => ua_player_id a =? player_id p)
       (groupby_player_id (match_team_players team)).

Definition available_minutes (team : SciSportsTeam) : Z :=
  sum_int64 (map match_duration (match_team_attributes team)).

(** The usage cell of a player. *)
Definition player_usage (team : SciSportsTeam) (p : SquadPlayer) : pyfloat :=
  usage_of
    (match minutes_of team p with
     | Some a => of_Z (ua_total_minutes a)
     | None => NaN
     end)
    (available_minutes team).

(** The row of a player in [_squad] after [_preprocess]. *)
Definition squad_row (team : SciSportsTeam) (now : datetime)
  (p : SquadPlayer) : PlayerAlerts.SquadRow :=
  PlayerAlerts.normalise now
    (add_usage (available_minutes team)
       ((p, transfer_of team p), minutes_of team p)).

(** The same row with the columns of [_move_squad_forward]. *)
Definition moved_row (team : SciSportsTeam) (ps : PlayerAlerts.Params)
  (now : datetime) (p : SquadPlayer) : PlayerAlerts.Row :=
  let r := squad_row team now p in
  {| PlayerAlerts.row := r;
     PlayerAlerts.age :=
       PlayerAlerts.age_of (PlayerAlerts.run_date ps)
         (birth_date (base (PlayerAlerts.cells r)));
     PlayerAlerts.exclude :=
       PlayerAlerts.expired (PlayerAlerts.run_date ps)
         (base (PlayerAlerts.cells r)) |}.

(** The date that ends a player's stay: the end of the loan for a player
    on loan, the end of the contract otherwise. *)
Definition operative_expiry (p : SquadPlayer) : option datetime :=
  if on_loan p then loan_end p else contract_end p.

(** A player who is in no match-participation fact of the team. *)
Definition never_played (team : SciSportsTeam) (p : SquadPlayer) : Prop :=
  forall f, In f (match_team_players team) -> mtp_player_id f <> player_id p.

(** Alerts that carry a given player name. *)
Definition about (n : string) (a : Alert) : bool :=
  match player a with
  | Some m => (m =? n)%string
  | None => false
  end.

Definition is_type (ty : AlertType) (a : Alert) : bool :=
  match alert_type a, ty with
  | PAST_PEAK_AGE, PAST_PEAK_AGE
  | CONTRACT_ENDING, CONTRACT_ENDING
  | LOAN_ENDING, LOAN_ENDING
  | WEAK_SPOT_STARTER, WEAK_SPOT_STARTER
  | WEAK_SPOT_BACK_UP, WEAK_SPOT_BACK_UP
  | WEAK_SPOT_SECONDARY, WEAK_SPOT_SECONDARY
  | LACK_OF_DEPTH, LACK_OF_DEPTH
  | CONTRACT_OR_LOAN_EXPIRED, CONTRACT_OR_LOAN_EXPIRED => true
  | _, _ => false
  end.

(** Whole calendar months from [now] to [x]: the difference of the years
    times twelve plus the difference of the months, the days left aside. *)
Definition months_remaining (now x : datetime) : Z :=
  (year x - year now) * 12 + (month x - month now).

(** [y] is [x] rounded down to a whole number of thousands; a null cell
    stays null. *)
Definition floored_to_thousand (x y : pyfloat) : Prop :=
  match x with
  | Fin q =>
      exists k : Z,
        y = Fin (inject_Z (k * 1000))
        /\ (inject_Z (k * 1000) <= q)%Q
        /\ (q < inject_Z (k * 1000) + 1000)%Q
  | _ => y = NaN
  end.

(** The transfer of the history that is joined to a player, if any: a
    transfer of the player to the club that is no return from loan, none of
    these being more recent; no transfer at all when the history has none
    of these. *)
Definition joined_transfer (team : SciSportsTeam) (p : SquadPlayer)
  (jt : option Transfer) : Prop :=
  match jt with
  | Some t =>
      In t (transfers team)
      /\ to_team_id t = team_id team
      /\ fillna false (is_end_loan t) = false
      /\ t_player_id t = player_id p
      /\ forall t',
           In t' (transfers team) ->
           to_team_id t' = team_id team ->
           fillna false (is_end_loan t') = false ->
           t_player_id t' = player_id p ->
           to_micros (transfer_date t') <= to_micros (transfer_date t)
  | None =>
      forall t,
        In t (transfers team) ->
        to_team_id t = team_id team ->
        fillna false (is_end_loan t) = false ->
        t_player_id t <> player_id p
  end.

(** An integer that a float64 cell holds exactly, together with its sum
    with, or difference from, another such integer; such integers are far
    from the ends of the int64 range too. *)
Definition exactly_held (z : Z) : Prop := - 2 ^ 52 <= z <= 2 ^ 52.

(** A whole number of thousands, for an integer cell that may be null. *)
Definition whole_thousands (cell : option Z) : Prop :=
  match cell with
  | Some v => v mod 1000 = 0
  | None => True
  end.

(* ===================================================================== *)
(** ** The frame of [PositionAlerts], group by group *)
(* ===================================================================== *)

(** The positions of the ten labels [_aggregate_groups] walks through. *)
Definition ten_positions : list Position :=
  map PositionAlerts._map_group PositionAlerts.group_labels.

(** The cells [i + 1, ..., i + n] of a rank column. *)
Fixpoint ranks_from (i : Z) (n : nat) : list (option Z) :=
  match n with
  | O => []
  | S n' => Some (i + 1) :: ranks_from (i + 1) n'
  end.

Definition rank_column (l : PositionAlerts.Level)
  (f : PositionAlerts.Feature) (df : list PositionAlerts.GroupRow)
  : list (option Z) :=
  map (fun r => PositionAlerts.rank r l f) df.

Definition groups_of (df : list PositionAlerts.GroupRow) : list Position :=
  map (fun r => PositionAlerts.group (PositionAlerts.bench r)) df.

(** The test of [_set_depth_issues] on a row. *)
Definition lacks_depth (b : PositionAlerts.Benchmark) : bool :=
  PositionAlerts.is_zero (PositionAlerts.starter_level b)
  || PositionAlerts.is_zero (PositionAlerts.back_up_level b)
  || PositionAlerts.is_zero (PositionAlerts.secondary_back_up_level b).

(** The test of [_set_strength_issues] on a row of the frame [df]. *)
Definition weak (df : list PositionAlerts.GroupRow)
  (l : PositionAlerts.Level) (r : PositionAlerts.GroupRow) : bool :=
  PositionAlerts.in_bottom_three
    (PositionAlerts.rank r l PositionAlerts.level)
    (rank_column l PositionAlerts.level df)
  && PositionAlerts.in_bottom_three
       (PositionAlerts.rank r l PositionAlerts.potential_)
       (rank_column l PositionAlerts.potential_ df).

(** A row of the ranked frame [df] with its four alert columns. *)
Definition with_alerts (df : list PositionAlerts.GroupRow)
  (r : PositionAlerts.GroupRow) : PositionAlerts.GroupRow :=
  PositionAlerts.set_weak_alert PositionAlerts.secondary_back_up
    (weak df PositionAlerts.secondary_back_up r)
    (PositionAlerts.set_weak_alert PositionAlerts.back_up
       (weak df PositionAlerts.back_up r)
       (PositionAlerts.set_weak_alert PositionAlerts.starter
          (weak df PositionAlerts.starter r)
          (PositionAlerts.set_depth_alert
             (lacks_depth (PositionAlerts.bench r)) r))).

(** The weak-spot alert of a tier. *)
Definition weak_spot_type (l : PositionAlerts.Level) : AlertType :=
  match l with
  | PositionAlerts.starter => WEAK_SPOT_STARTER
  | PositionAlerts.back_up => WEAK_SPOT_BACK_UP
  | PositionAlerts.secondary_back_up => WEAK_SPOT_SECONDARY
  end.

Definition weak_spot_priority (l : PositionAlerts.Level) : AlertPriority :=
  match l with
  | PositionAlerts.starter => HIGH
  | PositionAlerts.back_up => MEDIUM
  | PositionAlerts.secondary_back_up => LOW
  end.

(* ===================================================================== *)
(** ** Sample data *)
(* ===================================================================== *)

Definition date (y m d : Z) : datetime :=
  {| year := y; month := m; day := d;
     hour := 0; minute := 0; second := 0; microsecond := 0 |}.

Definition sample_player (id : Z) (n pos : string)
  (contract loan : option datetime) (loaned : bool) (skill pot : Z)
  : SquadPlayer :=
  {| player_id := id;
     name := n;
     birth_date := Some (date 1995 5 5);
     first_position := pos;
     second_position := "";
     third_position := "";
     contract_end := contract;
     loan_end := loan;
     on_loan := loaned;
     market_value := Some 1500;
     etv_current := Fin (5001 # 2);
     etv_dev := Fin (-300);
     sciskill := of_Z skill;
     sciskill_dev := Fin 0;
     potential := of_Z pot |}.

(** A 2-0 home win in which players 1 and 2 took part. *)
Definition sample_sheet : MatchSheet :=
  {| sheet_id := 1;
     sheet_name := "A - B";
     kickOffDate := "2024-08-01";
     formationHome := Some "4-3-3";
     formationAway := Some "4-4-2";
     homeTeam :=
       {| st_id := 10; goals := 2;
          players := [ {| sp_player_id := 1; minutesPlayed := 90 |};
                       {| sp_player_id := 2; minutesPlayed := 45 |} ] |};
     awayTeam := {| st_id := 20; goals := 0; players := [] |} |}.

(** Player 1 came in on loan for a fee of 1500. *)
Definition sample_transfer : Transfer :=
  {| t_player_id := 1;
     from_league_nation := Some "NLD";
     to_team_id := 10;
     to_league_nation := Some "NLD";
     fee := Some 1500;
     is_internal := Some false;
     is_end_loan := None;
     is_loan := Some true;
     t_market_value := Some 1000;
     transfer_date := date 2022 7 1;
     contract_date := None |}.

Definition player1 : SquadPlayer :=
  sample_player 1 "P1" "CentralMidfield" (Some (date 2026 1 15)) None false
    80 85.

Definition player2 : SquadPlayer :=
  sample_player 2 "P2" "LeftBack" (Some (date 2024 1 15)) None false 70 75.

Definition player3 : SquadPlayer :=
  sample_player 3 "P3" "LeftBack" (Some (date 2027 1 15))
    (Some (date 2024 6 1)) true 60 65.

Definition sample_team : SciSportsTeam :=
  {| team_id := 10;
     team_name := "A";
     transfers := [sample_transfer];
     match_sheets := [sample_sheet];
     squad := [player1; player2; player3] |}.

(** The same club with no transfer on record. *)
Definition sample_team_no_transfers : SciSportsTeam :=
  {| team_id := 10;
     team_name := "A";
     transfers := [];
     match_sheets := [sample_sheet];
     squad := [player1; player2; player3] |}.

Definition sample_params : PlayerAlerts.Params :=
  {| PlayerAlerts.contract_delta := weeks 52;
     PlayerAlerts.loan_delta := weeks 26;
     PlayerAlerts.run_date := date 2025 1 10;
     PlayerAlerts.peak_age_limit := Fin 28 |}.

Definition sample_now : datetime := date 2025 1 10.

(** The alert engine on the sample team. *)
Definition sample_engine : PlayerAlerts.t :=
  match PlayerAlerts.__init__ sample_team sample_params sample_now with
  | Ok self => self
  | Raise _ =>
      {| PlayerAlerts.params := sample_params;
         PlayerAlerts._squad := [];
         PlayerAlerts.alerts := [] |}
  end.

(** The squad frame of the sample team after [_preprocess]. *)
Definition sample_rows : list PlayerAlerts.SquadRow :=
  match PlayerAlerts._preprocess sample_team sample_now
          (matches_frame sample_team) (squad_frame sample_team)
          (transfers_frame sample_team) with
  | Ok rows => rows
  | Raise _ => []
  end.

(** The performance insights object of the sample team. *)
Definition sample_performance : SquadPerformanceInsights.t :=
  match SquadPerformanceInsights.__init__ sample_team with
  | Ok self => self
  | Raise _ =>
      {| SquadPerformanceInsights._team := sample_team;
         SquadPerformanceInsights._matches := [];
         SquadPerformanceInsights._squad := [] |}
  end.

(** The position engine on the sample team. *)
Definition sample_positions : PositionAlerts.t :=
  match PositionAlerts.__init__ sample_team with
  | Ok self => self
  | Raise _ =>
      {| PositionAlerts._squad := [];
         PositionAlerts.alerts := [];
         PositionAlerts._benchmarks := [] |}
  end.

(* ===================================================================== *)
(** ** Orders on cells *)
(* ===================================================================== *)

(** [x] may stand before [y] in a column sorted with
    [sort_values(ascending=False)]: [x] is not smaller than [y], and a null
    cell only stands before null cells. *)
Definition not_after (x y : pyfloat) : Prop :=
  match x, y with
  | _, NaN => True
  | NaN, _ => False
  | PInf, _ => True
  | _, PInf => False
  | _, NInf => True
  | NInf, _ => False
  | Fin a, Fin b => (b <= a)%Q
  end.

(** The value of a member of [AlertPriority]. *)
Definition priority_value (p : AlertPriority) : Z :=
  match p with
  | LOW => 1
  | MEDIUM => 2
  | HIGH => 3
  | CRITICAL => 4
  end.

(** The row [x] has a smaller number than the row [y] in the rank column of
    a tier and a feature. *)
Definition ranked_below (l : PositionAlerts.Level)
  (f : PositionAlerts.Feature) (x y : PositionAlerts.GroupRow) : Prop :=
  match PositionAlerts.rank x l f, PositionAlerts.rank y l f with
  | Some a, Some b => a < b
  | _, _ => False
  end.

(** In a frame, a row ranked below another on a column never has the
    smaller value in that column. *)
Definition rank_respects_value (l : PositionAlerts.Level)
  (f : PositionAlerts.Feature) (df : list PositionAlerts.GroupRow) : Prop :=
  forall r1 r2,
    In r1 df -> In r2 df -> ranked_below l f r1 r2 ->
    not_after (PositionAlerts.value l f (PositionAlerts.bench r1))
      (PositionAlerts.value l f (PositionAlerts.bench r2)).

Definition sumQ (l : list Q) : Q := fold_right Qplus 0%Q l.


(** A column of shares: the keys are the values of [cells], each once, and
    every share lies in (0, 1], the shares adding up to 1. *)
Definition is_distribution (dist : list (string * Q)) (cells : list string)
  : Prop :=
  (sumQ (map snd dist) == 1)%Q
  /\ NoDup (map fst dist)
  /\ (forall n, In n (map fst dist) <-> In n cells)
  /\ (forall n s, In (n, s) dist -> (0 < s)%Q /\ (s <= 1)%Q).

(** The rows of a team's transfer history that [SquadTransferInsights]
    keeps, and the side of the club they are on. *)
Definition kept_transfer (x : Transfer) : bool :=
  negb (fillna false (is_end_loan x)).

Definition inbound_transfer (team : SciSportsTeam) (x : Transfer) : bool :=
  kept_transfer x && (to_team_id x =? team_id team).

Definition outbound_transfer (team : SciSportsTeam) (x : Transfer) : bool :=
  kept_transfer x && negb (to_team_id x =? team_id team).

Definition permanent (x : Transfer) : bool :=
  negb (fillna false (is_loan x)).

(** The formations on the rows of [_matches], nulls dropped. *)
Definition fielded (self : SquadPerformanceInsights.t) : list string :=
  present (map (fun r => formation (SquadPerformanceInsights.attrs r))
             (SquadPerformanceInsights._matches self)).

(** Player 2 came in for nothing from abroad, player 3 was sold. *)
Definition sample_purchase : Transfer :=
  {| t_player_id := 2;
     from_league_nation := Some "BEL";
     to_team_id := 10;
     to_league_nation := Some "NLD";
     fee := Some 0;
     is_internal := Some false;
     is_end_loan := Some false;
     is_loan := None;
     t_market_value := None;
     transfer_date := date 2023 7 1;
     contract_date := Some (date 2026 6 30) |}.

Definition sample_sale : Transfer :=
  {| t_player_id := 3;
     from_league_nation := Some "NLD";
     to_team_id := 30;
     to_league_nation := Some "DEU";
     fee := Some 2000;
     is_internal := Some false;
     is_end_loan := None;
     is_loan := Some false;
     t_market_value := Some 1800;
     transfer_date := date 2023 8 1;
     contract_date := None |}.

Definition sample_team_transfers : SciSportsTeam :=
  {| team_id := 10;
     team_name := "A";
     transfers := [sample_transfer; sample_purchase; sample_sale];
     match_sheets := [sample_sheet];
     squad := [player1; player2; player3] |}.

Definition sample_transfer_insights : SquadTransferInsights.t :=
  match SquadTransferInsights.__init__ sample_team_transfers with
  | Ok self => self
  | Raise _ =>
      {| SquadTransferInsights._team := sample_team_transfers;
         SquadTransferInsights._data := [] |}
  end.


(* ===================================================================== *)
(** ** [model/entities.py]: the names of the positions *)
(* ===================================================================== *)

(** [Position.position_name] *)
Definition position_name (p : Position) : string :=
  match p with
  | UNKNOWN => "Unknown"
  | NOT_APPLICABLE => "Not Applicable"
  | GOALKEEPER => "Goalkeeper"
  | LEFT_BACK => "Left back"
  | RIGHT_BACK => "Right back"
  | CENTRE_BACK => "Centre back"
  | DEFENSIVE_MIDFIELDER => "Defensive midfield"
  | CENTRE_MIDFIELDER => "Centre midfield"
  | ATTACKING_MIDFIELDER => "Attacking midfield"
  | LEFT_WING => "Left wing"
  | RIGHT_WING => "Right wing"
  | CENTRE_FORWARD => "Centre forward"
  | OTHER => "Other"
  end.

(* ===================================================================== *)
(** ** [insights/league.py]: [SeasonTeamInsights] *)
(* ===================================================================== *)

(** The two fields of [SciSportsMatch] that [_get_teams_in_season] reads. *)
Record SciSportsMatch : Type := {
  home_team_id : Z;
  away_team_id : Z
}.

Module SeasonTeamInsights.

(** [if team_id not in teams: teams.append(team_id)] *)
Definition append_new (teams : list Z) (team_id : Z) : list Z :=
  if existsb (Z.eqb team_id) teams then teams else teams ++ [team_id].

Definition _get_teams_in_season (fixtures : list SciSportsMatch) : list Z :=
  fold_left
    (fun teams fixture =>
       append_new (append_new teams (home_team_id fixture))
         (away_team_id fixture))
    fixtures [].

End SeasonTeamInsights.

(* ===================================================================== *)
(** ** [planning/scout.py]: [ScoutingPlanner] *)
(* ===================================================================== *)

Module ScoutingPlanner.

(** The dictionary of [_map_positions]; [Series.map] leaves a null cell for
    a name that is no key. *)
Definition _map_positions (position : string) : option string :=
  if (position =? "Goalkeeper")%string then Some "Goalkeeper"
  else if (position =? "Centre back")%string then Some "CentreBack"
  else if (position =? "Left back")%string then Some "LeftBack"
  else if (position =? "Right back")%string then Some "RightBack"
  else if (position =? "Defensive midfield")%string
  then Some "DefensiveMidfield"
  else if (position =? "Centre midfield")%string then Some "CentreMidfield"
  else if (position =? "Attacking midfield")%string
  then Some "AttackingMidfield"
  else if (position =? "Centre forward")%string then Some "CentreForward"
  else if (position =? "Left wing")%string then Some "LeftWing"
  else if (position =? "Right wing")%string then Some "RightWing"
  else None.

(** The list [_execute_task] hands to [set_league_selection]: the keys of
    [inbound_market_shares], cut to the first ten when there are more. *)
Definition league_selection (inbound_market_shares : list (string * Q))
  : list string :=
  let keys := map fst inbound_market_shares in
  if (10 <? List.length keys)%nat then firstn 10 keys else keys.

End ScoutingPlanner.


(** A club that took one player from each of twelve leagues, two of them
    Dutch. *)
Definition sample_many_markets : SquadTransferInsights.t :=
  {| SquadTransferInsights._team := sample_team_transfers;
     SquadTransferInsights._data :=
       map (fun nation =>
              {| SquadTransferInsights.d_fee := 1000;
                 SquadTransferInsights.d_market_value := 900;
                 SquadTransferInsights.d_is_loan := false;
                 SquadTransferInsights.incoming := true;
                 SquadTransferInsights.contract_years_left := Fin 0;
                 SquadTransferInsights.d_from_league_nation := Some nation;
                 SquadTransferInsights.d_to_league_nation := Some "NLD" |})
           ["NLD"; "BEL"; "DEU"; "FRA"; "ESP"; "PRT"; "ITA"; "ENG"; "DNK";
            "SWE"; "NOR"; "NLD"] |}.


(* ===================================================================== *)
(** ** [api/entities.py]: [PlayersAPI.get_player] *)
(* ===================================================================== *)

Module PlayersAPI.

(** The keys of a player object of the provider that [get_player] reads
    into the fields above.  A date is held as [strptime] parses it; a key
    that is absent or null is [None], and [marketValue] tells the two
    apart, as [dict.get] with a default does. *)
Record InfoObject : Type := {
  id : Z;
  info_name : string;
  positions : list string;
  birthDate : option datetime
}.

Record ContractObject : Type := {
  contractEnd : option datetime;
  onLoanUntil : option datetime;
  marketValue : option (option Z)
}.

Record PlayerObject : Type := {
  info : InfoObject;
  contract : option ContractObject
}.

(** [plr.get('contract', {}).get(key)] *)
Definition contract_get {A} (plr : PlayerObject)
  (key : ContractObject -> option A) : option A :=
  match contract plr with
  | Some c => key c
  | None => None
  end.

(** [sciskill], [potential] and [sciskill_dev] are what [_get_sciskill]
    returned for the player, [etv] and [etv_dev] what [_get_etv] did. *)
Definition get_player (plr : PlayerObject)
  (sciskill potential sciskill_dev etv etv_dev : pyfloat) : SquadPlayer :=
  let positions := positions (info plr) in
  let first_position :=
    if (1 <=? List.length positions)%nat then nth 0 positions "" else "" in
  let second_position :=
    if (2 <=? List.length positions)%nat then nth 1 positions "" else "" in
  let third_position :=
    if (3 <=? List.length positions)%nat then nth 2 positions "" else "" in
  let contract :=
    match contract_get plr contractEnd with
    | Some contract_end => contract_end
    | None => date 1990 1 1
    end in
  let on_loan :=
    match contract_get plr onLoanUntil with
    | Some _ => true
    | None => false
    end in
  let loan :=
    match contract_get plr onLoanUntil with
    | Some loan_end => loan_end
    | None => date 1990 1 1
    end in
  let birth_date :=
    match birthDate (info plr) with
    | Some b => b
    | None => date 1990 1 1
    end in
  {| player_id := id (info plr);
     name := info_name (info plr);
     birth_date := Some birth_date;
     first_position := first_position;
     second_position := second_position;
     third_position := third_position;
     contract_end := Some contract;
     loan_end := Some loan;
     on_loan := on_loan;
     market_value :=
       match contract_get plr marketValue with
       | Some v => v
       | None => Some 0
       end;
     etv_current := etv;
     etv_dev := etv_dev;
     sciskill := sciskill;
     sciskill_dev := sciskill_dev;
     potential := potential |}.

End PlayersAPI.

(* ===================================================================== *)
(** ** [api/player_search.py]: [GuidedSearchAPI] *)
(* ===================================================================== *)

Module GuidedSearchAPI.

(** A row of [_search_results], with the columns the filter reads. *)
Record SearchRow : Type := {
  info_id : Z;
  info_age : pyfloat;
  contract_contractEnd : option datetime;
  contract_marketValue : pyfloat;
  contract_isFreeAgent : bool
}.

(** The function [_set_contract_months_left] applies to a cell of
    [contract_ends].  On a null cell every field is NaN, the comparison of
    the days is false and [max(0, nan)] is 0. *)
Definition months_left (current_date : datetime)
  (end_date : option datetime) : Z :=
  match end_date with
  | Some e =>
      Z.max 0
        ((year e - year current_date) * 12
         + month e - month current_date
         + (if day e >=? day current_date then 1 else 0))
  | None => 0
  end.

(** A row with its cell of [contract_months_left]. *)
Definition _set_contract_months_left (current_date : datetime)
  (rows : list SearchRow) : list (SearchRow * Z) :=
  map (fun r => (r, months_left current_date (contract_contractEnd r))) rows.

(** [Series.between(left, right)], both ends included. *)
Definition between (x left right : pyfloat) : bool :=
  fleb left x && fleb x right.

Definition _pre_filter_selection (current_date : datetime) (budget : Q)
  (age_lower age_upper : Z) (_search_results : list SearchRow)
  : list (SearchRow * Z) :=
  let basic :=
    filter (fun r => between (info_age r) (of_Z age_lower) (of_Z age_upper))
      _search_results in
  let dated := _set_contract_months_left current_date basic in
  if negb (Qeq_bool budget 0) then
    filter
      (fun r =>
         (between (of_Z (snd r)) (of_Z 0) (of_Z 36)
          && fleb (contract_marketValue (fst r)) (Fin budget))
         || contract_isFreeAgent (fst r)
         || (between (of_Z (snd r)) (of_Z 0) (of_Z 11)
             && fleb (contract_marketValue (fst r))
                  (Fin ((3 # 2) * budget))))
      dated
  else
    filter
      (fun r =>
         contract_isFreeAgent (fst r)
         || between (of_Z (snd r)) (of_Z 0) (of_Z 7))
      dated.

End GuidedSearchAPI.

(** [e] is a day before [c] on the calendar. *)
Definition calendar_before (e c : datetime) : Prop :=
  year e < year c
  \/ (year e = year c
      /\ (month e < month c \/ (month e = month c /\ day e < day c))).

(** The date that ends the stay of a player as the provider gives it, and
    the date [get_player] writes when the provider gives none. *)
Definition provider_expiry (plr : PlayersAPI.PlayerObject) : datetime :=
  match PlayersAPI.contract_get plr PlayersAPI.onLoanUntil with
  | Some d => d
  | None =>
      match PlayersAPI.contract_get plr PlayersAPI.contractEnd with
      | Some d => d
      | None => date 1990 1 1
      end
  end.

(** A player the provider lists without a contract. *)
Definition sample_object : PlayersAPI.PlayerObject :=
  {| PlayersAPI.info :=
       {| PlayersAPI.id := 4;
          PlayersAPI.info_name := "P4";
          PlayersAPI.positions := ["RightWing"];
          PlayersAPI.birthDate := Some (date 2001 2 3) |};
     PlayersAPI.contract := None |}.

Definition player4 : SquadPlayer :=
  PlayersAPI.get_player sample_object (Fin 55) (Fin 66) (Fin 1) (Fin 2000)
    (Fin 0).

Definition sample_team_api : SciSportsTeam :=
  {| team_id := 10;
     team_name := "A";
     transfers := [sample_transfer];
     match_sheets := [sample_sheet];
     squad := [player1; player4] |}.

Definition sample_engine_api : PlayerAlerts.t :=
  match PlayerAlerts.__init__ sample_team_api sample_params sample_now with
  | Ok self => self
  | Raise _ =>
      {| PlayerAlerts.params := sample_params;
         PlayerAlerts._squad := [];
         PlayerAlerts.alerts := [] |}
  end.

Definition sample_search_row (i : Z) (age : Z)
  (contract_end : option datetime) (value : Z) (free : bool)
  : GuidedSearchAPI.SearchRow :=
  {| GuidedSearchAPI.info_id := i;
     GuidedSearchAPI.info_age := of_Z age;
     GuidedSearchAPI.contract_contractEnd := contract_end;
     GuidedSearchAPI.contract_marketValue := of_Z value;
     GuidedSearchAPI.contract_isFreeAgent := free |}.

(* ===================================================================== *)
(** * Proofs *)
(* ===================================================================== *)

Unset Implicit Arguments.

(** ** Lists, sorting and joins *)

Section SortingFacts.
Variable A : Type.
Variable before : A -> A -> bool.

Lemma insert_by_perm (x : A) (l : list A) :
  Permutation (insert_by before x l) (x :: l).
Proof.
  induction l as [|y l IH]; simpl.
  - apply Permutation_refl.
  - destruct (before y x).
    + eapply perm_trans; [apply perm_skip, IH | apply perm_swap].
    + apply Permutation_refl.
Qed.

Lemma sort_by_perm (l : list A) : Permutation (sort_by before l) l.
Proof.
  induction l as [|x l IH]; simpl.
  - constructor.
  - eapply perm_trans; [apply insert_by_perm | now apply perm_skip].
Qed.

Lemma sort_by_In (l : list A) (x : A) : In x (sort_by before l) <-> In x l.
Proof.
  split; apply Permutation_in;
    [apply sort_by_perm | apply Permutation_sym, sort_by_perm].
Qed.

Lemma sort_by_length (l : list A) :
  List.length (sort_by before l) = List.length l.
Proof. apply Permutation_length, sort_by_perm. Qed.
End SortingFacts.

Lemma sort_values_desc_perm {R} (col : R -> pyfloat) (rows : list R) :
  Permutation (sort_values_desc col rows) rows.
Proof. apply sort_by_perm. Qed.

Lemma drop_duplicates_from_keys {R} (key : R -> Z) (rows : list R) :
  forall seen,
    NoDup (map key (drop_duplicates_from key seen rows))
    /\ forall x, In x (drop_duplicates_from key seen rows) ->
                 ~ In (key x) seen.
Proof.
  induction rows as [|x rest IH]; intros seen; simpl.
  - split; [constructor | tauto].
  - destruct (existsb (Z.eqb (key x)) seen) eqn:E.
    + apply IH.
    + destruct (IH (key x :: seen)) as [Hnd Hout]. split.
      * simpl. constructor; [|exact Hnd].
        intros Hin. apply in_map_iff in Hin. destruct Hin as [y [Hk Hy]].
        apply (Hout y Hy). left. symmetry. exact Hk.
      * intros y [<-|Hy] Hin.
        -- assert (existsb (Z.eqb (key x)) seen = true) as C.
           { apply existsb_exists. exists (key x). split; [exact Hin|].
             apply Z.eqb_refl. }
           congruence.
        -- apply (Hout y Hy). now right.
Qed.

Lemma drop_duplicates_NoDup {R} (key : R -> Z) (rows : list R) :
  NoDup (map key (drop_duplicates key rows)).
Proof. apply drop_duplicates_from_keys. Qed.

Lemma filter_find_NoDup {R} (key : R -> Z) (k : Z) (rows : list R) :
  NoDup (map key rows) ->
  filter (fun r => key r =? k) rows
  = match find (fun r => key r =? k) rows with
    | Some r => [r]
    | None => []
    end.
Proof.
  induction rows as [|x rest IH]; simpl; intros Hnd; [reflexivity|].
  inversion Hnd as [|? ? Hx Hrest]; subst.
  destruct (key x =? k) eqn:E.
  - f_equal. apply Z.eqb_eq in E.
    assert (forall y, In y rest -> (key y =? k) = false) as Hno.
    { intros y Hy. apply Z.eqb_neq. intros Hk. apply Hx.
      apply in_map_iff. exists y. split; [congruence | exact Hy]. }
    clear -Hno. induction rest as [|y rest IH]; simpl; [reflexivity|].
    rewrite (Hno y (or_introl eq_refl)). apply IH.
    intros z Hz. apply Hno. now right.
  - now apply IH.
Qed.

(** Joining to a frame whose keys are all different keeps the left rows
    one for one. *)
Lemma merge_left_unique {L R} (kl : L -> Z) (kr : R -> Z) (label : string)
  (left : DataFrame L) (right : DataFrame R) (out : DataFrame (L * option R)) :
  NoDup (map kr (records right)) ->
  merge_left kl kr label left right = Ok out ->
  records out
  = map (fun l => (l, find (fun r => kr r =? kl l) (records right)))
        (records left).
Proof.
  intros Hnd. unfold merge_left, bind.
  destruct (getitem left label); [|discriminate].
  destruct (getitem right label); [|discriminate].
  intros H. inversion H; subst; clear H. simpl.
  induction (records left) as [|l ls IH]; simpl; [reflexivity|].
  rewrite IH. rewrite (filter_find_NoDup kr (kl l) _ Hnd).
  destruct (find _ _); reflexivity.
Qed.

(** ** The squad frame of [PlayerAlerts] *)

Lemma preprocess_transfers_keys (team : SciSportsTeam)
  (fr : DataFrame Transfer) :
  NoDup (map PlayerAlerts.tr_player_id
           (records (PlayerAlerts._preprocess_transfers team fr))).
Proof.
  unfold PlayerAlerts._preprocess_transfers.
  destruct (negb (empty fr)); simpl; [|constructor].
  rewrite map_map. simpl. apply drop_duplicates_NoDup.
Qed.

Lemma groupby_player_id_keys (mtp : list MatchTeamPlayer) :
  NoDup (map ua_player_id (groupby_player_id mtp)).
Proof.
  unfold groupby_player_id. rewrite map_map. simpl. rewrite map_id.
  apply NoDup_nodup.
Qed.

Lemma groupby_player_id_played (mtp : list MatchTeamPlayer) (a : UsageAgg) :
  In a (groupby_player_id mtp) ->
  exists f, In f mtp /\ mtp_player_id f = ua_player_id a.
Proof.
  unfold groupby_player_id. intros H. apply in_map_iff in H.
  destruct H as [k [<- Hk]]. simpl.
  apply nodup_In in Hk. apply sort_by_In in Hk. apply in_map_iff in Hk.
  destruct Hk as [f [Hf Hin]]. now exists f.
Qed.

(** What [merge_usage] computes when it does not raise. *)
Lemma merge_usage_rows {A} (pid : A -> Z) (team : SciSportsTeam)
  (sq : DataFrame A) (out : DataFrame (UsageRow A)) :
  merge_usage pid team (matches_frame team) sq = Ok out ->
  records out
  = sort_values_desc (@usage A)
      (map (fun l =>
              add_usage (available_minutes team)
                (l, find (fun a => ua_player_id a =? pid l)
                         (groupby_player_id (match_team_players team))))
           (records sq)).
Proof.
  unfold merge_usage, bind.
  destruct (getitem (from_records mtp_columns _) _); [|discriminate].
  destruct (getitem (matches_frame team) _); [|discriminate].
  destruct (merge_left _ _ _ _ _) as [m|] eqn:M; [|discriminate].
  intros H. inversion H; subst; clear H. simpl.
  apply merge_left_unique in M; [|apply groupby_player_id_keys].
  simpl in M. rewrite M, map_map. reflexivity.
Qed.

Lemma preprocess_rows (team : SciSportsTeam) (now : datetime)
  (rows : list PlayerAlerts.SquadRow) :
  PlayerAlerts._preprocess team now (matches_frame team) (squad_frame team)
    (transfers_frame team) = Ok rows ->
  Permutation rows (map (squad_row team now) (squad team)).
Proof.
  unfold PlayerAlerts._preprocess, PlayerAlerts._preprocess_squad, bind.
  destruct (merge_left _ _ _ _ _) as [m|] eqn:M; [|discriminate].
  destruct (merge_usage _ _ _ _) as [u|] eqn:U; [|discriminate].
  intros H. inversion H; subst; clear H.
  apply merge_usage_rows in U.
  apply merge_left_unique in M; [|apply preprocess_transfers_keys].
  rewrite U, M. simpl. rewrite map_map.
  eapply perm_trans.
  - apply Permutation_map, sort_values_desc_perm.
  - rewrite map_map. apply Permutation_refl.
Qed.

(** [_preprocess] goes through as soon as the team has a transfer on
    record, a player in its squad and a player on one of its sheets. *)
Lemma preprocess_total (team : SciSportsTeam) (now : datetime) :
  transfers team <> [] -> squad team <> [] ->
  match_team_players team <> [] ->
  exists rows,
    PlayerAlerts._preprocess team now (matches_frame team) (squad_frame team)
      (transfers_frame team) = Ok rows.
Proof.
  intros Ht Hs Hm.
  assert (match_team_attributes team <> []) as Ha.
  { unfold match_team_attributes, _set_match_team_attributes.
    unfold match_team_players, _set_match_team_players in Hm.
    destruct (match_sheets team); [now elim Hm | discriminate]. }
  unfold PlayerAlerts._preprocess, PlayerAlerts._preprocess_squad,
    PlayerAlerts._preprocess_transfers, merge_usage, merge_left,
    transfers_frame, squad_frame, matches_frame, from_records.
  destruct (transfers team); [now elim Ht|].
  destruct (squad team); [now elim Hs|].
  destruct (match_team_players team); [now elim Hm|].
  destruct (match_team_attributes team); [now elim Ha|].
  simpl. eexists. reflexivity.
Qed.

Lemma init_rows (team : SciSportsTeam) (ps : PlayerAlerts.Params)
  (now : datetime) (self : PlayerAlerts.t) :
  PlayerAlerts.__init__ team ps now = Ok self ->
  exists rows,
    Permutation rows (map (moved_row team ps now) (squad team))
    /\ PlayerAlerts.params self = ps
    /\ PlayerAlerts._squad self
       = filter (fun plr => negb (PlayerAlerts.exclude plr)) rows
    /\ PlayerAlerts.alerts self
       = map PlayerAlerts.expired_alert (filter PlayerAlerts.exclude rows).
Proof.
  unfold PlayerAlerts.__init__, bind.
  fold (matches_frame team) (squad_frame team) (transfers_frame team).
  destruct (PlayerAlerts._preprocess _ _ _ _ _) as [sq|] eqn:P;
    [|discriminate].
  intros H. inversion H; subst; clear H.
  apply preprocess_rows in P.
  eexists. split; [|repeat split; reflexivity].
  eapply perm_trans; [apply Permutation_map, P|].
  rewrite map_map. apply Permutation_refl.
Qed.

Lemma init_total (team : SciSportsTeam) (ps : PlayerAlerts.Params)
  (now : datetime) :
  transfers team <> [] -> squad team <> [] ->
  match_team_players team <> [] ->
  exists self, PlayerAlerts.__init__ team ps now = Ok self.
Proof.
  intros Ht Hs Hm.
  destruct (preprocess_total team now Ht Hs Hm) as [rows Hrows].
  unfold PlayerAlerts.__init__, bind.
  fold (matches_frame team) (squad_frame team) (transfers_frame team).
  rewrite Hrows. eexists. reflexivity.
Qed.

Lemma moved_row_name team ps now p :
  PlayerAlerts.col_name (moved_row team ps now p) = name p.
Proof. reflexivity. Qed.

Lemma moved_row_first_position team ps now p :
  PlayerAlerts.col_first_position (moved_row team ps now p)
  = first_position p.
Proof. reflexivity. Qed.

Lemma moved_row_usage team ps now p :
  PlayerAlerts.col_usage (moved_row team ps now p) = player_usage team p.
Proof. reflexivity. Qed.

Lemma moved_row_exclude team ps now p :
  PlayerAlerts.exclude (moved_row team ps now p)
  = dt_ltb (operative_expiry p) (to_micros (PlayerAlerts.run_date ps)).
Proof.
  unfold moved_row, operative_expiry, PlayerAlerts.expired. simpl.
  destruct (on_loan p); simpl.
  - now rewrite andb_false_r, andb_true_r.
  - now rewrite andb_false_r, andb_true_r, orb_false_r.
Qed.

(** Where the alerts of a run come from: an excluded row gives its expiry
    alert, a row that stays gives the alerts of [_set_player_alerts]. *)
Lemma alerts_origin team ps now self a :
  PlayerAlerts.__init__ team ps now = Ok self ->
  In a (PlayerAlerts.alerts (PlayerAlerts.set_alerts self)) ->
  exists p,
    In p (squad team)
    /\ ((PlayerAlerts.exclude (moved_row team ps now p) = true
         /\ a = PlayerAlerts.expired_alert (moved_row team ps now p))
        \/ (PlayerAlerts.exclude (moved_row team ps now p) = false
            /\ In a (PlayerAlerts._set_player_alerts
                       (PlayerAlerts.flag ps (moved_row team ps now p))))).
Proof.
  intros Hinit Ha.
  destruct (init_rows _ _ _ _ Hinit) as [rows [Hperm [Hps [Hsq Hal]]]].
  unfold PlayerAlerts.set_alerts in Ha. simpl in Ha.
  rewrite Hal, Hsq, Hps in Ha. apply in_app_or in Ha.
  destruct Ha as [Ha|Ha].
  - apply in_map_iff in Ha. destruct Ha as [r [<- Hr]].
    apply filter_In in Hr. destruct Hr as [Hr Hex].
    apply (Permutation_in _ Hperm) in Hr. apply in_map_iff in Hr.
    destruct Hr as [p [<- Hp]]. exists p. split; [exact Hp|]. now left.
  - apply in_flat_map in Ha. destruct Ha as [f [Hf Ha]].
    apply in_map_iff in Hf. destruct Hf as [r [<- Hr]].
    apply filter_In in Hr. destruct Hr as [Hr Hex].
    apply (Permutation_in _ Hperm) in Hr. apply in_map_iff in Hr.
    destruct Hr as [p [<- Hp]]. exists p. split; [exact Hp|]. right.
    split; [|exact Ha]. now apply negb_true_iff.
Qed.

Lemma set_player_alerts_fields (f : PlayerAlerts.Flagged) (a : Alert) :
  In a (PlayerAlerts._set_player_alerts f) ->
  player a = Some (PlayerAlerts.col_name (PlayerAlerts.plr_row f))
  /\ alert_priority a
     = PlayerAlerts._get_player_priority (PlayerAlerts.plr_row f)
  /\ position a
     = PlayerAlerts._map_group
         (PlayerAlerts.col_first_position (PlayerAlerts.plr_row f))
  /\ (alert_type a = CONTRACT_ENDING \/ alert_type a = LOAN_ENDING
      \/ alert_type a = PAST_PEAK_AGE).
Proof.
  unfold PlayerAlerts._set_player_alerts. intros H.
  apply in_map_iff in H. destruct H as [ty [<- Hty]]. simpl.
  repeat split.
  unfold PlayerAlerts._get_player_alert_type in Hty.
  repeat (apply in_app_or in Hty; destruct Hty as [Hty|Hty]);
    repeat match goal with
           | H : In _ (if ?b then _ else _) |- _ => destruct b
           | H : In _ [_] |- _ => destruct H as [<-|[]]
           | H : In _ [] |- _ => destruct H
           end; auto.
Qed.

(** Every alert of a run names a player of the squad and carries the
    priority and the position of that player's row. *)
Lemma alerts_fields team ps now self a :
  PlayerAlerts.__init__ team ps now = Ok self ->
  In a (PlayerAlerts.alerts (PlayerAlerts.set_alerts self)) ->
  exists p,
    In p (squad team)
    /\ player a = Some (name p)
    /\ alert_priority a
       = PlayerAlerts._get_player_priority (moved_row team ps now p)
    /\ position a = PlayerAlerts._map_group (first_position p).
Proof.
  intros Hinit Ha.
  destruct (alerts_origin _ _ _ _ _ Hinit Ha) as [p [Hp [[_ ->]|[_ Hin]]]];
    exists p; (split; [exact Hp|]).
  - repeat split.
  - apply set_player_alerts_fields in Hin. simpl in Hin.
    destruct Hin as [H1 [H2 [H3 _]]]. repeat split; assumption.
Qed.

(** ** Comparisons on floats *)

Lemma Qltb_lt (a b : Q) : Qltb a b = true <-> (a < b)%Q.
Proof.
  unfold Qltb. rewrite negb_true_iff. split.
  - intros H. apply Qnot_le_lt. intros Hle.
    apply Qle_bool_iff in Hle. congruence.
  - intros H. destruct (Qle_bool b a) eqn:E; [|reflexivity].
    apply Qle_bool_iff in E. exfalso. exact (Qlt_not_le _ _ H E).
Qed.

Lemma Qltb_ge (a b : Q) : Qltb a b = false <-> (b <= a)%Q.
Proof.
  unfold Qltb. rewrite negb_false_iff. apply Qle_bool_iff.
Qed.

Lemma Qle_bool_gt (a b : Q) : Qle_bool a b = false <-> (b < a)%Q.
Proof.
  split.
  - intros H. apply Qnot_le_lt. intros Hle.
    apply Qle_bool_iff in Hle. congruence.
  - intros H. destruct (Qle_bool a b) eqn:E; [|reflexivity].
    apply Qle_bool_iff in E. exfalso. exact (Qlt_not_le _ _ H E).
Qed.

Ltac q_cases :=
  repeat match goal with
         | |- context [Qltb ?a ?b] =>
             let E := fresh "E" in
             destruct (Qltb a b) eqn:E;
             [apply Qltb_lt in E | apply Qltb_ge in E]
         | |- context [Qle_bool ?a ?b] =>
             let E := fresh "E" in
             destruct (Qle_bool a b) eqn:E;
             [apply Qle_bool_iff in E | apply Qle_bool_gt in E]
         end.

Ltac split_bands :=
  repeat match goal with
         | |- _ /\ _ => split
         | |- _ <-> _ => split
         end.

(** The priority of a row, by the band its usage falls in. *)
Lemma get_player_priority_bands (plr : PlayerAlerts.Row) :
  match PlayerAlerts.col_usage plr with
  | Fin q =>
      (PlayerAlerts._get_player_priority plr = CRITICAL <-> (75 < q)%Q)
      /\ (PlayerAlerts._get_player_priority plr = HIGH
          <-> (50 < q)%Q /\ (q <= 75)%Q)
      /\ (PlayerAlerts._get_player_priority plr = MEDIUM
          <-> (25 < q)%Q /\ (q <= 50)%Q)
      /\ (PlayerAlerts._get_player_priority plr = LOW <-> (q <= 25)%Q)
  | PInf => PlayerAlerts._get_player_priority plr = CRITICAL
  | NInf | NaN => PlayerAlerts._get_player_priority plr = LOW
  end.
Proof.
  unfold PlayerAlerts._get_player_priority.
  destruct (PlayerAlerts.col_usage plr) as [q| | |]; try reflexivity.
  unfold fgtb, fltb, fleb, of_Z.
  assert (inject_Z 75 = 75%Q) as -> by reflexivity.
  assert (inject_Z 50 = 50%Q) as -> by reflexivity.
  assert (inject_Z 25 = 25%Q) as -> by reflexivity.
  q_cases; simpl; split_bands; intros;
    repeat match goal with H : _ /\ _ |- _ => destruct H end;
    try discriminate; try reflexivity; lra.
Qed.

(** ** Priority of the player alerts *)

(** C1: every alert the player alert engine emits names a player of the
    squad, and its priority is fixed by that player's usage alone, whatever
    the type of the alert: CRITICAL exactly above 75, HIGH exactly in
    (50, 75], MEDIUM exactly in (25, 50] and LOW otherwise (a null usage
    included); a usage of exactly 75 gives HIGH. *)
Theorem C1_priority_from_usage :
  forall team ps now self a,
    PlayerAlerts.__init__ team ps now = Ok self ->
    In a (PlayerAlerts.alerts (PlayerAlerts.set_alerts self)) ->
    exists p,
      In p (squad team)
      /\ player a = Some (name p)
      /\ match player_usage team p with
         | Fin q =>
             (alert_priority a = CRITICAL <-> (75 < q)%Q)
             /\ (alert_priority a = HIGH <-> (50 < q)%Q /\ (q <= 75)%Q)
             /\ (alert_priority a = MEDIUM <-> (25 < q)%Q /\ (q <= 50)%Q)
             /\ (alert_priority a = LOW <-> (q <= 25)%Q)
             /\ (q == 75 -> alert_priority a = HIGH)
         | PInf => alert_priority a = CRITICAL
         | NInf | NaN => alert_priority a = LOW
         end.
Proof.
  intros team ps now self a Hinit Ha.
  destruct (alerts_fields _ _ _ _ _ Hinit Ha) as [p [Hp [Hn [Hprio _]]]].
  exists p. split; [exact Hp|]. split; [exact Hn|].
  pose proof (get_player_priority_bands (moved_row team ps now p)) as B.
  rewrite moved_row_usage in B. rewrite Hprio.
  destruct (player_usage team p) as [q| | |]; try exact B.
  destruct B as [B1 [B2 [B3 B4]]]. repeat (split; [assumption|]).
  intros Hq. apply B2. rewrite Hq. split; [reflexivity | apply Qle_refl].
Qed.

Lemma C1_priority_from_usage_witness :
  exists p,
    In p (squad sample_team)
    /\ player (PlayerAlerts.expired_alert
                 (moved_row sample_team sample_params sample_now player2))
       = Some (name p)
    /\ match player_usage sample_team p with
       | Fin q =>
           (alert_priority
              (PlayerAlerts.expired_alert
                 (moved_row sample_team sample_params sample_now player2))
            = CRITICAL <-> (75 < q)%Q)
           /\ (alert_priority
                 (PlayerAlerts.expired_alert
                    (moved_row sample_team sample_params sample_now player2))
               = HIGH <-> (50 < q)%Q /\ (q <= 75)%Q)
           /\ (alert_priority
                 (PlayerAlerts.expired_alert
                    (moved_row sample_team sample_params sample_now player2))
               = MEDIUM <-> (25 < q)%Q /\ (q <= 50)%Q)
           /\ (alert_priority
                 (PlayerAlerts.expired_alert
                    (moved_row sample_team sample_params sample_now player2))
               = LOW <-> (q <= 25)%Q)
           /\ (q == 75 ->
               alert_priority
                 (PlayerAlerts.expired_alert
                    (moved_row sample_team sample_params sample_now player2))
               = HIGH)
       | PInf =>
           alert_priority
             (PlayerAlerts.expired_alert
                (moved_row sample_team sample_params sample_now player2))
           = CRITICAL
       | NInf | NaN =>
           alert_priority
             (PlayerAlerts.expired_alert
                (moved_row sample_team sample_params sample_now player2))
           = LOW
       end.
Proof.
  apply (C1_priority_from_usage sample_team sample_params sample_now
           sample_engine).
  - vm_compute. reflexivity.
  - vm_compute. left. reflexivity.
Defined.

(** ** The two position mappings *)

(** C10: the two engines map the label 'CentralMidfield' differently.  The
    position engine benchmarks it as centre midfield (it is one of its ten
    labels), the player engine knows 'CentreMidfield' instead and sends
    'CentralMidfield' to OTHER; so every player alert for a player whose
    first position is 'CentralMidfield' is tagged OTHER, while the position
    engine puts that player into the centre-midfield group. *)
Theorem C10_central_midfield_mismatch :
  (exists label,
      In label PositionAlerts.group_labels
      /\ PositionAlerts._map_group label <> PlayerAlerts._map_group label)
  /\ PositionAlerts._map_group "CentralMidfield" = CENTRE_MIDFIELDER
  /\ PositionAlerts._map_group_reverse CENTRE_MIDFIELDER
     = Some "CentralMidfield"
  /\ PlayerAlerts._map_group "CentralMidfield" = OTHER
  /\ PlayerAlerts._map_group "CentreMidfield" = CENTRE_MIDFIELDER
  /\ (forall team ps now self n a,
         PlayerAlerts.__init__ team ps now = Ok self ->
         (forall p, In p (squad team) -> name p = n ->
                    first_position p = "CentralMidfield") ->
         In a (PlayerAlerts.alerts (PlayerAlerts.set_alerts self)) ->
         player a = Some n ->
         position a = OTHER)
  /\ (forall (self : PositionAlerts.t) r,
         In r (PositionAlerts._squad self) ->
         first_position (base r) = "CentralMidfield" ->
         In r (PositionAlerts._get_position_group self CENTRE_MIDFIELDER
                 true)).
Proof.
  split.
  { exists "CentralMidfield". split; [simpl; tauto | discriminate]. }
  repeat (split; [reflexivity|]).
  split.
  - intros team ps now self n a Hinit Hpos Ha Hn.
    destruct (alerts_fields _ _ _ _ _ Hinit Ha) as [p [Hp [Hn' [_ Hposn]]]].
    rewrite Hposn. rewrite (Hpos p Hp); [reflexivity|]. congruence.
  - intros self r Hr Hfirst.
    unfold PositionAlerts._get_position_group. simpl.
    apply (Permutation_in _ (Permutation_sym (sort_values_desc_perm _ _))).
    apply filter_In. split; [exact Hr|]. now rewrite Hfirst.
Qed.

Lemma C10_central_midfield_mismatch_witness :
  position
    {| alert_type := PAST_PEAK_AGE;
       position := PlayerAlerts._map_group "CentralMidfield";
       alert_priority := CRITICAL;
       player := Some "P1" |}
  = OTHER.
Proof.
  refine (proj1 (proj2 (proj2 (proj2 (proj2 (proj2
            C10_central_midfield_mismatch)))))
            sample_team sample_params sample_now sample_engine "P1" _
            _ _ _ _).
  - vm_compute. reflexivity.
  - intros p Hp Hn. simpl in Hp.
    destruct Hp as [<-|[<-|[<-|[]]]]; try reflexivity; discriminate.
  - vm_compute. right. right. left. reflexivity.
  - reflexivity.
Defined.

(** ** Players whose contract or loan has run out *)

Lemma filter_length_perm {A} (f : A -> bool) (l l' : list A) :
  Permutation l l' ->
  List.length (filter f l) = List.length (filter f l').
Proof.
  induction 1 as [|x l l' _ IH|x y l|l l' l'' _ IH1 _ IH2]; simpl.
  - reflexivity.
  - destruct (f x); simpl; congruence.
  - destruct (f x), (f y); reflexivity.
  - congruence.
Qed.

Lemma filter_nil_when {A} (f : A -> bool) (l : list A) :
  (forall x, In x l -> f x = false) -> filter f l = [].
Proof.
  induction l as [|x l IH]; simpl; intros H; [reflexivity|].
  rewrite (H x (or_introl eq_refl)). apply IH. intros y Hy. apply H.
  now right.
Qed.

Lemma filter_map_swap {A B} (g : A -> B) (f : B -> bool) (l : list A) :
  filter f (map g l) = map g (filter (fun x => f (g x)) l).
Proof.
  induction l as [|x l IH]; simpl; [reflexivity|].
  destruct (f (g x)); simpl; now rewrite IH.
Qed.

Lemma filter_filter {A} (f g : A -> bool) (l : list A) :
  filter f (filter g l) = filter (fun x => g x && f x) l.
Proof.
  induction l as [|x l IH]; simpl; [reflexivity|].
  destruct (g x); simpl; [destruct (f x)|]; now rewrite IH.
Qed.

Lemma NoDup_map_inj {A B} (f : A -> B) (l : list A) (x y : A) :
  NoDup (map f l) -> In x l -> In y l -> f x = f y -> x = y.
Proof.
  induction l as [|z l IH]; simpl; intros Hnd Hx Hy Hf; [contradiction|].
  inversion Hnd as [|? ? Hz Hl]; subst.
  destruct Hx as [->|Hx], Hy as [->|Hy]; auto.
  - exfalso. apply Hz. rewrite Hf. now apply in_map.
  - exfalso. apply Hz. rewrite <- Hf. now apply in_map.
Qed.

(** In a squad without two players of one name, one player answers to a
    name. *)
Lemma one_of_that_name (g : SquadPlayer -> bool) (sq : list SquadPlayer)
  (p : SquadPlayer) :
  NoDup (map name sq) -> In p sq -> g p = true ->
  List.length (filter (fun q => g q && (name q =? name p)%string) sq) = 1%nat.
Proof.
  induction sq as [|x l IH]; simpl; intros Hnd Hp Hg; [contradiction|].
  inversion Hnd as [|? ? Hx Hl]; subst.
  destruct (String.eqb_spec (name x) (name p)) as [E|E].
  - assert (p = x) as ->.
    { destruct Hp as [->|Hp]; [reflexivity|].
      exfalso. apply Hx. rewrite E. now apply in_map. }
    rewrite Hg. simpl. f_equal.
    rewrite filter_nil_when; [reflexivity|].
    intros y Hy. apply andb_false_iff. right. apply String.eqb_neq.
    intros Hn. apply Hx. rewrite <- Hn. now apply in_map.
  - rewrite andb_false_r. destruct Hp as [->|Hp]; [now elim E|].
    now apply IH.
Qed.

Lemma about_expired_alert (n : string) (r : PlayerAlerts.Row) :
  about n (PlayerAlerts.expired_alert r)
  = (PlayerAlerts.col_name r =? n)%string.
Proof. reflexivity. Qed.

(** C2: a player whose operative expiry date lies strictly before the
    as-of date gets the CONTRACT_OR_LOAN_EXPIRED alert at the priority of
    their usage and is taken out of the squad that the rules are evaluated
    on; the run emits as many such alerts as there are such players.  An
    alert names its player, so in a squad where names identify players this
    is the one alert about the player: no CONTRACT_ENDING, LOAN_ENDING or
    PAST_PEAK_AGE alert is. *)
Theorem C2_expired_player_alert :
  forall team ps now self p d,
    PlayerAlerts.__init__ team ps now = Ok self ->
    In p (squad team) ->
    operative_expiry p = Some d ->
    to_micros d < to_micros (PlayerAlerts.run_date ps) ->
    let out := PlayerAlerts.alerts (PlayerAlerts.set_alerts self) in
    let a :=
      {| alert_type := CONTRACT_OR_LOAN_EXPIRED;
         position := PlayerAlerts._map_group (first_position p);
         alert_priority :=
           PlayerAlerts._get_player_priority (moved_row team ps now p);
         player := Some (name p) |} in
    In a out
    /\ ~ In (moved_row team ps now p) (PlayerAlerts._squad self)
    /\ List.length (filter (is_type CONTRACT_OR_LOAN_EXPIRED) out)
       = List.length
           (filter (fun q => dt_ltb (operative_expiry q)
                               (to_micros (PlayerAlerts.run_date ps)))
                   (squad team))
    /\ (NoDup (map name (squad team)) ->
        filter (about (name p)) out = [a]
        /\ forall b, In b out -> player b = Some (name p) ->
                     alert_type b <> CONTRACT_ENDING
                     /\ alert_type b <> LOAN_ENDING
                     /\ alert_type b <> PAST_PEAK_AGE).
Proof.
  intros team ps now self p d Hinit Hp Hd Hlt out a.
  assert (PlayerAlerts.exclude (moved_row team ps now p) = true) as Hex.
  { rewrite moved_row_exclude, Hd. simpl. now apply Z.ltb_lt. }
  assert (a = PlayerAlerts.expired_alert (moved_row team ps now p)) as Ha
      by reflexivity.
  destruct (init_rows _ _ _ _ Hinit) as [rows [Hperm [Hps [Hsq Hal]]]].
  assert (In (moved_row team ps now p) rows) as Hrow.
  { apply (Permutation_in _ (Permutation_sym Hperm)). now apply in_map. }
  assert (out
          = (map PlayerAlerts.expired_alert (filter PlayerAlerts.exclude rows)
             ++ flat_map PlayerAlerts._set_player_alerts
                  (map (PlayerAlerts.flag ps)
                     (filter (fun plr => negb (PlayerAlerts.exclude plr))
                        rows)))%list) as Hout.
  { unfold out, PlayerAlerts.set_alerts. simpl. now rewrite Hal, Hsq, Hps. }
  split; [|split; [|split]].
  - rewrite Hout, Ha. apply in_or_app. left. apply in_map.
    apply filter_In. now split.
  - rewrite Hsq. intros Hin. apply filter_In in Hin.
    destruct Hin as [_ Hneg]. rewrite Hex in Hneg. discriminate.
  - rewrite Hout, filter_app, length_app.
    rewrite (filter_nil_when (is_type CONTRACT_OR_LOAN_EXPIRED)
               (flat_map _ _)).
    + rewrite filter_map_swap, length_map. simpl.
      rewrite Nat.add_0_r, filter_filter.
      rewrite (filter_length_perm _ _ _ Hperm), filter_map_swap, length_map.
      f_equal. apply filter_ext. intros q.
      rewrite moved_row_exclude. apply andb_true_r.
    + intros b Hb. apply in_flat_map in Hb. destruct Hb as [f [_ Hf]].
      apply set_player_alerts_fields in Hf. unfold is_type.
      destruct Hf as [_ [_ [_ [E|[E|E]]]]]; rewrite E; reflexivity.
  - intros Hnd.
    assert (forall b, In b out -> player b = Some (name p) -> b = a) as Hall.
    { intros b Hb Hn.
      destruct (alerts_origin _ _ _ _ _ Hinit Hb) as [q [Hq Hor]].
      assert (name q = name p) as Hname.
      { destruct Hor as [[_ ->]|[_ Hin]].
        - simpl in Hn. rewrite moved_row_name in Hn. congruence.
        - apply set_player_alerts_fields in Hin. simpl in Hin.
          destruct Hin as [Hpl _]. rewrite moved_row_name in Hpl.
          congruence. }
      assert (q = p) as -> by exact (NoDup_map_inj name _ _ _ Hnd Hq Hp Hname).
      destruct Hor as [[_ ->]|[Hno _]]; [now rewrite Ha | congruence]. }
    split.
    + rewrite Hout, filter_app.
      rewrite (filter_nil_when (about (name p))
                 (flat_map _ _)).
      * rewrite app_nil_r, filter_map_swap.
        assert (List.length
                  (filter (fun r => about (name p)
                                      (PlayerAlerts.expired_alert r))
                     (filter PlayerAlerts.exclude rows)) = 1%nat) as Hone.
        { rewrite filter_filter.
          rewrite (filter_length_perm _ _ _ Hperm), filter_map_swap.
          rewrite length_map.
          apply (one_of_that_name
                   (fun q => PlayerAlerts.exclude (moved_row team ps now q)));
            assumption. }
        destruct (filter _ (filter PlayerAlerts.exclude rows))
          as [|r [|r' rest]] eqn:E; try discriminate Hone.
        simpl. f_equal. apply Hall.
        -- rewrite Hout. apply in_or_app. left. apply in_map.
           assert (In r (r :: nil)) as Hr by now left.
           rewrite <- E in Hr. apply filter_In in Hr. tauto.
        -- assert (In r (r :: nil)) as Hr by now left.
           rewrite <- E in Hr. apply filter_In in Hr.
           destruct Hr as [_ Hr]. rewrite about_expired_alert in Hr.
           apply String.eqb_eq in Hr. simpl. now rewrite <- Hr.
      * intros b Hb.
        destruct (about (name p) b) eqn:Eb; [|reflexivity]. exfalso.
        assert (In b out) as Hbo
            by (rewrite Hout; apply in_or_app; now right).
        assert (player b = Some (name p)) as Hn.
        { unfold about in Eb. destruct (player b) as [m|]; [|discriminate].
          apply String.eqb_eq in Eb. now subst. }
        pose proof (Hall b Hbo Hn) as ->.
        apply in_flat_map in Hb. destruct Hb as [f [_ Hf]].
        apply set_player_alerts_fields in Hf.
        destruct Hf as [_ [_ [_ [Ht|[Ht|Ht]]]]]; discriminate Ht.
    + intros b Hb Hn. rewrite (Hall b Hb Hn).
      repeat split; discriminate.
Qed.

Lemma C2_expired_player_alert_witness :
  let out := PlayerAlerts.alerts (PlayerAlerts.set_alerts sample_engine) in
  let a :=
    {| alert_type := CONTRACT_OR_LOAN_EXPIRED;
       position := PlayerAlerts._map_group (first_position player2);
       alert_priority :=
         PlayerAlerts._get_player_priority
           (moved_row sample_team sample_params sample_now player2);
       player := Some (name player2) |} in
  In a out
  /\ ~ In (moved_row sample_team sample_params sample_now player2)
          (PlayerAlerts._squad sample_engine)
  /\ List.length (filter (is_type CONTRACT_OR_LOAN_EXPIRED) out)
     = List.length
         (filter (fun q => dt_ltb (operative_expiry q)
                             (to_micros (PlayerAlerts.run_date sample_params)))
                 (squad sample_team))
  /\ (NoDup (map name (squad sample_team)) ->
      filter (about (name player2)) out = [a]
      /\ forall b, In b out -> player b = Some (name player2) ->
                   alert_type b <> CONTRACT_ENDING
                   /\ alert_type b <> LOAN_ENDING
                   /\ alert_type b <> PAST_PEAK_AGE).
Proof.
  apply (C2_expired_player_alert sample_team sample_params sample_now
           sample_engine player2 (date 2024 1 15)).
  - vm_compute. reflexivity.
  - simpl. right. left. reflexivity.
  - reflexivity.
  - vm_compute. reflexivity.
Defined.

(** ** Usage of a player who never played *)

Lemma preprocess_In team now rows r :
  PlayerAlerts._preprocess team now (matches_frame team) (squad_frame team)
    (transfers_frame team) = Ok rows ->
  (In r rows <-> exists p, In p (squad team) /\ r = squad_row team now p).
Proof.
  intros H. apply preprocess_rows in H. split.
  - intros Hr. apply (Permutation_in _ H) in Hr. apply in_map_iff in Hr.
    destruct Hr as [p [<- Hp]]. now exists p.
  - intros [p [Hp ->]]. apply (Permutation_in _ (Permutation_sym H)).
    now apply in_map.
Qed.

Lemma never_played_minutes team p :
  never_played team p -> minutes_of team p = None.
Proof.
  intros Hnp. unfold minutes_of.
  destruct (find _ _) as [a|] eqn:E; [|reflexivity]. exfalso.
  apply find_some in E. destruct E as [Ha Hk]. apply Z.eqb_eq in Hk.
  destruct (groupby_player_id_played _ _ Ha) as [f [Hf Hid]].
  apply (Hnp f Hf). congruence.
Qed.

Lemma sample_team_preprocess :
  exists rows,
    PlayerAlerts._preprocess sample_team sample_now
      (matches_frame sample_team) (squad_frame sample_team)
      (transfers_frame sample_team) = Ok rows.
Proof. apply preprocess_total; discriminate. Qed.

Lemma player3_never_played : never_played sample_team player3.
Proof.
  intros f Hf. simpl in Hf.
  destruct Hf as [<-|[<-|[]]]; discriminate.
Qed.

(** C5, as stated, fails: player 3 of the sample team is in no match fact,
    and the usage cell of the row is not 0. *)
Lemma C5_counterexample :
  ~ (forall team now rows p r,
        PlayerAlerts._preprocess team now (matches_frame team)
          (squad_frame team) (transfers_frame team) = Ok rows ->
        In p (squad team) -> never_played team p ->
        In r rows -> player_id (base (PlayerAlerts.cells r)) = player_id p ->
        feqb (usage (PlayerAlerts.cells r)) (of_Z 0) = true).
Proof.
  intros H. destruct sample_team_preprocess as [rows Hrows].
  specialize (H sample_team sample_now rows player3
                (squad_row sample_team sample_now player3) Hrows).
  assert (feqb (usage (PlayerAlerts.cells
                         (squad_row sample_team sample_now player3)))
               (of_Z 0) = true) as C.
  { apply H.
    - simpl. tauto.
    - exact player3_never_played.
    - apply (preprocess_In _ _ _ _ Hrows). exists player3.
      split; [simpl; tauto | reflexivity].
    - reflexivity. }
  vm_compute in C. discriminate.
Qed.

(** C5, amended: a player of the roster who is in no match-participation
    fact stays in the squad frame, with null (NaN) minutes and a null
    usage, not 0; such a row gets the priority LOW. *)
Theorem C5_never_played_usage_null :
  forall team now rows p,
    PlayerAlerts._preprocess team now (matches_frame team) (squad_frame team)
      (transfers_frame team) = Ok rows ->
    In p (squad team) ->
    never_played team p ->
    In (squad_row team now p) rows
    /\ total_minutes (PlayerAlerts.cells (squad_row team now p)) = NaN
    /\ usage (PlayerAlerts.cells (squad_row team now p)) = NaN
    /\ forall ps,
         PlayerAlerts._get_player_priority (moved_row team ps now p) = LOW.
Proof.
  intros team now rows p Hrows Hp Hnp.
  split.
  { apply (preprocess_In _ _ _ _ Hrows). now exists p. }
  assert (usage (PlayerAlerts.cells (squad_row team now p)) = NaN) as Hu.
  { unfold squad_row. simpl. now rewrite (never_played_minutes _ _ Hnp). }
  split; [|split].
  - unfold squad_row. simpl. now rewrite (never_played_minutes _ _ Hnp).
  - exact Hu.
  - intros ps. unfold PlayerAlerts._get_player_priority.
    rewrite moved_row_usage. change (player_usage team p)
      with (usage (PlayerAlerts.cells (squad_row team now p))).
    now rewrite Hu.
Qed.

Lemma C5_never_played_usage_null_witness :
  In (squad_row sample_team sample_now player3) sample_rows
  /\ total_minutes
       (PlayerAlerts.cells (squad_row sample_team sample_now player3))
     = NaN
  /\ usage (PlayerAlerts.cells (squad_row sample_team sample_now player3))
     = NaN
  /\ forall ps,
       PlayerAlerts._get_player_priority
         (moved_row sample_team ps sample_now player3) = LOW.
Proof.
  apply (C5_never_played_usage_null sample_team sample_now sample_rows
           player3).
  - vm_compute. reflexivity.
  - simpl. tauto.
  - intros f Hf. simpl in Hf.
    destruct Hf as [<-|[<-|[]]]; discriminate.
Defined.

(** ** Months left on a contract *)

(** C6 (the code differs): [months_left] is the as-of year minus the expiry
    year times twelve plus the as-of month minus the expiry month, that is
    the months remaining with the sign turned round, and null for a null
    expiry date.  For player 1 of the sample team, whose contract ends in
    January 2026, twelve months remain in January 2025 and the column holds
    -12. *)
Theorem C6_months_left_sign :
  (forall team now p,
      PlayerAlerts.months_left (squad_row team now p)
      = option_map (fun x => - months_remaining now x) (operative_expiry p))
  /\ In (squad_row sample_team sample_now player1) sample_rows
  /\ operative_expiry player1 = Some (date 2026 1 15)
  /\ months_remaining sample_now (date 2026 1 15) = 12
  /\ PlayerAlerts.months_left (squad_row sample_team sample_now player1)
     = Some (-12).
Proof.
  split.
  - intros team now p. unfold squad_row, operative_expiry. simpl.
    destruct (on_loan p), (loan_end p), (contract_end p); simpl;
      try reflexivity; f_equal; unfold months_remaining; lia.
  - split; [vm_compute; tauto|]. repeat split.
Qed.

(** ** Rounding of the monetary columns *)

Lemma floor_thousand_floored (x : pyfloat) :
  floored_to_thousand x (floor_thousand x).
Proof.
  destruct x as [q| | |]; simpl; try reflexivity.
  exists (Qfloor (q / 1000)). split; [reflexivity|].
  pose proof (Qfloor_le (q / 1000)) as Hle.
  pose proof (Qlt_floor (q / 1000)) as Hlt.
  assert (q == q / 1000 * 1000)%Q as Heq by (field; discriminate).
  rewrite inject_Z_mult. rewrite inject_Z_plus in Hlt.
  change (inject_Z 1000) with 1000%Q. change (inject_Z 1) with 1%Q in Hlt.
  set (x := (q / 1000)%Q) in *. set (f := inject_Z (Qfloor x)) in *.
  split; lra.
Qed.

Lemma etv_revenue_thousands (x : pyfloat) :
  fillna0_int (floor_thousand x) mod 1000 = 0.
Proof.
  destruct x as [q| | |]; try reflexivity.
  unfold floor_thousand, fillna0_int.
  rewrite Qfloor_Z. apply Z_mod_mult.
Qed.

(** C7, as stated, fails: player 1 of the sample team came for a fee of
    1500, and the paid fee stays 1500. *)
Lemma C7_counterexample :
  ~ (forall team now rows r,
        PlayerAlerts._preprocess team now (matches_frame team)
          (squad_frame team) (transfers_frame team) = Ok rows ->
        In r rows ->
        PlayerAlerts.paid_fee r mod 1000 = 0
        /\ PlayerAlerts.value_added r mod 1000 = 0
        /\ whole_thousands (market_value (base (PlayerAlerts.cells r)))).
Proof.
  intros H.
  assert (PlayerAlerts._preprocess sample_team sample_now
            (matches_frame sample_team) (squad_frame sample_team)
            (transfers_frame sample_team) = Ok sample_rows) as Hrows
      by (vm_compute; reflexivity).
  destruct (H sample_team sample_now sample_rows
              (squad_row sample_team sample_now player1) Hrows) as [C _].
  - apply (preprocess_In _ _ _ _ Hrows). exists player1.
    split; [simpl; tauto | reflexivity].
  - vm_compute in C. discriminate.
Qed.

(** ** Empty collections *)

Lemma analyze_raises_without_fees (self : SquadTransferInsights.t)
  (sample : list SquadTransferInsights.DataRow)
  (nation : SquadTransferInsights.DataRow -> option string) :
  filter (fun r => negb (SquadTransferInsights.d_is_loan r)) sample = [] ->
  SquadTransferInsights.analyze self sample nation = Raise ZeroDivisionError.
Proof.
  intros H. unfold SquadTransferInsights.analyze. rewrite H. reflexivity.
Qed.

(** C8 (the code differs): empty collections make the code raise.  With no
    transfer on record, [_preprocess_transfers] hands back a frame without
    columns and the join on "player_id" in [_preprocess] raises KeyError, so
    no [PlayerAlerts] object is built; the transfer insights raise KeyError
    on the same team.  With transfers on record but no inbound transfer
    that is not a loan, or no outbound transfer at all, the share of free
    transfers divides by zero. *)
Theorem C8_empty_collections_raise :
  PlayerAlerts.__init__ sample_team_no_transfers sample_params sample_now
  = Raise (KeyError "player_id")
  /\ SquadTransferInsights.__init__ sample_team_no_transfers
     = Raise (KeyError "is_end_loan")
  /\ (self <- SquadTransferInsights.__init__ sample_team ;;
      SquadTransferInsights.analyze_inbound self)
     = Raise ZeroDivisionError
  /\ (self <- SquadTransferInsights.__init__ sample_team ;;
      SquadTransferInsights.analyze_outbound self)
     = Raise ZeroDivisionError.
Proof. repeat split. Qed.

(** ** Goals conceded *)

Lemma points_of_level (m : MatchTeamAttributes) :
  goals_conceded m = goals_scored m ->
  SquadPerformanceInsights.points_of m = Some 1.
Proof.
  intros H. unfold SquadPerformanceInsights.points_of,
    SquadPerformanceInsights.assign.
  now rewrite H, Z.ltb_irrefl, Z.eqb_refl.
Qed.

Lemma match_team_attributes_goals (team : SciSportsTeam)
  (m : MatchTeamAttributes) :
  In m (match_team_attributes team) -> goals_conceded m = goals_scored m.
Proof.
  unfold match_team_attributes, _set_match_team_attributes. intros H.
  apply in_map_iff in H. destruct H as [sheet [<- _]]. reflexivity.
Qed.

Lemma performance_init_matches (team : SciSportsTeam)
  (self : SquadPerformanceInsights.t) :
  SquadPerformanceInsights.__init__ team = Ok self ->
  SquadPerformanceInsights._matches self
  = map (fun m => {| SquadPerformanceInsights.attrs := m;
                     SquadPerformanceInsights.points :=
                       SquadPerformanceInsights.points_of m |})
        (match_team_attributes team).
Proof.
  unfold SquadPerformanceInsights.__init__,
    SquadPerformanceInsights._preprocess_matches, bind.
  destruct (getitem _ "goals_scored"); [|discriminate].
  destruct (SquadPerformanceInsights._preprocess_squad _ _ _);
    [|discriminate].
  intros H. inversion H; subst. reflexivity.
Qed.

Lemma value_counts_nonempty (cells : list (option string)) (v : string) :
  In (Some v) cells -> value_counts cells <> [].
Proof.
  intros Hin Hnil.
  apply (f_equal (@List.length _)) in Hnil.
  unfold value_counts in Hnil. rewrite sort_by_length, length_map in Hnil.
  assert (In v (present cells)) as Hv.
  { unfold present. apply in_flat_map. exists (Some v). split; [exact Hin|].
    now left. }
  destruct (present cells) as [|x rest]; [contradiction|].
  simpl in Hnil. discriminate Hnil.
Qed.

(** The performance insights come out for a team with a player in its
    squad, a player on one of its sheets and a formation on one of them. *)
Lemma performance_insights_total (team : SciSportsTeam) :
  squad team <> [] ->
  match_team_players team <> [] ->
  (exists m f, In m (match_team_attributes team) /\ formation m = Some f) ->
  exists self i,
    SquadPerformanceInsights.__init__ team = Ok self
    /\ SquadPerformanceInsights.get_team_performance_insights self = Ok i.
Proof.
  intros Hs Hm [m [f [Hin Hf]]].
  assert (exists self, SquadPerformanceInsights.__init__ team = Ok self)
    as [self Hinit].
  { unfold SquadPerformanceInsights.__init__,
      SquadPerformanceInsights._preprocess_matches,
      SquadPerformanceInsights._preprocess_squad, merge_usage, merge_left,
      from_records.
    destruct (squad team); [now elim Hs|].
    destruct (match_team_players team); [now elim Hm|].
    destruct (match_team_attributes team); [contradiction|].
    simpl. eexists. reflexivity. }
  exists self.
  pose proof (performance_init_matches _ _ Hinit) as Hms.
  unfold SquadPerformanceInsights.get_team_performance_insights,
    SquadPerformanceInsights.get_team_formations, bind.
  assert (value_counts
            (map (fun r => formation (SquadPerformanceInsights.attrs r))
                 (SquadPerformanceInsights._matches self)) <> []) as Hvc.
  { apply (value_counts_nonempty _ f). rewrite Hms, map_map. simpl.
    rewrite <- Hf. now apply in_map. }
  destruct (value_counts _) as [|f0 [|f1 rest]]; [now elim Hvc| |];
    eexists; (split; [exact Hinit | reflexivity]).
Qed.

Lemma Forall2_map_r {A B} (P : A -> B -> Prop) (f : A -> B) (l : list A) :
  (forall x, In x l -> P x (f x)) -> Forall2 P l (map f l).
Proof.
  induction l as [|x l IH]; intros H; simpl; constructor.
  - apply H. now left.
  - apply IH. intros y Hy. apply H. now right.
Qed.

Lemma own_side_goals (team : SciSportsTeam) (sheet : MatchSheet) :
  (st_id (homeTeam sheet) = team_id team ->
   goals (own_side team sheet) = goals (homeTeam sheet))
  /\ (st_id (homeTeam sheet) <> team_id team ->
      goals (own_side team sheet) = goals (awayTeam sheet)).
Proof.
  unfold own_side.
  destruct (Z.eqb_spec (st_id (homeTeam sheet)) (team_id team));
    split; intros H; try reflexivity; contradiction.
Qed.

(** C9: there is one derived match record for each sheet, in the order of
    the sheets, and it takes both [goals_scored] and [goals_conceded] from
    the team's own goals on the sheet: the goals of the home team when the
    team is the home team, of the away team otherwise.  So the two are
    equal on every record; every match then gets 1 point, and the
    performance insights count no match as won and none as lost: every
    match of the team is a draw, and the goals conceded they report are the
    goals scored, the int64 sum of the team's own goals.  The insights do
    come out for a team with a squad and a sheet that lists a player and a
    formation. *)
Theorem C9_goals_conceded_equals_scored :
  forall team,
    Forall2
      (fun sheet m =>
         (st_id (homeTeam sheet) = team_id team ->
          goals_scored m = goals (homeTeam sheet)
          /\ goals_conceded m = goals (homeTeam sheet))
         /\ (st_id (homeTeam sheet) <> team_id team ->
             goals_scored m = goals (awayTeam sheet)
             /\ goals_conceded m = goals (awayTeam sheet)))
      (match_sheets team) (match_team_attributes team)
    /\ (forall m, In m (match_team_attributes team) ->
                  goals_conceded m = goals_scored m)
    /\ (forall self,
          SquadPerformanceInsights.__init__ team = Ok self ->
          (forall r, In r (SquadPerformanceInsights._matches self) ->
                     SquadPerformanceInsights.points r = Some 1)
          /\ forall i,
               SquadPerformanceInsights.get_team_performance_insights self
               = Ok i ->
               SquadPerformanceInsights.matches_won i = 0
               /\ SquadPerformanceInsights.matches_lost i = 0
               /\ SquadPerformanceInsights.matches_drawn i
                  = Z.of_nat (List.length (match_sheets team))
               /\ SquadPerformanceInsights.i_goals_scored i
                  = wrap64
                      (sumZ (map (fun sheet => goals (own_side team sheet))
                               (match_sheets team)))
               /\ SquadPerformanceInsights.i_goals_conceded i
                  = SquadPerformanceInsights.i_goals_scored i)
    /\ (squad team <> [] ->
        match_team_players team <> [] ->
        (exists m f,
            In m (match_team_attributes team) /\ formation m = Some f) ->
        exists self i,
          SquadPerformanceInsights.__init__ team = Ok self
          /\ SquadPerformanceInsights.get_team_performance_insights self
             = Ok i).
Proof.
  intros team. split.
  { unfold match_team_attributes, _set_match_team_attributes.
    apply Forall2_map_r. intros sheet _.
    cbn [goals_scored goals_conceded].
    destruct (own_side_goals team sheet) as [Hhome Haway].
    split; intros H; [rewrite (Hhome H) | rewrite (Haway H)];
      split; reflexivity. }
  split; [apply match_team_attributes_goals|].
  split; [|apply performance_insights_total].
  intros self Hinit.
  pose proof (performance_init_matches _ _ Hinit) as Hm.
  assert (forall r, In r (SquadPerformanceInsights._matches self) ->
                    SquadPerformanceInsights.points r = Some 1) as Hpts.
  { intros r Hr. rewrite Hm in Hr. apply in_map_iff in Hr.
    destruct Hr as [m [<- Hin]]. simpl.
    apply points_of_level. now apply (match_team_attributes_goals team). }
  split; [exact Hpts|].
  intros i Hi.
  unfold SquadPerformanceInsights.get_team_performance_insights, bind in Hi.
  destruct (SquadPerformanceInsights.get_team_formations self);
    [|discriminate].
  inversion Hi; subst; clear Hi.
  cbn [SquadPerformanceInsights.matches_won
         SquadPerformanceInsights.matches_lost
         SquadPerformanceInsights.matches_drawn
         SquadPerformanceInsights.i_goals_scored
         SquadPerformanceInsights.i_goals_conceded].
  unfold count_where.
  split; [|split; [|split; [|split]]].
  - rewrite filter_nil_when; [reflexivity|].
    intros r Hr. unfold SquadPerformanceInsights.has_points.
    now rewrite (Hpts r Hr).
  - rewrite filter_nil_when; [reflexivity|].
    intros r Hr. unfold SquadPerformanceInsights.has_points.
    now rewrite (Hpts r Hr).
  - f_equal.
    assert (filter (SquadPerformanceInsights.has_points 1)
              (SquadPerformanceInsights._matches self)
            = SquadPerformanceInsights._matches self) as ->.
    { apply forallb_filter_id. apply forallb_forall.
      intros r Hr. unfold SquadPerformanceInsights.has_points.
      now rewrite (Hpts r Hr). }
    rewrite Hm, length_map.
    unfold match_team_attributes, _set_match_team_attributes.
    apply length_map.
  - unfold sum_int64. do 2 f_equal. rewrite Hm, map_map.
    unfold match_team_attributes, _set_match_team_attributes.
    rewrite map_map. reflexivity.
  - unfold sum_int64. do 2 f_equal. rewrite Hm, !map_map.
    unfold match_team_attributes, _set_match_team_attributes.
    rewrite !map_map. reflexivity.
Qed.

Lemma C9_goals_conceded_equals_scored_witness :
  exists i,
    SquadPerformanceInsights.get_team_performance_insights sample_performance
    = Ok i
    /\ SquadPerformanceInsights.matches_won i = 0
    /\ SquadPerformanceInsights.matches_lost i = 0
    /\ SquadPerformanceInsights.matches_drawn i
       = Z.of_nat (List.length (match_sheets sample_team))
    /\ SquadPerformanceInsights.i_goals_scored i
       = wrap64
           (sumZ (map (fun sheet => goals (own_side sample_team sheet))
                    (match_sheets sample_team)))
    /\ SquadPerformanceInsights.i_goals_conceded i
       = SquadPerformanceInsights.i_goals_scored i.
Proof.
  eexists. split.
  - vm_compute. reflexivity.
  - refine (proj2 (proj1 (proj2 (proj2 (C9_goals_conceded_equals_scored
                                          sample_team)))
                     sample_performance _) _ _).
    + vm_compute. reflexivity.
    + vm_compute. reflexivity.
Defined.

(** ** The ranked frame of the position groups *)

Section PositionFacts.
Import PositionAlerts.

Lemma Position_eqb_eq (p q : Position) : Position_eqb p q = true <-> p = q.
Proof.
  split.
  - destruct p, q; simpl; intros H; try reflexivity; discriminate H.
  - intros ->. apply Z.eqb_refl.
Qed.

Lemma ten_positions_NoDup : NoDup ten_positions.
Proof.
  vm_compute.
  repeat (constructor; [simpl; intuition discriminate|]). constructor.
Qed.

Lemma number_from_bench l f (df : list GroupRow) :
  forall i, map bench (number_from l f i df) = map bench df.
Proof.
  induction df as [|r df IH]; intros i; simpl; [reflexivity|].
  now rewrite IH.
Qed.

Lemma number_from_rank l f (df : list GroupRow) :
  forall i,
    rank_column l f (number_from l f i df) = ranks_from i (List.length df).
Proof.
  unfold rank_column.
  induction df as [|r df IH]; intros i; simpl; [reflexivity|].
  rewrite IH. f_equal.
  destruct l, f; reflexivity.
Qed.

Lemma number_from_other l f l' f' (df : list GroupRow) :
  Level_eqb l' l && Feature_eqb f' f = false ->
  forall i, rank_column l' f' (number_from l f i df) = rank_column l' f' df.
Proof.
  intros Hne. unfold rank_column.
  induction df as [|r df IH]; intros i; simpl; [reflexivity|].
  now rewrite IH, Hne.
Qed.

Lemma set_rank_bench (df : list GroupRow) l f :
  Permutation (map bench (_set_rank df l f)) (map bench df).
Proof.
  unfold _set_rank. rewrite number_from_bench.
  apply Permutation_map, sort_values_desc_perm.
Qed.

Lemma set_rank_length (df : list GroupRow) l f :
  List.length (_set_rank df l f) = List.length df.
Proof.
  rewrite <- (length_map bench), <- (length_map bench df).
  apply Permutation_length, set_rank_bench.
Qed.

Lemma set_rank_column (df : list GroupRow) l f :
  rank_column l f (_set_rank df l f) = ranks_from 0 (List.length df).
Proof.
  unfold _set_rank. rewrite number_from_rank. f_equal.
  apply Permutation_length, sort_values_desc_perm.
Qed.

Lemma set_rank_other (df : list GroupRow) l f l' f' :
  Level_eqb l' l && Feature_eqb f' f = false ->
  Permutation (rank_column l' f' (_set_rank df l f)) (rank_column l' f' df).
Proof.
  intros Hne. unfold _set_rank. rewrite (number_from_other _ _ _ _ _ Hne).
  apply Permutation_map, sort_values_desc_perm.
Qed.

(** The frame of a fresh object before it is ranked. *)
Lemma aggregate_groups_fresh (self : t) :
  _benchmarks self = [] ->
  _aggregate_groups self = map (_set_position_benchmarks self) ten_positions.
Proof.
  intros H. unfold _aggregate_groups, ten_positions. rewrite H. simpl.
  reflexivity.
Qed.

Lemma kpis_bench (self : t) :
  _benchmarks self = [] ->
  Permutation (map bench (_get_set_group_kpis self))
    (map (_set_position_benchmarks self) ten_positions).
Proof.
  intros H. unfold _get_set_group_kpis.
  repeat (eapply perm_trans; [apply set_rank_bench|]).
  rewrite (aggregate_groups_fresh _ H), map_map.
  rewrite (map_ext _ (fun b => b)) by reflexivity. rewrite map_id.
  apply Permutation_refl.
Qed.

Lemma kpis_length (self : t) :
  _benchmarks self = [] ->
  List.length (_get_set_group_kpis self) = 10%nat.
Proof.
  intros H. rewrite <- (length_map bench).
  rewrite (Permutation_length (kpis_bench _ H)). reflexivity.
Qed.

Lemma kpis_groups (self : t) :
  _benchmarks self = [] ->
  Permutation (groups_of (_get_set_group_kpis self)) ten_positions.
Proof.
  intros H. unfold groups_of.
  rewrite <- (map_map bench group).
  eapply perm_trans; [apply Permutation_map, (kpis_bench _ H)|].
  rewrite map_map. rewrite (map_ext _ (fun g => g)) by reflexivity.
  rewrite map_id. apply Permutation_refl.
Qed.

(** Every rank column of the ranked frame holds the ranks 1 to 10. *)
Lemma kpis_ranks (self : t) l f :
  _benchmarks self = [] ->
  Permutation (rank_column l f (_get_set_group_kpis self)) (ranks_from 0 10).
Proof.
  intros H. unfold _get_set_group_kpis.
  assert (List.length (map of_benchmark (_aggregate_groups self)) = 10%nat)
    as Hlen.
  { rewrite (aggregate_groups_fresh _ H). reflexivity. }
  destruct l, f;
    repeat (first
      [ rewrite set_rank_column; repeat rewrite set_rank_length;
        rewrite Hlen; apply Permutation_refl
      | eapply perm_trans; [apply set_rank_other; reflexivity|] ]).
Qed.
End PositionFacts.

(** ** The alert columns of the position groups *)

Section LocFold.
Import PositionAlerts.

Variable step : list GroupRow -> GroupRow -> list GroupRow.
Variable c : GroupRow -> bool.
Variable set : bool -> GroupRow -> GroupRow.
Variable Inv : list GroupRow -> Prop.

Hypothesis step_eq :
  forall df g, Inv df ->
               step df g = loc_group (group (bench g)) (set (c g)) df.
Hypothesis Inv_loc :
  forall df g v, Inv df -> Inv (loc_group g (set v) df).
Hypothesis set_group :
  forall v r, group (bench (set v r)) = group (bench r).

Lemma loc_group_other (g : Position) (s : GroupRow -> GroupRow)
  (df : list GroupRow) :
  ~ In g (groups_of df) -> loc_group g s df = df.
Proof.
  unfold loc_group, groups_of.
  induction df as [|r df IH]; simpl; intros Hn; [reflexivity|].
  destruct (Position_eqb (group (bench r)) g) eqn:E.
  - apply Position_eqb_eq in E. exfalso. apply Hn. now left.
  - f_equal. apply IH. intros Hin. apply Hn. now right.
Qed.

Lemma groups_of_set (df : list GroupRow) :
  groups_of (map (fun r => set (c r) r) df) = groups_of df.
Proof.
  unfold groups_of. rewrite map_map. apply map_ext. intros r.
  apply set_group.
Qed.

(** A loop of [.loc] assignments keyed by the group, over a frame whose
    groups are all different, assigns to every row the value computed from
    that row. *)
Lemma fold_loc (suf : list GroupRow) :
  forall pre,
    NoDup (groups_of (pre ++ suf)) ->
    Inv (map (fun r => set (c r) r) pre ++ suf) ->
    fold_left step suf (map (fun r => set (c r) r) pre ++ suf)
    = map (fun r => set (c r) r) (pre ++ suf).
Proof.
  induction suf as [|g suf IH]; intros pre Hnd Hinv; simpl.
  - now rewrite !app_nil_r.
  - assert (step (map (fun r => set (c r) r) pre ++ g :: suf) g
            = map (fun r => set (c r) r) (pre ++ [g]) ++ suf) as Hstep.
    { rewrite (step_eq _ _ Hinv). unfold loc_group at 1.
      rewrite map_app. simpl.
      assert (Position_eqb (group (bench g)) (group (bench g)) = true) as ->
          by now apply Position_eqb_eq.
      unfold groups_of in Hnd. rewrite map_app in Hnd. simpl in Hnd.
      pose proof (NoDup_remove_2 _ _ _ Hnd) as Hout.
      fold (loc_group (group (bench g)) (set (c g))
              (map (fun r => set (c r) r) pre)).
      fold (loc_group (group (bench g)) (set (c g)) suf).
      rewrite !loc_group_other.
      - rewrite map_app. simpl. now rewrite <- app_assoc.
      - intros Hin. apply Hout. apply in_or_app. now right.
      - rewrite groups_of_set. intros Hin. apply Hout.
        apply in_or_app. now left. }
    rewrite Hstep.
    replace (pre ++ g :: suf) with ((pre ++ [g]) ++ suf)
      by now rewrite <- app_assoc.
    apply IH.
    + now rewrite <- app_assoc.
    + rewrite <- Hstep, (step_eq _ _ Hinv). now apply Inv_loc.
Qed.
End LocFold.

Section AlertColumns.
Import PositionAlerts.

Lemma set_depth_issues_rows (df : list GroupRow) :
  NoDup (groups_of df) ->
  _set_depth_issues df
  = map (fun r => set_depth_alert (lacks_depth (bench r)) r) df.
Proof.
  intros Hnd. unfold _set_depth_issues.
  apply (fold_loc _ (fun r => lacks_depth (bench r)) set_depth_alert
           (fun _ => True)) with (pre := []); auto.
  intros df' g _. unfold lacks_depth.
  destruct (_ || _ || _); reflexivity.
Qed.

Lemma loc_group_rank_column (g : Position) l (v : bool) l' f
  (df : list GroupRow) :
  rank_column l' f (loc_group g (set_weak_alert l v) df) = rank_column l' f df.
Proof.
  unfold rank_column, loc_group. rewrite map_map. apply map_ext.
  intros r. destruct (Position_eqb _ _); reflexivity.
Qed.

Lemma set_strength_issues_rows (df : list GroupRow) l :
  NoDup (groups_of df) ->
  _set_strength_issues df l
  = map (fun r => set_weak_alert l (weak df l r) r) df.
Proof.
  intros Hnd. unfold _set_strength_issues.
  apply (fold_loc _ (weak df l) (set_weak_alert l)
           (fun df' => forall f, rank_column l f df' = rank_column l f df))
    with (pre := []); auto.
  - intros df' g Hinv. unfold weak.
    pose proof (Hinv level) as H1. pose proof (Hinv potential_) as H2.
    unfold rank_column in H1, H2 |- *. rewrite H1, H2.
    destruct (_ && _); reflexivity.
  - intros df' g v Hinv f. rewrite loc_group_rank_column. apply Hinv.
Qed.

(** The frame [_get_set_alerts] returns: the ranked frame, every row with
    its four alert columns. *)
Lemma get_set_alerts_rows (self : t) :
  NoDup (groups_of (_get_set_group_kpis self)) ->
  _get_set_alerts self
  = map (with_alerts (_get_set_group_kpis self)) (_get_set_group_kpis self).
Proof.
  intros Hnd. unfold _get_set_alerts.
  set (K := _get_set_group_kpis self) in *.
  rewrite (set_depth_issues_rows K Hnd).
  set (D := map _ K).
  assert (NoDup (groups_of D)) as HD
      by (unfold D, groups_of; rewrite map_map; exact Hnd).
  rewrite (set_strength_issues_rows D starter HD).
  set (S1 := map _ D).
  assert (NoDup (groups_of S1)) as H1
      by (unfold S1, groups_of; rewrite map_map; exact HD).
  rewrite (set_strength_issues_rows S1 back_up H1).
  set (S2 := map _ S1).
  assert (NoDup (groups_of S2)) as H2
      by (unfold S2, groups_of; rewrite map_map; exact H1).
  rewrite (set_strength_issues_rows S2 secondary_back_up H2).
  unfold S2, S1, D. rewrite !map_map.
  apply map_ext. intros k. unfold with_alerts, weak, rank_column.
  rewrite !map_map. reflexivity.
Qed.

Lemma kpis_groups_NoDup (self : t) :
  _benchmarks self = [] -> NoDup (groups_of (_get_set_group_kpis self)).
Proof.
  intros H.
  apply (Permutation_NoDup (Permutation_sym (kpis_groups _ H))).
  apply ten_positions_NoDup.
Qed.

Lemma set_position_alerts_with_alerts (df : list GroupRow) (k : GroupRow) :
  _set_position_alerts (with_alerts df k)
  = ((if lacks_depth (bench k)
      then [position_alert LACK_OF_DEPTH MEDIUM k] else [])
     ++ (if weak df starter k
         then [position_alert WEAK_SPOT_STARTER HIGH k] else [])
     ++ (if weak df back_up k
         then [position_alert WEAK_SPOT_BACK_UP MEDIUM k] else [])
     ++ (if weak df secondary_back_up k
         then [position_alert WEAK_SPOT_SECONDARY LOW k] else []))%list.
Proof. reflexivity. Qed.

(** The alerts of a fresh object after [set_alerts]. *)
Lemma set_alerts_fresh (self : t) :
  _benchmarks self = [] -> alerts self = [] ->
  fst (set_alerts self)
  = map (with_alerts (_get_set_group_kpis self)) (_get_set_group_kpis self)
  /\ alerts (snd (set_alerts self))
     = flat_map
         (fun k => _set_position_alerts
                     (with_alerts (_get_set_group_kpis self) k))
         (_get_set_group_kpis self).
Proof.
  intros Hb Ha. unfold set_alerts. simpl.
  rewrite Ha, (get_set_alerts_rows _ (kpis_groups_NoDup _ Hb)). simpl.
  split; [reflexivity|].
  rewrite flat_map_concat_map, map_map, <- flat_map_concat_map.
  reflexivity.
Qed.
End AlertColumns.

(** ** Alerts on the position groups *)

Section PositionAlertsFacts.
Import PositionAlerts.

Lemma col_max_fold (cells : list (option Z)) (m : Z) :
  forall acc,
    (acc = Some m \/ In (Some m) cells) ->
    (forall v, acc = Some v -> v <= m) ->
    (forall v, In (Some v) cells -> v <= m) ->
    fold_left
      (fun acc c =>
         match acc, c with
         | Some a, Some b => Some (Z.max a b)
         | None, _ => c
         | _, None => acc
         end)
      cells acc = Some m.
Proof.
  induction cells as [|c cells IH]; intros acc Hin Hacc Hall; simpl.
  - destruct Hin as [H|[]]. exact H.
  - apply IH.
    + destruct Hin as [->|[->|Hin]].
      * left. destruct c as [b|]; [|reflexivity].
        f_equal. apply Z.max_l. apply Hall. now left.
      * left. destruct acc as [a|]; [|reflexivity].
        f_equal. apply Z.max_r. now apply Hacc.
      * now right.
    + intros v Hv. destruct acc as [a|], c as [b|]; inversion Hv; subst.
      * apply Z.max_lub; [now apply Hacc | apply Hall; now left].
      * now apply Hacc.
      * apply Hall. now left.
    + intros v Hv. apply Hall. now right.
Qed.

Lemma col_max_top (cells : list (option Z)) (m : Z) :
  In (Some m) cells ->
  (forall v, In (Some v) cells -> v <= m) ->
  col_max cells = Some m.
Proof.
  intros Hin Hall. unfold col_max. apply col_max_fold; auto.
  intros v Hv. discriminate Hv.
Qed.

Lemma ranks_from_0_10 (c : option Z) :
  In c (ranks_from 0 10) -> exists v, c = Some v /\ 1 <= v <= 10.
Proof.
  simpl. intros H.
  repeat (destruct H as [<-|H]; [eexists; split; [reflexivity | lia]|]).
  contradiction.
Qed.

Lemma col_max_ranks (cells : list (option Z)) :
  Permutation cells (ranks_from 0 10) -> col_max cells = Some 10.
Proof.
  intros H. apply col_max_top.
  - apply (Permutation_in _ (Permutation_sym H)). simpl. tauto.
  - intros v Hv. apply (Permutation_in _ H) in Hv.
    destruct (ranks_from_0_10 _ Hv) as [w [E Hw]]. inversion E. lia.
Qed.

Lemma in_position_alerts (df : list GroupRow) (k : GroupRow) (a : Alert) :
  In a (_set_position_alerts (with_alerts df k))
  <-> (a = position_alert LACK_OF_DEPTH MEDIUM k
       /\ lacks_depth (bench k) = true)
      \/ (exists l,
             a = position_alert (weak_spot_type l) (weak_spot_priority l) k
             /\ weak df l k = true).
Proof.
  rewrite set_position_alerts_with_alerts. split.
  - intros H.
    apply in_app_or in H. destruct H as [H|H].
    { destruct (lacks_depth (bench k)); [|contradiction].
      destruct H as [<-|[]]. left. now split. }
    apply in_app_or in H. destruct H as [H|H].
    { destruct (weak df starter k) eqn:E; [|contradiction].
      destruct H as [<-|[]]. right. exists starter. now split. }
    apply in_app_or in H. destruct H as [H|H].
    { destruct (weak df back_up k) eqn:E; [|contradiction].
      destruct H as [<-|[]]. right. exists back_up. now split. }
    destruct (weak df secondary_back_up k) eqn:E; [|contradiction].
    destruct H as [<-|[]]. right. exists secondary_back_up. now split.
  - intros [[-> H]|[l [-> H]]].
    + rewrite H. apply in_or_app. left. now left.
    + destruct l; rewrite H.
      * apply in_or_app. right. apply in_or_app. left. now left.
      * apply in_or_app. right. apply in_or_app. right.
        apply in_or_app. left. now left.
      * apply in_or_app. right. apply in_or_app. right.
        apply in_or_app. right. now left.
Qed.

Lemma ten_positions_labels (label : string) :
  In label group_labels -> In (_map_group label) ten_positions.
Proof. intros H. unfold ten_positions. now apply in_map. Qed.

(** The row of a group in the ranked frame of a fresh object. *)
Lemma kpis_row (self : t) (g : Position) :
  _benchmarks self = [] -> In g ten_positions ->
  exists k,
    In k (_get_set_group_kpis self)
    /\ bench k = _set_position_benchmarks self g.
Proof.
  intros Hb Hg.
  assert (In (_set_position_benchmarks self g)
            (map bench (_get_set_group_kpis self))) as Hin.
  { apply (Permutation_in _ (Permutation_sym (kpis_bench _ Hb))).
    now apply in_map. }
  apply in_map_iff in Hin. destruct Hin as [k [Hk Hin]]. now exists k.
Qed.

Lemma kpis_row_bench (self : t) (k : GroupRow) :
  _benchmarks self = [] -> In k (_get_set_group_kpis self) ->
  bench k = _set_position_benchmarks self (group (bench k)).
Proof.
  intros Hb Hk.
  assert (In (bench k) (map (_set_position_benchmarks self) ten_positions))
    as Hin.
  { apply (Permutation_in _ (kpis_bench _ Hb)). now apply in_map. }
  apply in_map_iff in Hin. destruct Hin as [g [<- _]]. reflexivity.
Qed.

Lemma kpis_row_unique (self : t) (k k' : GroupRow) :
  _benchmarks self = [] ->
  In k (_get_set_group_kpis self) -> In k' (_get_set_group_kpis self) ->
  group (bench k) = group (bench k') -> k = k'.
Proof.
  intros Hb Hk Hk' Hg.
  exact (NoDup_map_inj (fun r => group (bench r)) _ _ _
           (kpis_groups_NoDup _ Hb) Hk Hk' Hg).
Qed.

Lemma iloc_or_zero_short (col : SquadPlayer -> pyfloat)
  (df : list (UsageRow SquadPlayer)) (i : nat) :
  (List.length df <= i)%nat -> iloc_or_zero col df i = of_Z 0.
Proof.
  intros H. unfold iloc_or_zero.
  now rewrite (proj2 (nth_error_None df i) H).
Qed.

(** A [PositionAlerts] object is built with no alert and no benchmark, for
    every team with a player in its squad and a player on one of its
    sheets. *)
Lemma position_init_fresh (team : SciSportsTeam) (self : t) :
  __init__ team = Ok self -> _benchmarks self = [] /\ alerts self = [].
Proof.
  unfold __init__, bind. destruct (_preprocess_squad _ _ _); [|discriminate].
  intros H. inversion H; subst. now split.
Qed.

Lemma position_init_total (team : SciSportsTeam) :
  squad team <> [] -> match_team_players team <> [] ->
  exists self, __init__ team = Ok self.
Proof.
  intros Hs Hm.
  assert (match_team_attributes team <> []) as Ha.
  { unfold match_team_attributes, _set_match_team_attributes.
    unfold match_team_players, _set_match_team_players in Hm.
    destruct (match_sheets team); [now elim Hm | discriminate]. }
  unfold __init__, _preprocess_squad, merge_usage, merge_left, from_records.
  destruct (squad team); [now elim Hs|].
  destruct (match_team_players team); [now elim Hm|].
  destruct (match_team_attributes team); [now elim Ha|].
  simpl. eexists. reflexivity.
Qed.

End PositionAlertsFacts.


Section WeakSpotFacts.
Import PositionAlerts.

Lemma in_bottom_three_of_ten (r : Z) (cells : list (option Z)) :
  col_max cells = Some 10 ->
  in_bottom_three (Some r) cells = true <-> r > 10 - 3.
Proof.
  intros H. unfold in_bottom_three. rewrite H.
  rewrite Z.gtb_lt. lia.
Qed.

End WeakSpotFacts.


(* ===================================================================== *)
(** * Orders, ranks, aggregates and the code around the engines *)
(* ===================================================================== *)

(** ** Sorted frames *)

Section SortedFacts.
Variable A : Type.
Variable before : A -> A -> bool.

Hypothesis before_asym :
  forall x y, before x y = true -> before y x = false.
Hypothesis before_negtrans :
  forall x y z, before x z = true -> before x y = true \/ before y z = true.

Lemma insert_by_sorted (x : A) (l : list A) :
  StronglySorted (fun a b => before b a = false) l ->
  StronglySorted (fun a b => before b a = false) (insert_by before x l).
Proof.
  induction l as [|y l IH]; simpl; intros Hs.
  - constructor; constructor.
  - inversion Hs as [|? ? Hl Hy]; subst.
    destruct (before y x) eqn:E.
    + constructor; [now apply IH|].
      apply (Permutation_Forall (Permutation_sym (insert_by_perm _ before x l))).
      constructor; [now apply before_asym | exact Hy].
    + constructor; [exact Hs|].
      constructor; [exact E|].
      rewrite Forall_forall in Hy |- *. intros z Hz.
      destruct (before z x) eqn:Ez; [|reflexivity].
      destruct (before_negtrans z y x Ez) as [H|H].
      * rewrite (Hy z Hz) in H. discriminate H.
      * congruence.
Qed.

Lemma sort_by_sorted (l : list A) :
  StronglySorted (fun a b => before b a = false) (sort_by before l).
Proof.
  induction l as [|x l IH]; simpl; [constructor|].
  now apply insert_by_sorted.
Qed.
End SortedFacts.

Lemma StronglySorted_map {A B} (f : A -> B) (R : B -> B -> Prop)
  (l : list A) :
  StronglySorted (fun a b => R (f a) (f b)) l -> StronglySorted R (map f l).
Proof.
  induction 1 as [|x l Hs IH Hf]; simpl; constructor; [exact IH|].
  rewrite Forall_forall in Hf |- *. intros y Hy. apply in_map_iff in Hy.
  destruct Hy as [z [<- Hz]]. now apply Hf.
Qed.

Lemma StronglySorted_filter {A} (p : A -> bool) (R : A -> A -> Prop)
  (l : list A) :
  StronglySorted R l -> StronglySorted R (filter p l).
Proof.
  induction 1 as [|x l Hs IH Hf]; simpl; [constructor|].
  destruct (p x); [|exact IH]. constructor; [exact IH|].
  rewrite Forall_forall in Hf |- *. intros y Hy. apply filter_In in Hy.
  now apply Hf.
Qed.

Lemma StronglySorted_weaken {A} (R S : A -> A -> Prop) (l : list A) :
  (forall x y, R x y -> S x y) -> StronglySorted R l -> StronglySorted S l.
Proof.
  intros HRS. induction 1 as [|x l Hs IH Hf]; constructor; [exact IH|].
  rewrite Forall_forall in Hf |- *. intros y Hy. apply HRS. now apply Hf.
Qed.

Ltac float_cases :=
  unfold desc_before, fgtb, fltb, isnan; simpl;
  repeat match goal with
         | |- context [Qltb ?a ?b] =>
             let E := fresh "E" in
             destruct (Qltb a b) eqn:E;
             [apply Qltb_lt in E | apply Qltb_ge in E]
         | H : context [Qltb ?a ?b] |- _ =>
             let E := fresh "E" in
             destruct (Qltb a b) eqn:E;
             [apply Qltb_lt in E | apply Qltb_ge in E]
         end;
  simpl in *.

Lemma desc_before_asym (x y : pyfloat) :
  desc_before x y = true -> desc_before y x = false.
Proof.
  destruct x, y; float_cases; intros; try reflexivity; try discriminate;
    exfalso; lra.
Qed.

Lemma desc_before_negtrans (x y z : pyfloat) :
  desc_before x z = true ->
  desc_before x y = true \/ desc_before y z = true.
Proof.
  destruct x, y, z; float_cases; intros; auto; try discriminate;
    exfalso; lra.
Qed.

Lemma not_after_iff (x y : pyfloat) :
  desc_before y x = false <-> not_after x y.
Proof.
  destruct x, y; float_cases; split; intros; auto; try discriminate;
    try contradiction; try lra.
Qed.

(** A frame sorted on a float column, highest first, nulls last. *)
Lemma sort_values_desc_sorted {R} (col : R -> pyfloat) (rows : list R) :
  StronglySorted (fun a b => not_after (col a) (col b))
    (sort_values_desc col rows).
Proof.
  unfold sort_values_desc.
  apply (StronglySorted_weaken
           (fun a b => desc_before (col b) (col a) = false)).
  - intros a b. apply not_after_iff.
  - apply sort_by_sorted.
    + intros a b. apply desc_before_asym.
    + intros a b c. apply desc_before_negtrans.
Qed.

(** ** The player alert engine: order of the squad and of the alerts *)

Lemma StronglySorted_app {A} (S : A -> A -> Prop) (l1 l2 : list A) :
  StronglySorted S l1 -> StronglySorted S l2 ->
  (forall a b, In a l1 -> In b l2 -> S a b) ->
  StronglySorted S (l1 ++ l2).
Proof.
  induction 1 as [|a l1 Hs IH Ha]; simpl; intros H2 Hcross; [exact H2|].
  constructor.
  - apply IH; [exact H2|]. intros c b Hc Hb. apply Hcross; auto.
  - apply Forall_app. split; [exact Ha|].
    rewrite Forall_forall. intros b Hb. apply Hcross; auto.
Qed.

Lemma StronglySorted_flat_map {A B} (f : A -> list B) (R : A -> A -> Prop)
  (S : B -> B -> Prop) (l : list A) :
  (forall x, StronglySorted S (f x)) ->
  (forall x y a b, R x y -> In a (f x) -> In b (f y) -> S a b) ->
  StronglySorted R l -> StronglySorted S (flat_map f l).
Proof.
  intros Hin Hout. induction 1 as [|x l Hs IH Hf]; simpl; [constructor|].
  rewrite Forall_forall in Hf.
  apply StronglySorted_app; [apply Hin | exact IH|].
  intros a b Ha Hb. apply in_flat_map in Hb. destruct Hb as [y [Hy Hb]].
  exact (Hout x y a b (Hf y Hy) Ha Hb).
Qed.

Lemma preprocess_sorted team now rows :
  PlayerAlerts._preprocess team now (matches_frame team) (squad_frame team)
    (transfers_frame team) = Ok rows ->
  StronglySorted
    (fun a b => not_after (usage (PlayerAlerts.cells a))
                  (usage (PlayerAlerts.cells b)))
    rows.
Proof.
  unfold PlayerAlerts._preprocess, PlayerAlerts._preprocess_squad, bind.
  destruct (merge_left _ _ _ _ _) as [m|] eqn:M; [|discriminate].
  destruct (merge_usage _ _ _ _) as [u|] eqn:U; [|discriminate].
  intros H. inversion H; subst; clear H.
  apply merge_usage_rows in U. rewrite U.
  apply StronglySorted_map. simpl. apply sort_values_desc_sorted.
Qed.

Lemma init_self team ps now self :
  PlayerAlerts.__init__ team ps now = Ok self ->
  exists sq,
    PlayerAlerts._preprocess team now (matches_frame team) (squad_frame team)
      (transfers_frame team) = Ok sq
    /\ self = PlayerAlerts._move_squad_forward ps sq [].
Proof.
  unfold PlayerAlerts.__init__, bind.
  fold (matches_frame team) (squad_frame team) (transfers_frame team).
  destruct (PlayerAlerts._preprocess _ _ _ _ _) as [sq|]; [|discriminate].
  intros H. inversion H; subst. now exists sq.
Qed.

(** The rows of the squad with [age] and [exclude], in the order of the
    frame: usage descending. *)
Lemma init_rows_sorted team ps now self :
  PlayerAlerts.__init__ team ps now = Ok self ->
  exists rows,
    StronglySorted
      (fun a b => not_after (PlayerAlerts.col_usage a)
                    (PlayerAlerts.col_usage b)) rows
    /\ PlayerAlerts.params self = ps
    /\ PlayerAlerts._squad self
       = filter (fun plr => negb (PlayerAlerts.exclude plr)) rows
    /\ PlayerAlerts.alerts self
       = map PlayerAlerts.expired_alert (filter PlayerAlerts.exclude rows).
Proof.
  intros Hinit. destruct (init_self _ _ _ _ Hinit) as [sq [Hsq ->]].
  eexists. split; [|repeat split; reflexivity].
  apply StronglySorted_map. exact (preprocess_sorted _ _ _ Hsq).
Qed.

Lemma priority_monotone (a b : PlayerAlerts.Row) :
  not_after (PlayerAlerts.col_usage a) (PlayerAlerts.col_usage b) ->
  priority_value (PlayerAlerts._get_player_priority b)
  <= priority_value (PlayerAlerts._get_player_priority a).
Proof.
  unfold PlayerAlerts._get_player_priority.
  destruct (PlayerAlerts.col_usage a) as [x| | |],
    (PlayerAlerts.col_usage b) as [y| | |];
    unfold not_after, fgtb, fltb, fleb, of_Z;
    try (assert (inject_Z 75 = 75%Q) as -> by reflexivity);
    try (assert (inject_Z 50 = 50%Q) as -> by reflexivity);
    try (assert (inject_Z 25 = 25%Q) as -> by reflexivity);
    intros H; try contradiction;
    q_cases; simpl; try lia; exfalso; lra.
Qed.

(** A higher usage never gives a lower priority: between two rows of the
    squad, the one whose usage is not below the other's (a null usage
    counting as the lowest) has a priority that is not below the other's. *)
Theorem player_priority_monotone_in_usage :
  forall a b : PlayerAlerts.Row,
    not_after (PlayerAlerts.col_usage a) (PlayerAlerts.col_usage b) ->
    priority_value (PlayerAlerts._get_player_priority b)
    <= priority_value (PlayerAlerts._get_player_priority a).
Proof. exact priority_monotone. Qed.

Lemma player_priority_monotone_in_usage_witness :
  priority_value
    (PlayerAlerts._get_player_priority
       (moved_row sample_team sample_params sample_now player3))
  <= priority_value
       (PlayerAlerts._get_player_priority
          (moved_row sample_team sample_params sample_now player1)).
Proof.
  apply (player_priority_monotone_in_usage
           (moved_row sample_team sample_params sample_now player1)
           (moved_row sample_team sample_params sample_now player3)).
  vm_compute. exact I.
Defined.

Lemma set_player_alerts_sorted (f : PlayerAlerts.Flagged) :
  StronglySorted
    (fun a b => priority_value (alert_priority b)
                <= priority_value (alert_priority a))
    (PlayerAlerts._set_player_alerts f).
Proof.
  unfold PlayerAlerts._set_player_alerts.
  induction (PlayerAlerts._get_player_alert_type f) as [|ty tys IH]; simpl;
    constructor; [exact IH|].
  rewrite Forall_forall. intros b Hb. apply in_map_iff in Hb.
  destruct Hb as [ty' [<- _]]. simpl. lia.
Qed.

(** The squad a [PlayerAlerts] object keeps is in descending order of usage,
    players with a null usage last.  The alerts follow that order: among
    the expiry alerts, and among the alerts [set_alerts] appends, the
    priority never rises from one alert to a later one. *)
Theorem player_alerts_follow_usage_order :
  forall team ps now self,
    PlayerAlerts.__init__ team ps now = Ok self ->
    StronglySorted
      (fun a b => not_after (PlayerAlerts.col_usage a)
                    (PlayerAlerts.col_usage b))
      (PlayerAlerts._squad self)
    /\ StronglySorted
         (fun a b => priority_value (alert_priority b)
                     <= priority_value (alert_priority a))
         (PlayerAlerts.alerts self)
    /\ exists appended,
         PlayerAlerts.alerts (PlayerAlerts.set_alerts self)
         = PlayerAlerts.alerts self ++ appended
         /\ StronglySorted
              (fun a b => priority_value (alert_priority b)
                          <= priority_value (alert_priority a))
              appended.
Proof.
  intros team ps now self Hinit.
  destruct (init_rows_sorted _ _ _ _ Hinit) as [rows [Hs [Hps [Hsq Hal]]]].
  assert (StronglySorted
            (fun a b => not_after (PlayerAlerts.col_usage a)
                          (PlayerAlerts.col_usage b))
            (PlayerAlerts._squad self)) as Hsquad.
  { rewrite Hsq. now apply StronglySorted_filter. }
  split; [exact Hsquad|]. split.
  - rewrite Hal. apply StronglySorted_map.
    apply (StronglySorted_weaken
             (fun a b => not_after (PlayerAlerts.col_usage a)
                           (PlayerAlerts.col_usage b))).
    + intros a b. apply priority_monotone.
    + now apply StronglySorted_filter.
  - eexists. split; [reflexivity|].
    apply (StronglySorted_flat_map _
             (fun x y => not_after
                           (PlayerAlerts.col_usage (PlayerAlerts.plr_row x))
                           (PlayerAlerts.col_usage (PlayerAlerts.plr_row y)))).
    + apply set_player_alerts_sorted.
    + intros x y a b Hxy Ha Hb.
      apply set_player_alerts_fields in Ha, Hb.
      destruct Ha as [_ [-> _]], Hb as [_ [-> _]].
      now apply priority_monotone.
    + apply StronglySorted_map. exact Hsquad.
Qed.

Lemma player_alerts_follow_usage_order_witness :
  StronglySorted
    (fun a b => not_after (PlayerAlerts.col_usage a)
                  (PlayerAlerts.col_usage b))
    (PlayerAlerts._squad sample_engine)
  /\ StronglySorted
       (fun a b => priority_value (alert_priority b)
                   <= priority_value (alert_priority a))
       (PlayerAlerts.alerts sample_engine)
  /\ exists appended,
       PlayerAlerts.alerts (PlayerAlerts.set_alerts sample_engine)
       = PlayerAlerts.alerts sample_engine ++ appended
       /\ StronglySorted
            (fun a b => priority_value (alert_priority b)
                        <= priority_value (alert_priority a))
            appended.
Proof.
  apply (player_alerts_follow_usage_order sample_team sample_params
           sample_now sample_engine).
  vm_compute. reflexivity.
Defined.

(** ** The player alert engine: the three rules *)

Lemma player_alert_types (f : PlayerAlerts.Flagged) (ty : AlertType) :
  In ty (PlayerAlerts._get_player_alert_type f)
  <-> (ty = CONTRACT_ENDING /\ PlayerAlerts.contract_ends_alert f = true)
      \/ (ty = LOAN_ENDING /\ PlayerAlerts.loan_ends_alert f = true)
      \/ (ty = PAST_PEAK_AGE /\ PlayerAlerts.age_alert f = true).
Proof.
  unfold PlayerAlerts._get_player_alert_type.
  destruct (PlayerAlerts.contract_ends_alert f),
    (PlayerAlerts.loan_ends_alert f), (PlayerAlerts.age_alert f); simpl;
    split; intros H;
    repeat match goal with
           | H : _ \/ _ |- _ => destruct H
           | H : _ /\ _ |- _ => destruct H
           | H : False |- _ => destruct H
           end; subst; try discriminate; auto 10.
Qed.

Lemma in_set_player_alerts (f : PlayerAlerts.Flagged) (ty : AlertType) :
  In {| alert_type := ty;
        position :=
          PlayerAlerts._map_group
            (PlayerAlerts.col_first_position (PlayerAlerts.plr_row f));
        alert_priority :=
          PlayerAlerts._get_player_priority (PlayerAlerts.plr_row f);
        player := Some (PlayerAlerts.col_name (PlayerAlerts.plr_row f)) |}
     (PlayerAlerts._set_player_alerts f)
  <-> In ty (PlayerAlerts._get_player_alert_type f).
Proof.
  unfold PlayerAlerts._set_player_alerts. rewrite in_map_iff. split.
  - intros [ty' [E H]]. inversion E. now subst.
  - intros H. now exists ty.
Qed.

(** For a player of the squad whose operative expiry date is not before the
    as-of date, in a squad where names identify players: the CONTRACT_ENDING
    alert is emitted exactly when the player is not on loan and the contract
    ends within the contract window, the LOAN_ENDING alert exactly when the
    player is on loan and the loan ends within the loan window, and the
    PAST_PEAK_AGE alert exactly when the age in years of 365.25 days is
    above the limit.  The first two never come together, and the player
    gets no expiry alert. *)
Theorem player_rule_alerts :
  forall team ps now self p,
    PlayerAlerts.__init__ team ps now = Ok self ->
    In p (squad team) ->
    NoDup (map name (squad team)) ->
    dt_ltb (operative_expiry p) (to_micros (PlayerAlerts.run_date ps))
    = false ->
    let out := PlayerAlerts.alerts (PlayerAlerts.set_alerts self) in
    let alert ty :=
      {| alert_type := ty;
         position := PlayerAlerts._map_group (first_position p);
         alert_priority :=
           PlayerAlerts._get_player_priority (moved_row team ps now p);
         player := Some (name p) |} in
    (In (alert CONTRACT_ENDING) out
     <-> dt_leb (contract_end p)
           (to_micros (PlayerAlerts.run_date ps)
            + PlayerAlerts.contract_delta ps) = true
         /\ on_loan p = false)
    /\ (In (alert LOAN_ENDING) out
        <-> dt_leb (loan_end p)
              (to_micros (PlayerAlerts.run_date ps)
               + PlayerAlerts.loan_delta ps) = true
            /\ on_loan p = true)
    /\ (In (alert PAST_PEAK_AGE) out
        <-> fgtb (PlayerAlerts.age_of (PlayerAlerts.run_date ps)
                    (birth_date p))
              (PlayerAlerts.peak_age_limit ps) = true)
    /\ ~ (In (alert CONTRACT_ENDING) out /\ In (alert LOAN_ENDING) out)
    /\ ~ In (alert CONTRACT_OR_LOAN_EXPIRED) out.
Proof.
  intros team ps now self p Hinit Hp Hnd Hex out alert.
  rewrite <- moved_row_exclude with (team := team) (now := now) in Hex.
  destruct (init_rows _ _ _ _ Hinit) as [rows [Hperm [Hps [Hsq Hal]]]].
  set (f := PlayerAlerts.flag ps (moved_row team ps now p)).
  assert (forall ty,
             ty <> CONTRACT_OR_LOAN_EXPIRED ->
             (In (alert ty) out
              <-> In ty (PlayerAlerts._get_player_alert_type f))) as Hrule.
  { intros ty Hty. rewrite <- in_set_player_alerts. split.
    - intros Hin.
      destruct (alerts_origin _ _ _ _ _ Hinit Hin) as [q [Hq Hor]].
      destruct Hor as [[_ E]|[_ Hq']].
      + apply (f_equal alert_type) in E. simpl in E. congruence.
      + pose proof (set_player_alerts_fields _ _ Hq') as [Hn _].
        simpl in Hn. rewrite moved_row_name in Hn.
        assert (q = p) as ->.
        { apply (NoDup_map_inj name _ _ _ Hnd Hq Hp). congruence. }
        exact Hq'.
    - intros Hin. unfold out, PlayerAlerts.set_alerts. simpl.
      apply in_or_app. right. apply in_flat_map. exists f.
      split; [|exact Hin].
      rewrite Hps. apply in_map. rewrite Hsq. apply filter_In. split.
      + apply (Permutation_in _ (Permutation_sym Hperm)). now apply in_map.
      + now rewrite Hex. }
  assert (PlayerAlerts.contract_ends_alert f = true
          <-> dt_leb (contract_end p)
                (to_micros (PlayerAlerts.run_date ps)
                 + PlayerAlerts.contract_delta ps) = true
              /\ on_loan p = false) as Hc.
  { unfold f, PlayerAlerts.flag, PlayerAlerts._set_contract_action,
      PlayerAlerts.col_contract_end, PlayerAlerts.col_on_loan. simpl.
    rewrite andb_true_iff, negb_true_iff.
    destruct (on_loan p); simpl; split; intros [H1 H2]; try discriminate;
      now split. }
  assert (PlayerAlerts.loan_ends_alert f = true
          <-> dt_leb (loan_end p)
                (to_micros (PlayerAlerts.run_date ps)
                 + PlayerAlerts.loan_delta ps) = true
              /\ on_loan p = true) as Hl.
  { unfold f, PlayerAlerts.flag, PlayerAlerts._set_loan_ending,
      PlayerAlerts.col_loan_end, PlayerAlerts.col_on_loan. simpl.
    apply andb_true_iff. }
  assert (In (alert CONTRACT_ENDING) out
          <-> dt_leb (contract_end p)
                (to_micros (PlayerAlerts.run_date ps)
                 + PlayerAlerts.contract_delta ps) = true
              /\ on_loan p = false) as H1.
  { rewrite Hrule by discriminate. rewrite player_alert_types, <- Hc.
    split; [intros [[_ H]|[[E _]|[E _]]]; [exact H | discriminate E
                                          | discriminate E]
           | intros H; left; now split]. }
  assert (In (alert LOAN_ENDING) out
          <-> dt_leb (loan_end p)
                (to_micros (PlayerAlerts.run_date ps)
                 + PlayerAlerts.loan_delta ps) = true
              /\ on_loan p = true) as H2.
  { rewrite Hrule by discriminate. rewrite player_alert_types, <- Hl.
    split; [intros [[E _]|[[_ H]|[E _]]]; [discriminate E | exact H
                                          | discriminate E]
           | intros H; right; left; now split]. }
  split; [exact H1|]. split; [exact H2|]. split; [|split].
  - rewrite Hrule by discriminate. rewrite player_alert_types.
    split; [intros [[E _]|[[E _]|[_ H]]]; [discriminate E | discriminate E
                                          | exact H]
           | intros H; right; right; now split].
  - rewrite H1, H2. intros [[_ Ha] [_ Hb]]. congruence.
  - intros Hin.
    destruct (alerts_origin _ _ _ _ _ Hinit Hin) as [q [Hq Hor]].
    destruct Hor as [[Hexq E]|[_ Hq']].
    + assert (q = p) as ->.
      { apply (NoDup_map_inj name _ _ _ Hnd Hq Hp).
        apply (f_equal player) in E. simpl in E.
        rewrite moved_row_name in E. congruence. }
      congruence.
    + apply set_player_alerts_fields in Hq'.
      destruct Hq' as [_ [_ [_ [E|[E|E]]]]]; discriminate E.
Qed.

Lemma player_rule_alerts_witness :
  let out := PlayerAlerts.alerts (PlayerAlerts.set_alerts sample_engine) in
  let alert ty :=
    {| alert_type := ty;
       position := PlayerAlerts._map_group (first_position player1);
       alert_priority :=
         PlayerAlerts._get_player_priority
           (moved_row sample_team sample_params sample_now player1);
       player := Some (name player1) |} in
  (In (alert CONTRACT_ENDING) out
   <-> dt_leb (contract_end player1)
         (to_micros (PlayerAlerts.run_date sample_params)
          + PlayerAlerts.contract_delta sample_params) = true
       /\ on_loan player1 = false)
  /\ (In (alert LOAN_ENDING) out
      <-> dt_leb (loan_end player1)
            (to_micros (PlayerAlerts.run_date sample_params)
             + PlayerAlerts.loan_delta sample_params) = true
          /\ on_loan player1 = true)
  /\ (In (alert PAST_PEAK_AGE) out
      <-> fgtb (PlayerAlerts.age_of (PlayerAlerts.run_date sample_params)
                  (birth_date player1))
            (PlayerAlerts.peak_age_limit sample_params) = true)
  /\ ~ (In (alert CONTRACT_ENDING) out /\ In (alert LOAN_ENDING) out)
  /\ ~ In (alert CONTRACT_OR_LOAN_EXPIRED) out.
Proof.
  apply (player_rule_alerts sample_team sample_params sample_now
           sample_engine player1).
  - vm_compute. reflexivity.
  - simpl. tauto.
  - simpl. repeat constructor; simpl; intuition discriminate.
  - vm_compute. reflexivity.
Defined.

(** ** The two engines: kinds of alerts *)

Lemma player_map_group_known (s : string) :
  PlayerAlerts._map_group s <> UNKNOWN
  /\ PlayerAlerts._map_group s <> NOT_APPLICABLE.
Proof.
  unfold PlayerAlerts._map_group.
  repeat match goal with
         | |- context [(?a =? ?b)%string] => destruct (a =? b)%string
         end; split; discriminate.
Qed.

(** The player engine emits the four player alerts only, each with the name
    of a player and a position of the taxonomy proper (never UNKNOWN or
    NOT_APPLICABLE); the position engine emits the four position alerts
    only, each without a player and for one of its ten positions. *)
Theorem engines_alert_kinds :
  (forall team ps now self a,
      PlayerAlerts.__init__ team ps now = Ok self ->
      In a (PlayerAlerts.alerts (PlayerAlerts.set_alerts self)) ->
      (alert_type a = CONTRACT_OR_LOAN_EXPIRED
       \/ alert_type a = CONTRACT_ENDING
       \/ alert_type a = LOAN_ENDING
       \/ alert_type a = PAST_PEAK_AGE)
      /\ player a <> None
      /\ position a <> UNKNOWN
      /\ position a <> NOT_APPLICABLE)
  /\ (forall self a,
         PositionAlerts._benchmarks self = [] ->
         PositionAlerts.alerts self = [] ->
         In a (PositionAlerts.alerts (snd (PositionAlerts.set_alerts self))) ->
         (alert_type a = LACK_OF_DEPTH
          \/ alert_type a = WEAK_SPOT_STARTER
          \/ alert_type a = WEAK_SPOT_BACK_UP
          \/ alert_type a = WEAK_SPOT_SECONDARY)
         /\ player a = None
         /\ In (position a) ten_positions).
Proof.
  split.
  - intros team ps now self a Hinit Ha.
    destruct (alerts_fields _ _ _ _ _ Hinit Ha) as [p [_ [Hn [_ Hpos]]]].
    split; [|split; [rewrite Hn; discriminate
                    | rewrite Hpos; apply player_map_group_known]].
    destruct (alerts_origin _ _ _ _ _ Hinit Ha) as [q [_ [[_ ->]|[_ Hin]]]].
    + now left.
    + apply set_player_alerts_fields in Hin. right. tauto.
  - intros self a Hb Hal Ha.
    destruct (set_alerts_fresh _ Hb Hal) as [_ Hout].
    rewrite Hout in Ha. apply in_flat_map in Ha. destruct Ha as [k [Hk Ha]].
    apply in_position_alerts in Ha.
    assert (In (PositionAlerts.group (PositionAlerts.bench k)) ten_positions)
      as Hg.
    { apply (Permutation_in _ (kpis_groups _ Hb)).
      unfold groups_of.
      exact (in_map (fun r => PositionAlerts.group (PositionAlerts.bench r))
               _ _ Hk). }
    destruct Ha as [[-> _]|[l [-> _]]]; simpl.
    + repeat split; auto.
    + repeat split; auto. destruct l; simpl; auto.
Qed.

Lemma engines_alert_kinds_witness :
  ((alert_type
      (PlayerAlerts.expired_alert
         (moved_row sample_team sample_params sample_now player2))
    = CONTRACT_OR_LOAN_EXPIRED
    \/ alert_type
         (PlayerAlerts.expired_alert
            (moved_row sample_team sample_params sample_now player2))
       = CONTRACT_ENDING
    \/ alert_type
         (PlayerAlerts.expired_alert
            (moved_row sample_team sample_params sample_now player2))
       = LOAN_ENDING
    \/ alert_type
         (PlayerAlerts.expired_alert
            (moved_row sample_team sample_params sample_now player2))
       = PAST_PEAK_AGE)
   /\ player
        (PlayerAlerts.expired_alert
           (moved_row sample_team sample_params sample_now player2))
      <> None
   /\ position
        (PlayerAlerts.expired_alert
           (moved_row sample_team sample_params sample_now player2))
      <> UNKNOWN
   /\ position
        (PlayerAlerts.expired_alert
           (moved_row sample_team sample_params sample_now player2))
      <> NOT_APPLICABLE)
  /\ ((alert_type
         {| alert_type := LACK_OF_DEPTH; position := LEFT_BACK;
            alert_priority := MEDIUM; player := None |} = LACK_OF_DEPTH
       \/ alert_type
            {| alert_type := LACK_OF_DEPTH; position := LEFT_BACK;
               alert_priority := MEDIUM; player := None |}
          = WEAK_SPOT_STARTER
       \/ alert_type
            {| alert_type := LACK_OF_DEPTH; position := LEFT_BACK;
               alert_priority := MEDIUM; player := None |}
          = WEAK_SPOT_BACK_UP
       \/ alert_type
            {| alert_type := LACK_OF_DEPTH; position := LEFT_BACK;
               alert_priority := MEDIUM; player := None |}
          = WEAK_SPOT_SECONDARY)
      /\ player
           {| alert_type := LACK_OF_DEPTH; position := LEFT_BACK;
              alert_priority := MEDIUM; player := None |} = None
      /\ In (position
               {| alert_type := LACK_OF_DEPTH; position := LEFT_BACK;
                  alert_priority := MEDIUM; player := None |})
            ten_positions).
Proof.
  split.
  - apply (proj1 engines_alert_kinds sample_team sample_params sample_now
             sample_engine).
    + vm_compute. reflexivity.
    + vm_compute. left. reflexivity.
  - apply (proj2 engines_alert_kinds sample_positions).
    + reflexivity.
    + reflexivity.
    + vm_compute. left. reflexivity.
Defined.

(** ** Usage is a share of the available minutes *)

Lemma max_minutes_fold (plrs : list SheetPlayer) :
  forall acc,
    acc <= fold_left
             (fun match_duration plr =>
                if minutesPlayed plr >? match_duration then minutesPlayed plr
                else match_duration)
             plrs acc
    /\ forall plr, In plr plrs ->
                   minutesPlayed plr
                   <= fold_left
                        (fun match_duration plr =>
                           if minutesPlayed plr >? match_duration
                           then minutesPlayed plr else match_duration)
                        plrs acc.
Proof.
  induction plrs as [|x plrs IH]; intros acc; simpl.
  - split; [lia | contradiction].
  - destruct (IH (if minutesPlayed x >? acc then minutesPlayed x else acc))
      as [H1 H2].
    destruct (Z.gtb_spec (minutesPlayed x) acc) as [Hgt|Hle].
    + split; [lia|]. intros plr [<-|Hin]; [exact H1 | now apply H2].
    + split; [exact H1|]. intros plr [<-|Hin]; [lia | now apply H2].
Qed.

Lemma sumZ_app (l1 l2 : list Z) : sumZ (l1 ++ l2) = sumZ l1 + sumZ l2.
Proof.
  induction l1 as [|x l1 IH]; simpl; [reflexivity|]. rewrite IH. lia.
Qed.

Lemma sumZ_pointwise {A} (f g : A -> Z) (l : list A) :
  (forall x, In x l -> f x <= g x) ->
  sumZ (map f l) <= sumZ (map g l).
Proof.
  induction l as [|x l IH]; simpl; intros H; [lia|].
  pose proof (H x (or_introl eq_refl)).
  assert (sumZ (map f l) <= sumZ (map g l))
    by (apply IH; intros y Hy; apply H; now right).
  lia.
Qed.

Lemma sumZ_nonneg {A} (f : A -> Z) (l : list A) :
  (forall x, In x l -> 0 <= f x) -> 0 <= sumZ (map f l).
Proof.
  induction l as [|x l IH]; simpl; intros H; [lia|].
  pose proof (H x (or_introl eq_refl)).
  assert (0 <= sumZ (map f l)) by (apply IH; intros y Hy; apply H; now right).
  lia.
Qed.

Lemma wrap64_small (z : Z) : - 2 ^ 63 <= z < 2 ^ 63 -> wrap64 z = z.
Proof.
  intros H. unfold wrap64. rewrite Z.mod_small; lia.
Qed.

Lemma sum_int64_exact (l : list Z) :
  - 2 ^ 63 <= sumZ l < 2 ^ 63 -> sum_int64 l = sumZ l.
Proof. apply wrap64_small. Qed.

Lemma groupby_total (mtp : list MatchTeamPlayer) (a : UsageAgg) :
  In a (groupby_player_id mtp) ->
  ua_total_minutes a
  = sum_int64 (map minutes_played
                 (filter (fun r => mtp_player_id r =? ua_player_id a) mtp)).
Proof.
  unfold groupby_player_id. intros H. apply in_map_iff in H.
  destruct H as [k [<- _]]. reflexivity.
Qed.

(** The minutes of a player over the sheets of the team, sheet by sheet. *)
Lemma minutes_by_sheet (team : SciSportsTeam) (pid : Z) :
  sumZ (map minutes_played
          (filter (fun r => mtp_player_id r =? pid)
                  (match_team_players team)))
  = sumZ (map (fun sheet =>
                 sumZ (map minutesPlayed
                         (filter (fun plr => sp_player_id plr =? pid)
                                 (players (own_side team sheet)))))
              (match_sheets team)).
Proof.
  unfold match_team_players, _set_match_team_players.
  induction (match_sheets team) as [|sheet sheets IH]; simpl; [reflexivity|].
  rewrite filter_app, map_app, sumZ_app, IH. f_equal.
  rewrite filter_map_swap, map_map. reflexivity.
Qed.

Lemma available_by_sheet (team : SciSportsTeam) :
  sumZ (map match_duration (match_team_attributes team))
  = sumZ (map (fun sheet => max_minutes (players (own_side team sheet)))
              (match_sheets team)).
Proof.
  unfold match_team_attributes, _set_match_team_attributes.
  now rewrite map_map.
Qed.

Lemma total_within_available (team : SciSportsTeam) (pid : Z) :
  (forall sheet, In sheet (match_sheets team) ->
                 NoDup (map sp_player_id (players (own_side team sheet)))) ->
  (forall sheet plr, In sheet (match_sheets team) ->
                     In plr (players (own_side team sheet)) ->
                     0 <= minutesPlayed plr) ->
  0 <= sumZ (map minutes_played
               (filter (fun r => mtp_player_id r =? pid)
                       (match_team_players team)))
    <= sumZ (map match_duration (match_team_attributes team)).
Proof.
  intros Hnd Hpos. rewrite minutes_by_sheet, available_by_sheet.
  assert (forall sheet, In sheet (match_sheets team) ->
            0 <= sumZ (map minutesPlayed
                         (filter (fun plr => sp_player_id plr =? pid)
                                 (players (own_side team sheet))))
              <= max_minutes (players (own_side team sheet))) as Hsheet.
  { intros sheet Hs.
    rewrite (filter_find_NoDup sp_player_id pid _ (Hnd sheet Hs)).
    destruct (max_minutes_fold (players (own_side team sheet)) 0)
      as [H0 Hmax]. fold (max_minutes (players (own_side team sheet))) in *.
    destruct (find _ _) as [plr|] eqn:E; simpl; [|lia].
    apply find_some in E. destruct E as [Hin _].
    pose proof (Hmax plr Hin). pose proof (Hpos sheet plr Hs Hin). lia. }
  split.
  - apply sumZ_nonneg. intros sheet Hs. apply Hsheet, Hs.
  - apply sumZ_pointwise. intros sheet Hs. apply Hsheet, Hs.
Qed.

Lemma rint_bounds (x : Q) (lo hi : Z) :
  (inject_Z lo <= x)%Q -> (x <= inject_Z hi)%Q -> lo <= rint x <= hi.
Proof.
  intros Hlo Hhi. unfold rint.
  pose proof (Qfloor_le x) as Hf.
  pose proof (Qlt_floor x) as Hc.
  assert (lo <= Qfloor x).
  { rewrite <- (Qfloor_Z lo). now apply Qfloor_resp_le. }
  assert (Qfloor x <= hi).
  { rewrite <- (Qfloor_Z hi). now apply Qfloor_resp_le. }
  rewrite inject_Z_plus in Hc. change (inject_Z 1) with 1%Q in Hc.
  q_cases; try lia.
  - destruct (Z.eq_dec (Qfloor x) hi) as [Hhit|Hhit]; [|lia].
    rewrite Hhit in *. exfalso. lra.
  - destruct (Z.even (Qfloor x)); [lia|].
    destruct (Z.eq_dec (Qfloor x) hi) as [Hhit|Hhit]; [|lia].
    rewrite Hhit in *. exfalso. lra.
Qed.

Lemma usage_of_share (t a : Z) :
  0 <= t <= a ->
  match usage_of (of_Z t) a with
  | Fin q => (0 <= q)%Q /\ (q <= 100)%Q
  | NaN => True
  | _ => False
  end.
Proof.
  intros Ht. unfold usage_of, of_Z, fdiv.
  destruct (Qeq_bool (inject_Z a) 0) eqn:E0.
  - apply Qeq_bool_iff in E0.
    assert (a = 0) as -> by (apply inject_Z_injective; exact E0).
    assert (t = 0) as -> by lia. reflexivity.
  - simpl.
    assert (0 < a).
    { destruct (Z.eq_dec a 0) as [->|]; [|lia].
      rewrite Qeq_bool_refl in E0. discriminate E0. }
    assert (0 < inject_Z a)%Q as Ha
        by (change 0%Q with (inject_Z 0); now rewrite <- Zlt_Qlt).
    assert (0 <= inject_Z t)%Q as Ht0
        by (change 0%Q with (inject_Z 0); rewrite <- Zle_Qle; lia).
    assert (inject_Z t <= inject_Z a)%Q as Hta by (rewrite <- Zle_Qle; lia).
    set (q := (inject_Z t / inject_Z a)%Q).
    assert (0 <= q)%Q as Hq0
        by (apply Qle_shift_div_l; [exact Ha | lra]).
    assert (q <= 1)%Q as Hq1
        by (apply Qle_shift_div_r; [exact Ha | lra]).
    destruct (rint_bounds (q * inject_Z 100 * 10) 0 1000) as [H0 H1].
    + change (inject_Z 0) with 0%Q. change (inject_Z 100) with 100%Q. lra.
    + change (inject_Z 1000) with 1000%Q.
      change (inject_Z 100) with 100%Q. lra.
    + set (z := rint (q * inject_Z 100 * 10)) in *.
      assert (0 <= inject_Z z)%Q
        by (change 0%Q with (inject_Z 0); now rewrite <- Zle_Qle).
      assert (inject_Z z <= 1000)%Q
        by (change 1000%Q with (inject_Z 1000); now rewrite <- Zle_Qle).
      split.
      * apply Qle_shift_div_l; [reflexivity | lra].
      * apply Qle_shift_div_r; [reflexivity | lra].
Qed.

(** On sheets that list a player of the team at most once and with minutes
    that are not negative, and whose match durations add up to less than
    2^63, so that no int64 sum of minutes wraps around, the usage of a
    player is null or a percentage between 0 and 100, never infinite; so is
    the usage cell of every row of the squad of a [PlayerAlerts] object. *)
Theorem usage_is_a_percentage :
  forall team,
    (forall sheet, In sheet (match_sheets team) ->
                   NoDup (map sp_player_id (players (own_side team sheet)))) ->
    (forall sheet plr, In sheet (match_sheets team) ->
                       In plr (players (own_side team sheet)) ->
                       0 <= minutesPlayed plr) ->
    sumZ (map match_duration (match_team_attributes team)) < 2 ^ 63 ->
    (forall p,
        match player_usage team p with
        | Fin q => (0 <= q)%Q /\ (q <= 100)%Q
        | NaN => True
        | _ => False
        end)
    /\ (forall ps now self plr,
           PlayerAlerts.__init__ team ps now = Ok self ->
           In plr (PlayerAlerts._squad self) ->
           match PlayerAlerts.col_usage plr with
           | Fin q => (0 <= q)%Q /\ (q <= 100)%Q
           | NaN => True
           | _ => False
           end).
Proof.
  intros team Hnd Hpos Hfit.
  assert (forall p,
             match player_usage team p with
             | Fin q => (0 <= q)%Q /\ (q <= 100)%Q
             | NaN => True
             | _ => False
             end) as Hall.
  { intros p. unfold player_usage, minutes_of.
    destruct (find _ _) as [a|] eqn:E; [|reflexivity].
    apply find_some in E. destruct E as [Ha _].
    apply usage_of_share. rewrite (groupby_total _ _ Ha).
    pose proof (total_within_available team (ua_player_id a) Hnd Hpos)
      as Hin.
    unfold available_minutes.
    rewrite !sum_int64_exact by lia. exact Hin. }
  split; [exact Hall|].
  intros ps now self plr Hinit Hplr.
  destruct (init_rows _ _ _ _ Hinit) as [rows [Hperm [_ [Hsq _]]]].
  rewrite Hsq in Hplr. apply filter_In in Hplr. destruct Hplr as [Hplr _].
  apply (Permutation_in _ Hperm) in Hplr. apply in_map_iff in Hplr.
  destruct Hplr as [p [<- _]]. rewrite moved_row_usage. apply Hall.
Qed.

Lemma usage_is_a_percentage_witness :
  (forall p,
      match player_usage sample_team p with
      | Fin q => (0 <= q)%Q /\ (q <= 100)%Q
      | NaN => True
      | _ => False
      end)
  /\ (forall ps now self plr,
         PlayerAlerts.__init__ sample_team ps now = Ok self ->
         In plr (PlayerAlerts._squad self) ->
         match PlayerAlerts.col_usage plr with
         | Fin q => (0 <= q)%Q /\ (q <= 100)%Q
         | NaN => True
         | _ => False
         end).
Proof.
  apply (usage_is_a_percentage sample_team).
  - intros sheet [<-|[]]. simpl.
    repeat constructor; simpl; intuition discriminate.
  - intros sheet plr [<-|[]] Hin. simpl in Hin.
    destruct Hin as [<-|[<-|[]]]; simpl; lia.
  - vm_compute. reflexivity.
Defined.

(** ** The transfer joined to a player *)

Lemma drop_duplicates_from_first {R} (key : R -> Z) (rows : list R) (t : R) :
  forall seen,
    In t (drop_duplicates_from key seen rows) ->
    exists l1 l2,
      rows = l1 ++ t :: l2 /\ forall x, In x l1 -> key x <> key t.
Proof.
  induction rows as [|x rest IH]; intros seen; simpl; [contradiction|].
  destruct (existsb (Z.eqb (key x)) seen) eqn:E.
  - intros Hin.
    pose proof (proj2 (drop_duplicates_from_keys key rest seen) t Hin) as Hout.
    destruct (IH seen Hin) as [l1 [l2 [-> Hl1]]].
    exists (x :: l1), l2. split; [reflexivity|].
    intros y [<-|Hy]; [|now apply Hl1].
    intros Hk. apply Hout. rewrite <- Hk.
    apply existsb_exists in E. destruct E as [k [Hk1 Hk2]].
    apply Z.eqb_eq in Hk2. now subst.
  - intros [<-|Hin].
    + exists [], rest. split; [reflexivity | contradiction].
    + pose proof (proj2 (drop_duplicates_from_keys key rest (key x :: seen))
                    t Hin) as Hout.
      destruct (IH _ Hin) as [l1 [l2 [-> Hl1]]].
      exists (x :: l1), l2. split; [reflexivity|].
      intros y [<-|Hy]; [|now apply Hl1].
      intros Hk. apply Hout. now left.
Qed.

Lemma drop_duplicates_from_complete {R} (key : R -> Z) (rows : list R)
  (x : R) :
  forall seen,
    In x rows -> ~ In (key x) seen ->
    exists t, In t (drop_duplicates_from key seen rows) /\ key t = key x.
Proof.
  induction rows as [|y rest IH]; intros seen; simpl; [contradiction|].
  intros Hin Hseen.
  destruct (existsb (Z.eqb (key y)) seen) eqn:E.
  - destruct Hin as [->|Hin]; [|now apply IH].
    exfalso. apply Hseen. apply existsb_exists in E.
    destruct E as [k [Hk1 Hk2]]. apply Z.eqb_eq in Hk2. now subst.
  - destruct (Z.eq_dec (key y) (key x)) as [Hk|Hk].
    + exists y. split; [now left | exact Hk].
    + destruct Hin as [->|Hin]; [now elim Hk|].
      destruct (IH (key y :: seen) Hin) as [t [Ht Hkt]].
      * intros [H|H]; [now elim Hk | now apply Hseen].
      * exists t. split; [now right | exact Hkt].
Qed.

Lemma StronglySorted_after {A} (R : A -> A -> Prop) (l1 l2 : list A) (t : A) :
  StronglySorted R (l1 ++ t :: l2) -> Forall (R t) l2.
Proof.
  induction l1 as [|x l1 IH]; simpl; intros H; inversion H; subst; auto.
Qed.

Lemma sort_later_sorted (l : list Transfer) :
  StronglySorted
    (fun a b => to_micros (transfer_date b) <= to_micros (transfer_date a))
    (sort_by later l).
Proof.
  apply (StronglySorted_weaken (fun a b => later b a = false)).
  - intros a b H. unfold later in H. now apply Z.ltb_ge in H.
  - apply sort_by_sorted; unfold later.
    + intros x y H. apply Z.ltb_lt in H. apply Z.ltb_ge. lia.
    + intros x y z H. apply Z.ltb_lt in H.
      destruct (to_micros (transfer_date y) <? to_micros (transfer_date x))
        eqn:E; [now left|].
      right. apply Z.ltb_ge in E. apply Z.ltb_lt. lia.
Qed.

Lemma kept_transfers (team : SciSportsTeam) :
  let kept :=
    sort_by later
      (filter (fun t => negb (fillna false (is_end_loan t)))
         (filter (fun t => to_team_id t =? team_id team)
            (transfers team))) in
  (forall t, In t kept
             <-> In t (transfers team)
                 /\ to_team_id t = team_id team
                 /\ fillna false (is_end_loan t) = false)
  /\ records (PlayerAlerts._preprocess_transfers team
                (transfers_frame team))
     = map (fun t =>
              {| PlayerAlerts.tr_paid_fee := fillna 0 (fee t);
                 PlayerAlerts.tr_academy_player := is_internal t;
                 PlayerAlerts.tr_starting_market_value :=
                   fillna 0 (t_market_value t);
                 PlayerAlerts.tr_player_id := t_player_id t |})
           (drop_duplicates t_player_id kept).
Proof.
  intros kept. split.
  - intros t. unfold kept. rewrite sort_by_In, !filter_In.
    rewrite negb_true_iff, Z.eqb_eq. tauto.
  - unfold PlayerAlerts._preprocess_transfers, transfers_frame, from_records,
      kept.
    destruct (transfers team); reflexivity.
Qed.

Lemma transfer_of_origin (team : SciSportsTeam) (p : SquadPlayer)
  (r : PlayerAlerts.TransferRow) :
  transfer_of team p = Some r ->
  exists t,
    In t (transfers team)
    /\ to_team_id t = team_id team
    /\ fillna false (is_end_loan t) = false
    /\ t_player_id t = player_id p
    /\ PlayerAlerts.tr_paid_fee r = fillna 0 (fee t)
    /\ PlayerAlerts.tr_academy_player r = is_internal t
    /\ PlayerAlerts.tr_starting_market_value r
       = fillna 0 (t_market_value t)
    /\ forall t',
         In t' (transfers team) ->
         to_team_id t' = team_id team ->
         fillna false (is_end_loan t') = false ->
         t_player_id t' = player_id p ->
         to_micros (transfer_date t') <= to_micros (transfer_date t).
Proof.
  intros Hr.
  set (kept :=
         sort_by later
           (filter (fun t => negb (fillna false (is_end_loan t)))
              (filter (fun t => to_team_id t =? team_id team)
                 (transfers team)))).
  destruct (kept_transfers team) as [Hkept Hrec]. fold kept in Hkept, Hrec.
  unfold transfer_of in Hr. rewrite Hrec in Hr.
  apply find_some in Hr. destruct Hr as [Hin Hk].
  apply Z.eqb_eq in Hk. apply in_map_iff in Hin.
  destruct Hin as [t [<- Ht]]. simpl in Hk.
  destruct (drop_duplicates_from_first _ _ _ _ Ht) as [l1 [l2 [Hl Hl1]]].
  assert (In t kept) as Htk
      by (rewrite Hl; apply in_or_app; right; now left).
  apply Hkept in Htk. destruct Htk as [H1 [H2 H3]].
  exists t. repeat (split; [assumption || reflexivity|]).
  intros t' H1' H2' H3' H4'.
  assert (In t' kept) as Htk' by (apply Hkept; tauto).
  pose proof (sort_later_sorted
                (filter (fun t => negb (fillna false (is_end_loan t)))
                   (filter (fun t => to_team_id t =? team_id team)
                      (transfers team)))) as Hsorted.
  fold kept in Hsorted. rewrite Hl in Hsorted, Htk'.
  apply StronglySorted_after in Hsorted. rewrite Forall_forall in Hsorted.
  apply in_app_or in Htk'. destruct Htk' as [Hb|[<-|Ha]].
  - exfalso. apply (Hl1 t' Hb). congruence.
  - lia.
  - now apply Hsorted.
Qed.

Lemma transfer_of_none (team : SciSportsTeam) (p : SquadPlayer) :
  transfer_of team p = None
  <-> forall t,
        In t (transfers team) ->
        to_team_id t = team_id team ->
        fillna false (is_end_loan t) = false ->
        t_player_id t <> player_id p.
Proof.
  set (kept :=
         sort_by later
           (filter (fun t => negb (fillna false (is_end_loan t)))
              (filter (fun t => to_team_id t =? team_id team)
                 (transfers team)))).
  destruct (kept_transfers team) as [Hkept Hrec]. fold kept in Hkept, Hrec.
  unfold transfer_of. rewrite Hrec. split.
  - intros Hnone t H1 H2 H3 H4.
    assert (In t kept) as Htk by (apply Hkept; tauto).
    destruct (drop_duplicates_from_complete t_player_id kept t [] Htk)
      as [t0 [Ht0 Hk0]]; [intros []|].
    pose proof (find_none _ _ Hnone
                  {| PlayerAlerts.tr_paid_fee := fillna 0 (fee t0);
                     PlayerAlerts.tr_academy_player := is_internal t0;
                     PlayerAlerts.tr_starting_market_value :=
                       fillna 0 (t_market_value t0);
                     PlayerAlerts.tr_player_id := t_player_id t0 |})
      as Hne.
    simpl in Hne. rewrite Z.eqb_neq in Hne.
    assert (t_player_id t0 <> player_id p) as Hne'.
    { apply Hne. apply in_map_iff. exists t0.
      split; [reflexivity | exact Ht0]. }
    congruence.
  - intros Hnone. destruct (find _ _) as [r|] eqn:E; [|reflexivity].
    exfalso. apply find_some in E. destruct E as [Hin Hk].
    apply Z.eqb_eq in Hk. apply in_map_iff in Hin.
    destruct Hin as [t [<- Ht]]. simpl in Hk.
    destruct (drop_duplicates_from_first _ _ _ _ Ht) as [l1 [l2 [Hl _]]].
    assert (In t kept) as Htk
        by (rewrite Hl; apply in_or_app; right; now left).
    apply Hkept in Htk. destruct Htk as [H1 [H2 H3]].
    exact (Hnone t H1 H2 H3 Hk).
Qed.

(** The transfer joined to a player for the paid fee, the academy flag and
    the starting market value is an inbound transfer of that player which
    is no return from loan, and no other such transfer is more recent; a
    player has no joined transfer exactly when the team has no such transfer
    of the player on record. *)
Theorem joined_transfer_is_most_recent :
  forall team p,
    (forall r,
        transfer_of team p = Some r ->
        exists t,
          In t (transfers team)
          /\ to_team_id t = team_id team
          /\ fillna false (is_end_loan t) = false
          /\ t_player_id t = player_id p
          /\ PlayerAlerts.tr_paid_fee r = fillna 0 (fee t)
          /\ PlayerAlerts.tr_academy_player r = is_internal t
          /\ PlayerAlerts.tr_starting_market_value r
             = fillna 0 (t_market_value t)
          /\ forall t',
               In t' (transfers team) ->
               to_team_id t' = team_id team ->
               fillna false (is_end_loan t') = false ->
               t_player_id t' = player_id p ->
               to_micros (transfer_date t') <= to_micros (transfer_date t))
    /\ (transfer_of team p = None
        <-> forall t,
              In t (transfers team) ->
              to_team_id t = team_id team ->
              fillna false (is_end_loan t) = false ->
              t_player_id t <> player_id p).
Proof.
  intros team p. split.
  - intros r Hr. now apply transfer_of_origin.
  - apply transfer_of_none.
Qed.

Lemma joined_transfer_is_most_recent_witness :
  exists t,
    In t (transfers sample_team)
    /\ to_team_id t = team_id sample_team
    /\ fillna false (is_end_loan t) = false
    /\ t_player_id t = player_id player1
    /\ PlayerAlerts.tr_paid_fee
         {| PlayerAlerts.tr_paid_fee := 1500;
            PlayerAlerts.tr_academy_player := Some false;
            PlayerAlerts.tr_starting_market_value := 1000;
            PlayerAlerts.tr_player_id := 1 |} = fillna 0 (fee t)
    /\ PlayerAlerts.tr_academy_player
         {| PlayerAlerts.tr_paid_fee := 1500;
            PlayerAlerts.tr_academy_player := Some false;
            PlayerAlerts.tr_starting_market_value := 1000;
            PlayerAlerts.tr_player_id := 1 |} = is_internal t
    /\ PlayerAlerts.tr_starting_market_value
         {| PlayerAlerts.tr_paid_fee := 1500;
            PlayerAlerts.tr_academy_player := Some false;
            PlayerAlerts.tr_starting_market_value := 1000;
            PlayerAlerts.tr_player_id := 1 |}
       = fillna 0 (t_market_value t)
    /\ forall t',
         In t' (transfers sample_team) ->
         to_team_id t' = team_id sample_team ->
         fillna false (is_end_loan t') = false ->
         t_player_id t' = player_id player1 ->
         to_micros (transfer_date t') <= to_micros (transfer_date t).
Proof.
  apply (proj1 (joined_transfer_is_most_recent sample_team player1)).
  vm_compute. reflexivity.
Defined.

(** ** Rounding of the monetary columns, column by column *)

Lemma revenue_floored (x : Q) :
  floored_to_thousand (Fin x) (of_Z (fillna0_int (floor_thousand (Fin x)))).
Proof.
  assert (of_Z (fillna0_int (floor_thousand (Fin x)))
          = floor_thousand (Fin x)) as ->
      by (unfold floor_thousand, fillna0_int, of_Z; now rewrite Qfloor_Z).
  apply floor_thousand_floored.
Qed.

Lemma transfer_of_joined (team : SciSportsTeam) (p : SquadPlayer) :
  exists jt,
    joined_transfer team p jt
    /\ option_map PlayerAlerts.tr_paid_fee (transfer_of team p)
       = option_map (fun t => fillna 0 (fee t)) jt
    /\ option_map PlayerAlerts.tr_starting_market_value (transfer_of team p)
       = option_map (fun t => fillna 0 (t_market_value t)) jt.
Proof.
  destruct (transfer_of team p) as [tr|] eqn:E.
  - destruct (transfer_of_origin team p tr E)
      as [t [H1 [H2 [H3 [H4 [Hfee [_ [Hmv Hlast]]]]]]]].
    exists (Some t). split; [|split].
    + simpl. repeat (split; [assumption|]). exact Hlast.
    + simpl. now rewrite Hfee.
    + simpl. now rewrite Hmv.
  - exists None. split; [|split; reflexivity].
    simpl. now apply transfer_of_none.
Qed.

(** C7, amended: every row of the squad after [_preprocess] is the row of a
    squad player.  Of its monetary columns, the current value estimate and
    the value-estimate delta are the player's, rounded down to whole
    thousands.  The market value is left as it is, and the paid fee and the
    starting market value are the fee and the market value, a missing one
    as 0, of the transfer joined to the player: the most recent transfer of
    the player to the club that is no return from loan.  None of them is
    rounded.  For a player who is not on loan, the value-estimate revenue
    is the rounded value estimate minus the paid fee, rounded down to whole
    thousands again, and the value added is the market value minus the
    starting market value, not rounded (both for figures that the columns
    hold exactly).  The paid fee is 0 without a joined transfer; the
    revenue is 0 for a player on loan and for a value estimate that is
    missing; the value added is 0 for a player on loan, without a joined
    transfer and without a market value.  A missing value estimate stays
    null, and months-left is null exactly when the operative expiry date
    is. *)
Theorem C7_monetary_columns :
  forall team now rows r,
    PlayerAlerts._preprocess team now (matches_frame team) (squad_frame team)
      (transfers_frame team) = Ok rows ->
    In r rows ->
    exists p jt,
      In p (squad team)
      /\ joined_transfer team p jt
      /\ player_id (base (PlayerAlerts.cells r)) = player_id p
      /\ name (base (PlayerAlerts.cells r)) = name p
      /\ floored_to_thousand (etv_current p)
           (etv_current (base (PlayerAlerts.cells r)))
      /\ floored_to_thousand (etv_dev p)
           (etv_dev (base (PlayerAlerts.cells r)))
      /\ market_value (base (PlayerAlerts.cells r)) = market_value p
      /\ PlayerAlerts.paid_fee r
         = fillna 0 (option_map (fun t => fillna 0 (fee t)) jt)
      /\ PlayerAlerts.starting_market_value r
         = option_map (fun t => fillna 0 (t_market_value t)) jt
      /\ PlayerAlerts.etv_revenue r mod 1000 = 0
      /\ (on_loan p = false ->
          forall e,
            etv_current (base (PlayerAlerts.cells r)) = Fin e ->
            (- inject_Z (2 ^ 52) <= e)%Q -> (e <= inject_Z (2 ^ 52))%Q ->
            exactly_held (PlayerAlerts.paid_fee r) ->
            floored_to_thousand
              (Fin (e - inject_Z (PlayerAlerts.paid_fee r)))
              (of_Z (PlayerAlerts.etv_revenue r)))
      /\ ((forall q, etv_current p <> Fin q) ->
          PlayerAlerts.etv_revenue r = 0)
      /\ (on_loan p = false ->
          forall mv smv,
            market_value p = Some mv ->
            PlayerAlerts.starting_market_value r = Some smv ->
            exactly_held mv -> exactly_held smv ->
            PlayerAlerts.value_added r = mv - smv)
      /\ (market_value p = None -> PlayerAlerts.value_added r = 0)
      /\ (jt = None ->
          PlayerAlerts.paid_fee r = 0 /\ PlayerAlerts.value_added r = 0)
      /\ (on_loan p = true ->
          PlayerAlerts.etv_revenue r = 0 /\ PlayerAlerts.value_added r = 0)
      /\ (PlayerAlerts.months_left r = None <-> operative_expiry p = None).
Proof.
  intros team now rows r Hrows Hr.
  apply (preprocess_In _ _ _ _ Hrows) in Hr. destruct Hr as [p [Hp ->]].
  destruct (transfer_of_joined team p) as [jt [Hjt [Hfee Hsmv]]].
  exists p, jt. split; [exact Hp|]. split; [exact Hjt|].
  unfold squad_row, PlayerAlerts.normalise, add_usage.
  cbn [PlayerAlerts.cells PlayerAlerts.paid_fee
         PlayerAlerts.starting_market_value PlayerAlerts.etv_revenue
         PlayerAlerts.value_added PlayerAlerts.months_left base fst snd].
  unfold PlayerAlerts.set_columns.
  cbn [player_id name etv_current etv_dev market_value].
  rewrite Hfee, Hsmv.
  split; [reflexivity|]. split; [reflexivity|].
  split; [apply floor_thousand_floored|].
  split; [apply floor_thousand_floored|].
  split; [reflexivity|]. split; [reflexivity|]. split; [reflexivity|].
  split; [apply etv_revenue_thousands|].
  split; [|split; [|split; [|split; [|split; [|split]]]]].
  - intros Hloan e He _ _ _. rewrite Hloan, He. cbn [negb fsub of_Z].
    apply revenue_floored.
  - intros Hnone. destruct (on_loan p); [reflexivity|]. cbn [negb].
    destruct (etv_current p) as [q| | |]; try reflexivity.
    now elim (Hnone q).
  - intros Hloan mv smv Hmv Hs _ _. rewrite Hloan, Hmv, Hs. reflexivity.
  - intros ->. destruct (on_loan p); reflexivity.
  - intros ->. cbn [option_map fillna]. split; [reflexivity|].
    destruct (on_loan p); [reflexivity|].
    destruct (market_value p); reflexivity.
  - intros ->. split; reflexivity.
  - unfold operative_expiry.
    destruct (on_loan p), (loan_end p), (contract_end p); simpl;
      split; intros H; try reflexivity; discriminate H.
Qed.

Lemma C7_monetary_columns_witness :
  let r := squad_row sample_team sample_now player1 in
  exists p jt,
    In p (squad sample_team)
    /\ joined_transfer sample_team p jt
    /\ player_id (base (PlayerAlerts.cells r)) = player_id p
    /\ name (base (PlayerAlerts.cells r)) = name p
    /\ floored_to_thousand (etv_current p)
         (etv_current (base (PlayerAlerts.cells r)))
    /\ floored_to_thousand (etv_dev p)
         (etv_dev (base (PlayerAlerts.cells r)))
    /\ market_value (base (PlayerAlerts.cells r)) = market_value p
    /\ PlayerAlerts.paid_fee r
       = fillna 0 (option_map (fun t => fillna 0 (fee t)) jt)
    /\ PlayerAlerts.starting_market_value r
       = option_map (fun t => fillna 0 (t_market_value t)) jt
    /\ PlayerAlerts.etv_revenue r mod 1000 = 0
    /\ (on_loan p = false ->
        forall e,
          etv_current (base (PlayerAlerts.cells r)) = Fin e ->
          (- inject_Z (2 ^ 52) <= e)%Q -> (e <= inject_Z (2 ^ 52))%Q ->
          exactly_held (PlayerAlerts.paid_fee r) ->
          floored_to_thousand
            (Fin (e - inject_Z (PlayerAlerts.paid_fee r)))
            (of_Z (PlayerAlerts.etv_revenue r)))
    /\ ((forall q, etv_current p <> Fin q) ->
        PlayerAlerts.etv_revenue r = 0)
    /\ (on_loan p = false ->
        forall mv smv,
          market_value p = Some mv ->
          PlayerAlerts.starting_market_value r = Some smv ->
          exactly_held mv -> exactly_held smv ->
          PlayerAlerts.value_added r = mv - smv)
    /\ (market_value p = None -> PlayerAlerts.value_added r = 0)
    /\ (jt = None ->
        PlayerAlerts.paid_fee r = 0 /\ PlayerAlerts.value_added r = 0)
    /\ (on_loan p = true ->
        PlayerAlerts.etv_revenue r = 0 /\ PlayerAlerts.value_added r = 0)
    /\ (PlayerAlerts.months_left r = None <-> operative_expiry p = None).
Proof.
  apply (C7_monetary_columns sample_team sample_now sample_rows
           (squad_row sample_team sample_now player1)).
  - vm_compute. reflexivity.
  - vm_compute. tauto.
Defined.

(** ** The position engine: labels, groups and benchmarks *)

Section PositionGroupFacts.
Import PositionAlerts.

Lemma map_group_other (s : string) :
  _map_group s = OTHER <-> ~ In s group_labels.
Proof.
  unfold _map_group, group_labels.
  repeat match goal with
         | |- context [(s =? ?b)%string] =>
             destruct (String.eqb_spec s b);
             [subst; split; [discriminate | intros H; exfalso; apply H;
                                            simpl; tauto]|]
         end.
  split; [|reflexivity]. intros _ H. simpl in H. intuition congruence.
Qed.

(** The labels of the position engine and its positions translate back and
    forth: each of the ten labels is recovered from its position, a position
    with a label is recovered from that label, and the strings that are none
    of the ten labels are exactly those sent to OTHER, which has no
    label. *)
Theorem position_labels_round_trip :
  (forall label, In label group_labels ->
                 _map_group_reverse (_map_group label) = Some label)
  /\ (forall p label, _map_group_reverse p = Some label ->
                      _map_group label = p /\ In label group_labels)
  /\ (forall s, _map_group s = OTHER <-> ~ In s group_labels)
  /\ _map_group_reverse OTHER = None.
Proof.
  split; [|split; [|split; [exact map_group_other | reflexivity]]].
  - intros label H. simpl in H.
    repeat (destruct H as [<-|H]; [reflexivity|]). contradiction.
  - intros p label H.
    destruct p; simpl in H; inversion H; subst; split; try reflexivity;
      simpl; tauto.
Qed.

Lemma position_labels_round_trip_witness :
  _map_group_reverse (_map_group "LeftWing") = Some "LeftWing"
  /\ (_map_group "CentralMidfield" = CENTRE_MIDFIELDER
      /\ In "CentralMidfield" group_labels)
  /\ (_map_group "Sweeper" = OTHER <-> ~ In "Sweeper" group_labels).
Proof.
  split; [|split].
  - apply (proj1 position_labels_round_trip). simpl. tauto.
  - apply (proj1 (proj2 position_labels_round_trip)). reflexivity.
  - apply (proj1 (proj2 (proj2 position_labels_round_trip))).
Defined.

Lemma filter_length_le {A} (f g : A -> bool) (l : list A) :
  (forall x, f x = true -> g x = true) ->
  (List.length (filter f l) <= List.length (filter g l))%nat.
Proof.
  intros H. induction l as [|x l IH]; simpl; [lia|].
  destruct (f x) eqn:E.
  - rewrite (H x E). simpl. lia.
  - destruct (g x); simpl; lia.
Qed.

Lemma is_label_spec (label : option string) (cell : string) :
  is_label label cell = true <-> label = Some cell.
Proof.
  destruct label as [s|]; simpl; [|split; discriminate].
  rewrite String.eqb_eq. split; congruence.
Qed.

(** A position group holds the rows of the squad that carry the label of
    the position as first, second or third position, or as first position
    when secondary positions are left out; leaving them out never makes a
    group larger, and a position without a label has an empty group. *)
Theorem position_group_members :
  forall (self : t) (g : Position),
    (forall r,
        In r (_get_position_group self g true)
        <-> In r (_squad self)
            /\ (_map_group_reverse g = Some (first_position (base r))
                \/ _map_group_reverse g = Some (second_position (base r))
                \/ _map_group_reverse g = Some (third_position (base r))))
    /\ (forall r,
           In r (_get_position_group self g false)
           <-> In r (_squad self)
               /\ _map_group_reverse g = Some (first_position (base r)))
    /\ (List.length (_get_position_group self g false)
        <= List.length (_get_position_group self g true))%nat
    /\ (_map_group_reverse g = None ->
        _get_position_group self g true = []).
Proof.
  intros self g. unfold _get_position_group, sort_values_desc.
  split; [|split; [|split]].
  - intros r. rewrite sort_by_In, filter_In, !orb_true_iff, !is_label_spec.
    tauto.
  - intros r. rewrite sort_by_In, filter_In, is_label_spec. tauto.
  - rewrite !sort_by_length. apply filter_length_le.
    intros x H. now rewrite H.
  - intros H. rewrite H. simpl. rewrite filter_nil_when; [reflexivity|].
    reflexivity.
Qed.

Lemma position_group_members_witness :
  _get_position_group sample_positions OTHER true = [].
Proof.
  apply (proj2 (proj2 (proj2 (position_group_members sample_positions
                                OTHER)))).
  reflexivity.
Defined.

Lemma nth_error_sorted {A} (R : A -> A -> Prop) (l : list A) (i j : nat)
  (x y : A) :
  StronglySorted R l -> (i < j)%nat ->
  nth_error l i = Some x -> nth_error l j = Some y -> R x y.
Proof.
  intros Hs. revert i j. induction Hs as [|a l Hs IH Ha]; intros i j Hij Hi Hj.
  - destruct i; discriminate Hi.
  - destruct j as [|j]; [lia|]. simpl in Hj.
    destruct i as [|i]; simpl in Hi.
    + inversion Hi; subst. rewrite Forall_forall in Ha. apply Ha.
      exact (nth_error_In _ _ Hj).
    + apply (IH i j); [lia | exact Hi | exact Hj].
Qed.

Lemma position_group_sorted (self : t) (g : Position) :
  StronglySorted
    (fun a b => not_after (sciskill (base a)) (sciskill (base b)))
    (_get_position_group self g true).
Proof.
  unfold _get_position_group. apply sort_values_desc_sorted.
Qed.

(** The tiers of a benchmark are players of the group, best skill first:
    skill and potential of a tier belong to one player of the group, no
    player of the group has a skill above the starter's, and the back-up's
    and the secondary back-up's skills follow in descending order (null
    skills last). *)
Theorem benchmark_tiers_in_skill_order :
  forall (self : t) (g : Position),
    let df := _get_position_group self g true in
    let b := _set_position_benchmarks self g in
    (forall x, nth_error df 0 = Some x ->
               starter_level b = sciskill (base x)
               /\ starter_potential b = potential (base x)
               /\ forall r, In r df ->
                            not_after (starter_level b) (sciskill (base r)))
    /\ (forall y, nth_error df 1 = Some y ->
                  back_up_level b = sciskill (base y)
                  /\ back_up_potential b = potential (base y)
                  /\ not_after (starter_level b) (back_up_level b))
    /\ (forall z, nth_error df 2 = Some z ->
                  secondary_back_up_level b = sciskill (base z)
                  /\ secondary_back_up_potential b = potential (base z)
                  /\ not_after (back_up_level b)
                       (secondary_back_up_level b)).
Proof.
  intros self g df b.
  pose proof (position_group_sorted self g) as Hs. fold df in Hs.
  unfold b, _set_position_benchmarks, iloc_or_zero. fold df.
  cbn [starter_level starter_potential back_up_level back_up_potential
       secondary_back_up_level secondary_back_up_potential].
  split; [|split].
  - intros x Hx. rewrite Hx. split; [reflexivity|]. split; [reflexivity|].
    intros r Hr. destruct df as [|x0 rest]; [contradiction|].
    cbn in Hx. inversion Hx; subst.
    inversion Hs as [|? ? _ Hf]; subst. rewrite Forall_forall in Hf.
    destruct Hr as [<-|Hr]; [|now apply Hf].
    destruct (sciskill (base x)); simpl; auto. apply Qle_refl.
  - intros y Hy. rewrite Hy. split; [reflexivity|]. split; [reflexivity|].
    destruct (nth_error df 0) as [x|] eqn:Hx.
    + exact (nth_error_sorted _ df 0 1 x y Hs (Nat.lt_0_succ 0) Hx Hy).
    + apply nth_error_None in Hx.
      assert (nth_error df 1 <> None) as H by congruence.
      apply nth_error_Some in H. lia.
  - intros z Hz. rewrite Hz. split; [reflexivity|]. split; [reflexivity|].
    destruct (nth_error df 1) as [y|] eqn:Hy.
    + exact (nth_error_sorted _ df 1 2 y z Hs (Nat.lt_succ_diag_r 1) Hy Hz).
    + apply nth_error_None in Hy.
      assert (nth_error df 2 <> None) as H by congruence.
      apply nth_error_Some in H. lia.
Qed.

Lemma benchmark_tiers_in_skill_order_witness :
  let df := _get_position_group sample_positions LEFT_BACK true in
  let b := _set_position_benchmarks sample_positions LEFT_BACK in
  exists y,
    nth_error df 1 = Some y
    /\ back_up_level b = sciskill (base y)
    /\ back_up_potential b = potential (base y)
    /\ not_after (starter_level b) (back_up_level b).
Proof.
  eexists. split.
  - vm_compute. reflexivity.
  - apply (proj1 (proj2 (benchmark_tiers_in_skill_order sample_positions
                           LEFT_BACK))).
    vm_compute. reflexivity.
Defined.
End PositionGroupFacts.

(** ** The position engine: what a rank means *)

Section RankFacts.
Import PositionAlerts.

Lemma rank_set_rank_same l f v (r : GroupRow) :
  rank (set_rank l f v r) l f = Some v.
Proof. destruct l, f; reflexivity. Qed.

Lemma number_from_In l f (s : list GroupRow) :
  forall i r',
    In r' (number_from l f i s) ->
    exists r v,
      In r s /\ r' = set_rank l f v r /\ i + 1 <= v.
Proof.
  induction s as [|x s IH]; intros i r'; simpl; [contradiction|].
  intros [<-|Hin].
  - exists x, (i + 1). split; [now left|]. split; [reflexivity | lia].
  - destruct (IH (i + 1) r' Hin) as [r [v [Hr [E Hv]]]].
    exists r, v. split; [now right|]. split; [exact E | lia].
Qed.

Lemma number_from_sorted l f (s : list GroupRow) :
  StronglySorted
    (fun x y => not_after (value l f (bench x)) (value l f (bench y))) s ->
  forall i,
    StronglySorted
      (fun x y =>
         not_after (value l f (bench x)) (value l f (bench y))
         /\ ranked_below l f x y)
      (number_from l f i s).
Proof.
  induction 1 as [|x s Hs IH Hx]; intros i; simpl; constructor.
  - apply IH.
  - rewrite Forall_forall in Hx |- *. intros y' Hy'.
    destruct (number_from_In _ _ _ _ _ Hy') as [y [v [Hy [-> Hv]]]].
    split; [exact (Hx y Hy)|].
    unfold ranked_below. rewrite !rank_set_rank_same. lia.
Qed.

Lemma StronglySorted_related {A} (S : A -> A -> Prop) (l : list A) (x y : A) :
  StronglySorted S l -> In x l -> In y l -> x = y \/ S x y \/ S y x.
Proof.
  induction 1 as [|a l Hs IH Ha]; simpl; [contradiction|].
  rewrite Forall_forall in Ha.
  intros [<-|Hx] [<-|Hy]; auto.
Qed.

Lemma set_rank_respects_same (df : list GroupRow) l f :
  rank_respects_value l f (_set_rank df l f).
Proof.
  intros r1 r2 H1 H2 Hlt. unfold _set_rank in H1, H2.
  pose proof (number_from_sorted l f _
                (sort_values_desc_sorted (fun r => value l f (bench r)) df) 0)
    as Hs.
  destruct (StronglySorted_related _ _ r1 r2 Hs H1 H2) as [E|[[H _]|[_ H]]].
  - subst. unfold ranked_below in Hlt.
    destruct (rank r2 l f); [lia | contradiction].
  - exact H.
  - exfalso. unfold ranked_below in Hlt, H.
    destruct (rank r1 l f), (rank r2 l f); try contradiction. lia.
Qed.

Lemma set_rank_respects_other (df : list GroupRow) l f l' f' :
  Level_eqb l l' && Feature_eqb f f' = false ->
  rank_respects_value l f df ->
  rank_respects_value l f (_set_rank df l' f').
Proof.
  intros Hne Hdf r1 r2 H1 H2 Hlt. unfold _set_rank in H1, H2.
  destruct (number_from_In _ _ _ _ _ H1) as [x1 [v1 [Hx1 [-> _]]]].
  destruct (number_from_In _ _ _ _ _ H2) as [x2 [v2 [Hx2 [-> _]]]].
  apply sort_by_In in Hx1, Hx2.
  unfold ranked_below in Hlt. simpl in Hlt. rewrite Hne in Hlt.
  simpl. now apply Hdf.
Qed.

Lemma kpis_respects (self : t) l f :
  rank_respects_value l f (_get_set_group_kpis self).
Proof.
  unfold _get_set_group_kpis.
  destruct l, f;
    repeat first [ apply set_rank_respects_same
                 | apply set_rank_respects_other; [reflexivity|] ].
Qed.

Lemma ranks_from_NoDup (n : nat) :
  forall i, NoDup (ranks_from i n)
            /\ forall v, In (Some v) (ranks_from i n) -> i < v.
Proof.
  induction n as [|n IH]; intros i; simpl.
  - split; [constructor | contradiction].
  - destruct (IH (i + 1)) as [Hnd Hgt]. split.
    + constructor; [|exact Hnd]. intros Hin. apply Hgt in Hin. lia.
    + intros v [E|Hin]; [inversion E; lia|]. apply Hgt in Hin. lia.
Qed.

(** In the frame [set_alerts] returns for a fresh object, rank 1 is the
    best: a group ranked below another on a metric never has the smaller
    value of that metric (a null value counting as the smallest), and no
    two groups share a rank. *)
Theorem ranks_follow_values :
  forall (self : t) l f,
    _benchmarks self = [] ->
    alerts self = [] ->
    let df := fst (set_alerts self) in
    (forall r1 r2 a b,
        In r1 df -> In r2 df ->
        rank r1 l f = Some a -> rank r2 l f = Some b -> a < b ->
        not_after (value l f (bench r1)) (value l f (bench r2)))
    /\ (forall r1 r2,
           In r1 df -> In r2 df -> rank r1 l f = rank r2 l f -> r1 = r2).
Proof.
  intros self l f Hb Ha df.
  destruct (set_alerts_fresh _ Hb Ha) as [Hdf _]. fold df in Hdf.
  split.
  - intros r1 r2 a b H1 H2 Ha1 Hb2 Hlt. rewrite Hdf in H1, H2.
    apply in_map_iff in H1, H2.
    destruct H1 as [k1 [<- Hk1]], H2 as [k2 [<- Hk2]].
    simpl in *. apply (kpis_respects self l f k1 k2 Hk1 Hk2).
    unfold ranked_below. now rewrite Ha1, Hb2.
  - intros r1 r2 H1 H2 E.
    apply (NoDup_map_inj (fun r => rank r l f) df); try assumption.
    assert (rank_column l f df = rank_column l f (_get_set_group_kpis self))
      as Hcol.
    { rewrite Hdf. unfold rank_column. rewrite map_map. reflexivity. }
    fold (rank_column l f df). rewrite Hcol.
    apply (Permutation_NoDup (Permutation_sym (kpis_ranks self l f Hb))).
    apply ranks_from_NoDup.
Qed.

Lemma ranks_follow_values_witness :
  let df := fst (set_alerts sample_positions) in
  (forall r1 r2 a b,
      In r1 df -> In r2 df ->
      rank r1 starter level = Some a -> rank r2 starter level = Some b ->
      a < b ->
      not_after (value starter level (bench r1))
        (value starter level (bench r2)))
  /\ (forall r1 r2,
         In r1 df -> In r2 df ->
         rank r1 starter level = rank r2 starter level -> r1 = r2).
Proof.
  apply (ranks_follow_values sample_positions starter level).
  - reflexivity.
  - reflexivity.
Defined.

Lemma weak_alerts_of_row (df : list GroupRow) (k : GroupRow) l :
  List.length
    (filter (is_type (weak_spot_type l))
       (_set_position_alerts (with_alerts df k)))
  = if weak df l k then 1%nat else 0%nat.
Proof.
  rewrite set_position_alerts_with_alerts.
  destruct l, (lacks_depth (bench k)), (weak df starter k),
    (weak df back_up k), (weak df secondary_back_up k); reflexivity.
Qed.

Lemma weak_alerts_count (K df : list GroupRow) l :
  (List.length
     (filter (is_type (weak_spot_type l))
        (flat_map (fun k => _set_position_alerts (with_alerts K k)) df))
   <= List.length
        (filter (fun c => in_bottom_three c (rank_column l level K))
           (rank_column l level df)))%nat.
Proof.
  induction df as [|k df IH]; simpl; [lia|].
  rewrite filter_app, length_app, weak_alerts_of_row.
  unfold weak at 1.
  destruct (in_bottom_three (rank k l level) (rank_column l level K));
    simpl; [|lia].
  destruct (in_bottom_three _ _); simpl; lia.
Qed.

(** For a fresh object, [set_alerts] emits at most three weak-spot alerts
    of each tier: one for each of the three groups at the bottom of the
    skill ranking at most. *)
Theorem at_most_three_weak_spots :
  forall (self : t) l,
    _benchmarks self = [] ->
    alerts self = [] ->
    (List.length
       (filter (is_type (weak_spot_type l)) (alerts (snd (set_alerts self))))
     <= 3)%nat.
Proof.
  intros self l Hb Ha.
  destruct (set_alerts_fresh _ Hb Ha) as [_ Hout]. rewrite Hout.
  eapply Nat.le_trans; [apply weak_alerts_count|].
  rewrite (filter_length_perm _ _ _ (kpis_ranks self l level Hb)).
  assert (forall c,
             in_bottom_three c
               (rank_column l level (_get_set_group_kpis self))
             = match c with Some r => r >? 10 - 3 | None => false end) as Hc.
  { intros c. unfold in_bottom_three.
    rewrite (col_max_ranks _ (kpis_ranks self l level Hb)).
    destruct c; reflexivity. }
  rewrite (filter_ext _ _ Hc). vm_compute. lia.
Qed.

Lemma at_most_three_weak_spots_witness :
  (List.length
     (filter (is_type (weak_spot_type starter))
        (alerts (snd (set_alerts sample_positions))))
   <= 3)%nat.
Proof.
  apply (at_most_three_weak_spots sample_positions starter); reflexivity.
Defined.
End RankFacts.

(** ** Depth and weak spots: the alerts of the position engine *)

Section PositionEngineAlerts.
Import PositionAlerts.

(** C3: for each of the ten position groups, the position engine emits the
    LACK_OF_DEPTH alert at priority MEDIUM exactly when the starter, the
    back-up or the secondary back-up skill of the group is 0; a tier the
    group has no player for has skill and potential 0, so a group of two
    players gets the alert.  The group is made of the rows of the squad
    that have the label as first, second or third position, and a tier the
    group has a player for holds the skill and the potential of that
    player: the starter is the player of the group with the best skill, the
    back-up and the secondary back-up follow in descending order of skill
    (null skills last).  A skill is 0 when it is a number equal to 0; a
    null skill is not. *)
Theorem C3_lack_of_depth_alert :
  forall self label,
    _benchmarks self = [] ->
    alerts self = [] ->
    In label group_labels ->
    let g := _map_group label in
    let b := _set_position_benchmarks self g in
    let df := _get_position_group self g true in
    let n := List.length df in
    let out := alerts (snd (set_alerts self)) in
    let a :=
      {| alert_type := LACK_OF_DEPTH;
         position := g;
         alert_priority := MEDIUM;
         player := None |} in
    (In a out
     <-> is_zero (starter_level b) = true
         \/ is_zero (back_up_level b) = true
         \/ is_zero (secondary_back_up_level b) = true)
    /\ (forall a', In a' out -> alert_type a' = LACK_OF_DEPTH ->
                   alert_priority a' = MEDIUM)
    /\ ((n < 1)%nat ->
        starter_level b = of_Z 0 /\ starter_potential b = of_Z 0)
    /\ ((n < 2)%nat ->
        back_up_level b = of_Z 0 /\ back_up_potential b = of_Z 0)
    /\ ((n < 3)%nat ->
        secondary_back_up_level b = of_Z 0
        /\ secondary_back_up_potential b = of_Z 0)
    /\ (n = 2%nat -> In a out)
    /\ (forall r,
           In r df
           <-> In r (_squad self)
               /\ (first_position (base r) = label
                   \/ second_position (base r) = label
                   \/ third_position (base r) = label))
    /\ (forall x, nth_error df 0 = Some x ->
                  starter_level b = sciskill (base x)
                  /\ starter_potential b = potential (base x)
                  /\ forall r, In r df ->
                               not_after (starter_level b)
                                 (sciskill (base r)))
    /\ (forall y, nth_error df 1 = Some y ->
                  back_up_level b = sciskill (base y)
                  /\ back_up_potential b = potential (base y)
                  /\ not_after (starter_level b) (back_up_level b))
    /\ (forall z, nth_error df 2 = Some z ->
                  secondary_back_up_level b = sciskill (base z)
                  /\ secondary_back_up_potential b = potential (base z)
                  /\ not_after (back_up_level b)
                       (secondary_back_up_level b))
    /\ (forall cell, is_zero cell = true
                     <-> exists q, cell = Fin q /\ (q == 0)%Q).
Proof.
  intros self label Hb Ha Hlabel g b df n out a.
  assert ((forall x, nth_error df 0 = Some x ->
                     starter_level b = sciskill (base x)
                     /\ starter_potential b = potential (base x)
                     /\ forall r, In r df ->
                                  not_after (starter_level b)
                                    (sciskill (base r)))
          /\ (forall y, nth_error df 1 = Some y ->
                        back_up_level b = sciskill (base y)
                        /\ back_up_potential b = potential (base y)
                        /\ not_after (starter_level b) (back_up_level b))
          /\ (forall z, nth_error df 2 = Some z ->
                        secondary_back_up_level b = sciskill (base z)
                        /\ secondary_back_up_potential b
                           = potential (base z)
                        /\ not_after (back_up_level b)
                             (secondary_back_up_level b))) as Htiers.
  { pose proof (position_group_sorted self g) as Hs. fold df in Hs.
    unfold b, _set_position_benchmarks, iloc_or_zero. fold df.
    cbn [starter_level starter_potential back_up_level back_up_potential
         secondary_back_up_level secondary_back_up_potential].
    split; [|split].
    - intros x Hx. rewrite Hx. split; [reflexivity|]. split; [reflexivity|].
      intros r Hr. destruct df as [|x0 rest]; [contradiction|].
      cbn in Hx. inversion Hx; subst.
      inversion Hs as [|? ? _ Hf]; subst. rewrite Forall_forall in Hf.
      destruct Hr as [<-|Hr]; [|now apply Hf].
      destruct (sciskill (base x)); simpl; auto. apply Qle_refl.
    - intros y Hy. rewrite Hy. split; [reflexivity|]. split; [reflexivity|].
      destruct (nth_error df 0) as [x|] eqn:Hx.
      + exact (nth_error_sorted _ df 0 1 x y Hs (Nat.lt_0_succ 0) Hx Hy).
      + apply nth_error_None in Hx.
        assert (nth_error df 1 <> None) as H by congruence.
        apply nth_error_Some in H. lia.
    - intros z Hz. rewrite Hz. split; [reflexivity|]. split; [reflexivity|].
      destruct (nth_error df 1) as [y|] eqn:Hy.
      + exact (nth_error_sorted _ df 1 2 y z Hs (Nat.lt_succ_diag_r 1)
                 Hy Hz).
      + apply nth_error_None in Hy.
        assert (nth_error df 2 <> None) as H by congruence.
        apply nth_error_Some in H. lia. }
  destruct (set_alerts_fresh _ Hb Ha) as [_ Hout].
  fold out in Hout.
  assert (In g ten_positions) as Hg by now apply ten_positions_labels.
  assert (In a out <-> lacks_depth b = true) as Hiff.
  { rewrite Hout, in_flat_map. split.
    - intros [k [Hk Hin]]. apply in_position_alerts in Hin.
      destruct Hin as [[E Hd]|[l [E _]]].
      + assert (group (bench k) = g) as Hgk
            by (apply (f_equal position) in E; simpl in E; congruence).
        unfold b. rewrite <- Hgk, <- (kpis_row_bench _ _ Hb Hk). exact Hd.
      + apply (f_equal alert_type) in E. destruct l; discriminate E.
    - intros Hd. destruct (kpis_row _ _ Hb Hg) as [k [Hk Hbk]].
      exists k. split; [exact Hk|]. apply in_position_alerts. left.
      fold b in Hbk. rewrite Hbk. split; [|exact Hd].
      unfold a, position_alert. now rewrite Hbk. }
  assert (forall i, (n <= i)%nat ->
                    iloc_or_zero sciskill (_get_position_group self g true) i
                    = of_Z 0
                    /\ iloc_or_zero potential
                         (_get_position_group self g true) i = of_Z 0)
    as Hshort.
  { intros i Hi. split; now apply iloc_or_zero_short. }
  split; [|split; [|split; [|split; [|split; [|split; [|split]]]]]].
  - rewrite Hiff. unfold lacks_depth. rewrite !orb_true_iff. tauto.
  - intros a' Ha' Hty. rewrite Hout in Ha'. apply in_flat_map in Ha'.
    destruct Ha' as [k [_ Hin]]. apply in_position_alerts in Hin.
    destruct Hin as [[-> _]|[l [-> _]]]; [reflexivity|].
    destruct l; discriminate Hty.
  - intros Hn. apply (Hshort 0%nat). lia.
  - intros Hn. apply (Hshort 1%nat). lia.
  - intros Hn. apply (Hshort 2%nat). lia.
  - intros Hn. apply Hiff. unfold lacks_depth.
    assert (secondary_back_up_level b = of_Z 0) as ->
        by (apply (Hshort 2%nat); lia).
    now rewrite orb_true_r.
  - intros r. unfold df, _get_position_group, sort_values_desc.
    assert (_map_group_reverse g = Some label) as ->.
    { unfold g. simpl in Hlabel.
      repeat (destruct Hlabel as [<-|Hlabel]; [reflexivity|]).
      contradiction. }
    rewrite sort_by_In, filter_In, !orb_true_iff, !is_label_spec.
    assert (forall c : string, Some label = Some c <-> c = label) as Hc
        by (intros c; split; congruence).
    rewrite !Hc. tauto.
  - destruct Htiers as [T1 [T2 T3]].
    split; [exact T1|]. split; [exact T2|]. split; [exact T3|].
    intros cell. unfold is_zero, feqb, of_Z. split.
    + destruct cell as [q| | |]; intros H; try discriminate H.
      exists q. split; [reflexivity|]. now apply Qeq_bool_iff in H.
    + intros [q [-> H]]. now apply Qeq_bool_iff.
Qed.

(** C4: for each of the ten position groups and each tier, the group has
    one row in the frame, holding the benchmark of the group, with a skill
    rank and a potential rank between 1 and 10, the maximum of either rank
    column being 10; the weak-spot alert of the tier (WEAK_SPOT_STARTER at
    HIGH, WEAK_SPOT_BACK_UP at MEDIUM, WEAK_SPOT_SECONDARY at LOW) is
    emitted for the group exactly when both ranks are above the maximum
    minus 3.  Rank 1 is the best: on either metric of the tier, a group
    ranked below another never has the smaller value (a null value counting
    as the smallest), and no two groups share a rank; so the groups with a
    rank above the maximum minus 3 are three groups at the bottom of the
    metric. *)
Theorem C4_weak_spot_alerts :
  forall self label l,
    _benchmarks self = [] ->
    alerts self = [] ->
    In label group_labels ->
    let g := _map_group label in
    let df := fst (set_alerts self) in
    let out := alerts (snd (set_alerts self)) in
    exists pos rl rp,
      In pos df
      /\ group (bench pos) = g
      /\ (forall pos', In pos' df -> group (bench pos') = g -> pos' = pos)
      /\ rank pos l level = Some rl
      /\ rank pos l potential_ = Some rp
      /\ 1 <= rl <= 10
      /\ 1 <= rp <= 10
      /\ col_max (rank_column l level df) = Some 10
      /\ col_max (rank_column l potential_ df) = Some 10
      /\ (In {| alert_type := weak_spot_type l;
                position := g;
                alert_priority := weak_spot_priority l;
                player := None |} out
          <-> rl > 10 - 3 /\ rp > 10 - 3)
      /\ (forall a, In a out -> alert_type a = weak_spot_type l ->
                    alert_priority a = weak_spot_priority l)
      /\ bench pos = _set_position_benchmarks self g
      /\ (forall f r1 r2 a b,
             In r1 df -> In r2 df ->
             rank r1 l f = Some a -> rank r2 l f = Some b -> a < b ->
             not_after (value l f (bench r1)) (value l f (bench r2)))
      /\ (forall f r1 r2,
             In r1 df -> In r2 df -> rank r1 l f = rank r2 l f -> r1 = r2).
Proof.
  intros self label l Hb Ha Hlabel g df out.
  destruct (set_alerts_fresh _ Hb Ha) as [Hdf Hout].
  fold df in Hdf. fold out in Hout.
  set (K := _get_set_group_kpis self) in *.
  assert (In g ten_positions) as Hg by now apply ten_positions_labels.
  destruct (kpis_row _ _ Hb Hg) as [k [Hk Hbk]]. fold K in Hk.
  assert (group (bench k) = g) as Hgk by now rewrite Hbk.
  assert (forall f, rank_column l f df = rank_column l f K) as Hcols.
  { intros f. rewrite Hdf. unfold rank_column. rewrite map_map.
    reflexivity. }
  assert (forall f, exists v, rank k l f = Some v /\ 1 <= v <= 10) as Hrank.
  { intros f. apply ranks_from_0_10.
    apply (Permutation_in _ (kpis_ranks self l f Hb)).
    unfold rank_column. fold K.
    exact (in_map (fun r => rank r l f) _ _ Hk). }
  assert (forall f, col_max (rank_column l f K) = Some 10) as Hmax.
  { intros f. apply col_max_ranks. apply (kpis_ranks self l f Hb). }
  destruct (Hrank level) as [rl [Hrl Hrl']].
  destruct (Hrank potential_) as [rp [Hrp Hrp']].
  assert (weak K l k = true <-> rl > 10 - 3 /\ rp > 10 - 3) as Hweak.
  { unfold weak. rewrite andb_true_iff, Hrl, Hrp.
    rewrite (in_bottom_three_of_ten _ _ (Hmax level)).
    rewrite (in_bottom_three_of_ten _ _ (Hmax potential_)). tauto. }
  exists (with_alerts K k), rl, rp.
  split; [rewrite Hdf; now apply in_map|].
  split; [exact Hgk|].
  split.
  { intros pos' Hpos' Hg'. rewrite Hdf in Hpos'. apply in_map_iff in Hpos'.
    destruct Hpos' as [k' [<- Hk']]. f_equal.
    apply (kpis_row_unique self); try assumption.
    simpl in Hg'. congruence. }
  split; [exact Hrl|]. split; [exact Hrp|].
  split; [exact Hrl'|]. split; [exact Hrp'|].
  split; [rewrite Hcols; apply Hmax|].
  split; [rewrite Hcols; apply Hmax|].
  split; [|split; [|split; [|split]]].
  - rewrite <- Hweak, Hout, in_flat_map. split.
    + intros [k' [Hk' Hin]]. apply in_position_alerts in Hin.
      destruct Hin as [[E _]|[l' [E Hw]]].
      * apply (f_equal alert_type) in E. destruct l; discriminate E.
      * assert (l' = l) as ->.
        { apply (f_equal alert_type) in E. destruct l, l'; try reflexivity;
            discriminate E. }
        assert (k' = k) as ->; [|exact Hw].
        apply (kpis_row_unique self); try assumption.
        apply (f_equal position) in E. simpl in E. congruence.
    + intros Hw. exists k. split; [exact Hk|].
      apply in_position_alerts. right. exists l. split; [|exact Hw].
      unfold position_alert. now rewrite Hgk.
  - intros a Hin Hty. rewrite Hout in Hin. apply in_flat_map in Hin.
    destruct Hin as [k' [_ Hin]]. apply in_position_alerts in Hin.
    destruct Hin as [[-> _]|[l' [-> _]]].
    + destruct l; discriminate Hty.
    + simpl in Hty. destruct l, l'; try reflexivity; discriminate Hty.
  - exact Hbk.
  - intros f r1 r2 a b H1 H2 Ha1 Hb2 Hlt. rewrite Hdf in H1, H2.
    apply in_map_iff in H1, H2.
    destruct H1 as [k1 [<- Hk1]], H2 as [k2 [<- Hk2]].
    simpl in *. apply (kpis_respects self l f k1 k2 Hk1 Hk2).
    unfold ranked_below. now rewrite Ha1, Hb2.
  - intros f r1 r2 H1 H2 E.
    apply (NoDup_map_inj (fun r => rank r l f) df); try assumption.
    fold (rank_column l f df). rewrite Hcols.
    apply (Permutation_NoDup (Permutation_sym (kpis_ranks self l f Hb))).
    apply ranks_from_NoDup.
Qed.
End PositionEngineAlerts.

Lemma C3_lack_of_depth_alert_witness :
  let g := PositionAlerts._map_group "LeftBack" in
  let b := PositionAlerts._set_position_benchmarks sample_positions g in
  let df := PositionAlerts._get_position_group sample_positions g true in
  let n := List.length df in
  let out :=
    PositionAlerts.alerts (snd (PositionAlerts.set_alerts sample_positions))
  in
  let a :=
    {| alert_type := LACK_OF_DEPTH;
       position := g;
       alert_priority := MEDIUM;
       player := None |} in
  (In a out
   <-> PositionAlerts.is_zero (PositionAlerts.starter_level b) = true
       \/ PositionAlerts.is_zero (PositionAlerts.back_up_level b) = true
       \/ PositionAlerts.is_zero (PositionAlerts.secondary_back_up_level b)
          = true)
  /\ (forall a', In a' out -> alert_type a' = LACK_OF_DEPTH ->
                 alert_priority a' = MEDIUM)
  /\ ((n < 1)%nat ->
      PositionAlerts.starter_level b = of_Z 0
      /\ PositionAlerts.starter_potential b = of_Z 0)
  /\ ((n < 2)%nat ->
      PositionAlerts.back_up_level b = of_Z 0
      /\ PositionAlerts.back_up_potential b = of_Z 0)
  /\ ((n < 3)%nat ->
      PositionAlerts.secondary_back_up_level b = of_Z 0
      /\ PositionAlerts.secondary_back_up_potential b = of_Z 0)
  /\ (n = 2%nat -> In a out)
  /\ (forall r,
         In r df
         <-> In r (PositionAlerts._squad sample_positions)
             /\ (first_position (base r) = "LeftBack"
                 \/ second_position (base r) = "LeftBack"
                 \/ third_position (base r) = "LeftBack"))
  /\ (forall x, nth_error df 0 = Some x ->
                PositionAlerts.starter_level b = sciskill (base x)
                /\ PositionAlerts.starter_potential b = potential (base x)
                /\ forall r, In r df ->
                             not_after (PositionAlerts.starter_level b)
                               (sciskill (base r)))
  /\ (forall y, nth_error df 1 = Some y ->
                PositionAlerts.back_up_level b = sciskill (base y)
                /\ PositionAlerts.back_up_potential b = potential (base y)
                /\ not_after (PositionAlerts.starter_level b)
                     (PositionAlerts.back_up_level b))
  /\ (forall z, nth_error df 2 = Some z ->
                PositionAlerts.secondary_back_up_level b
                = sciskill (base z)
                /\ PositionAlerts.secondary_back_up_potential b
                   = potential (base z)
                /\ not_after (PositionAlerts.back_up_level b)
                     (PositionAlerts.secondary_back_up_level b))
  /\ (forall cell, PositionAlerts.is_zero cell = true
                   <-> exists q, cell = Fin q /\ (q == 0)%Q).
Proof.
  apply (C3_lack_of_depth_alert sample_positions "LeftBack").
  - reflexivity.
  - reflexivity.
  - simpl. tauto.
Defined.

Lemma C4_weak_spot_alerts_witness :
  let g := PositionAlerts._map_group "CentreForward" in
  let df := fst (PositionAlerts.set_alerts sample_positions) in
  let out :=
    PositionAlerts.alerts (snd (PositionAlerts.set_alerts sample_positions))
  in
  exists pos rl rp,
    In pos df
    /\ PositionAlerts.group (PositionAlerts.bench pos) = g
    /\ (forall pos', In pos' df ->
                     PositionAlerts.group (PositionAlerts.bench pos') = g ->
                     pos' = pos)
    /\ PositionAlerts.rank pos PositionAlerts.starter PositionAlerts.level
       = Some rl
    /\ PositionAlerts.rank pos PositionAlerts.starter
         PositionAlerts.potential_ = Some rp
    /\ 1 <= rl <= 10
    /\ 1 <= rp <= 10
    /\ PositionAlerts.col_max
         (rank_column PositionAlerts.starter PositionAlerts.level df)
       = Some 10
    /\ PositionAlerts.col_max
         (rank_column PositionAlerts.starter PositionAlerts.potential_ df)
       = Some 10
    /\ (In {| alert_type := weak_spot_type PositionAlerts.starter;
              position := g;
              alert_priority := weak_spot_priority PositionAlerts.starter;
              player := None |} out
        <-> rl > 10 - 3 /\ rp > 10 - 3)
    /\ (forall a, In a out ->
                  alert_type a = weak_spot_type PositionAlerts.starter ->
                  alert_priority a
                  = weak_spot_priority PositionAlerts.starter)
    /\ PositionAlerts.bench pos
       = PositionAlerts._set_position_benchmarks sample_positions g
    /\ (forall f r1 r2 a b,
           In r1 df -> In r2 df ->
           PositionAlerts.rank r1 PositionAlerts.starter f = Some a ->
           PositionAlerts.rank r2 PositionAlerts.starter f = Some b ->
           a < b ->
           not_after
             (PositionAlerts.value PositionAlerts.starter f
                (PositionAlerts.bench r1))
             (PositionAlerts.value PositionAlerts.starter f
                (PositionAlerts.bench r2)))
    /\ (forall f r1 r2,
           In r1 df -> In r2 df ->
           PositionAlerts.rank r1 PositionAlerts.starter f
           = PositionAlerts.rank r2 PositionAlerts.starter f ->
           r1 = r2).
Proof.
  apply (C4_weak_spot_alerts sample_positions "CentreForward"
           PositionAlerts.starter).
  - reflexivity.
  - reflexivity.
  - simpl. tauto.
Defined.

(** ** The transfer insights *)

Section TransferInsightsFacts.
Import SquadTransferInsights.

Lemma analyze_ok (self : t) (sample : list DataRow)
  (nation : DataRow -> option string) :
  filter (fun r => negb (d_is_loan r)) sample <> [] ->
  exists i,
    analyze self sample nation = Ok i
    /\ total_transfers i = Z.of_nat (List.length sample)
    /\ total_fee i
       = sum_int64 (map d_fee (filter (fun r => negb (d_is_loan r)) sample))
    /\ percentage_free i
       = (inject_Z
            (Z.of_nat
               (List.length
                  (filter (fun r => d_fee r =? 0)
                     (filter (fun r => negb (d_is_loan r)) sample))))
          / inject_Z
              (Z.of_nat
                 (List.length
                    (filter (fun r => negb (d_is_loan r)) sample))))%Q
    /\ market_shares i = shares (map nation sample).
Proof.
  intros Hne. unfold analyze, py_truediv, bind.
  destruct (filter (fun r => negb (d_is_loan r)) sample) as [|x rest] eqn:E;
    [now elim Hne|].
  assert ((Z.of_nat (List.length (x :: rest)) =? 0) = false) as ->
      by (apply Z.eqb_neq; simpl; lia).
  eexists. split; [reflexivity|]. repeat split.
Qed.

Lemma share_in_unit_interval (k n : nat) :
  (k <= n)%nat -> (0 < n)%nat ->
  (0 <= inject_Z (Z.of_nat k) / inject_Z (Z.of_nat n))%Q
  /\ (inject_Z (Z.of_nat k) / inject_Z (Z.of_nat n) <= 1)%Q.
Proof.
  intros Hk Hn.
  assert (0 < inject_Z (Z.of_nat n))%Q
    by (change 0%Q with (inject_Z 0); rewrite <- Zlt_Qlt; lia).
  assert (0 <= inject_Z (Z.of_nat k))%Q
    by (change 0%Q with (inject_Z 0); rewrite <- Zle_Qle; lia).
  assert (inject_Z (Z.of_nat k) <= inject_Z (Z.of_nat n))%Q
    by (rewrite <- Zle_Qle; lia).
  split.
  - apply Qle_shift_div_l; [assumption | lra].
  - apply Qle_shift_div_r; [assumption | lra].
Qed.

(** [analyze_inbound] raises ZeroDivisionError exactly when every inbound
    transfer of the frame is a loan (none at all included); otherwise it
    returns, the number of transfers being that of the inbound rows, the
    total fee the int64 sum over the inbound rows that are no loans (their
    sum, when that lies within the int64 range, and its residue modulo 2^64
    otherwise), and the share of free transfers a number between 0 and
    1. *)
Theorem inbound_insights_defined_iff :
  forall self : t,
    (analyze_inbound self = Raise ZeroDivisionError
     <-> forall r, In r (_data self) -> incoming r = true ->
                   d_is_loan r = true)
    /\ ((exists r, In r (_data self) /\ incoming r = true
                   /\ d_is_loan r = false) ->
        exists i,
          analyze_inbound self = Ok i
          /\ total_transfers i
             = Z.of_nat (List.length (filter incoming (_data self)))
          /\ total_fee i
             = wrap64 (sumZ (map d_fee
                               (filter (fun r => negb (d_is_loan r))
                                  (filter incoming (_data self)))))
          /\ (- 2 ^ 63
              <= sumZ (map d_fee
                         (filter (fun r => negb (d_is_loan r))
                            (filter incoming (_data self)))) < 2 ^ 63 ->
              total_fee i
              = sumZ (map d_fee
                        (filter (fun r => negb (d_is_loan r))
                           (filter incoming (_data self)))))
          /\ (0 <= percentage_free i)%Q
          /\ (percentage_free i <= 1)%Q).
Proof.
  intros self. unfold analyze_inbound.
  set (sample := filter incoming (_data self)).
  assert ((forall r, In r (_data self) -> incoming r = true ->
                     d_is_loan r = true)
          <-> filter (fun r => negb (d_is_loan r)) sample = []) as Hempty.
  { split.
    - intros H. apply filter_nil_when. intros r Hr. unfold sample in Hr.
      apply filter_In in Hr. destruct Hr as [Hr Hi].
      now rewrite (H r Hr Hi).
    - intros H r Hr Hi. destruct (d_is_loan r) eqn:E; [reflexivity|].
      assert (In r (filter (fun r => negb (d_is_loan r)) sample)) as Hin.
      { apply filter_In. split; [apply filter_In; now split|].
        now rewrite E. }
      rewrite H in Hin. contradiction. }
  split.
  - rewrite Hempty. split.
    + intros Hraise.
      destruct (filter (fun r => negb (d_is_loan r)) sample) eqn:E;
        [reflexivity|].
      destruct (analyze_ok self sample d_from_league_nation) as [i [Hi _]];
        [rewrite E; discriminate | congruence].
    + apply analyze_raises_without_fees.
  - intros [r [Hr [Hi Hl]]].
    assert (filter (fun r => negb (d_is_loan r)) sample <> []) as Hne.
    { intros H. pose proof (proj2 Hempty H r Hr Hi) as Hloan.
      rewrite Hloan in Hl. discriminate Hl. }
    destruct (analyze_ok self sample d_from_league_nation Hne)
      as [i [Hok [Ht [Hf [Hp _]]]]].
    exists i. split; [exact Hok|]. split; [exact Ht|]. split; [exact Hf|].
    split; [intros Hfit; rewrite Hf; now apply sum_int64_exact|].
    rewrite Hp. apply share_in_unit_interval.
    + rewrite filter_filter. apply filter_length_le.
      intros x Hx. apply andb_true_iff in Hx. tauto.
    + destruct (filter (fun r => negb (d_is_loan r)) sample);
        [now elim Hne | simpl; lia].
Qed.
End TransferInsightsFacts.

Lemma inbound_insights_defined_iff_witness :
  exists i,
    SquadTransferInsights.analyze_inbound sample_transfer_insights = Ok i
    /\ SquadTransferInsights.total_transfers i = 2
    /\ (0 <= SquadTransferInsights.percentage_free i)%Q
    /\ (SquadTransferInsights.percentage_free i <= 1)%Q.
Proof.
  destruct (inbound_insights_defined_iff sample_transfer_insights)
    as [_ H].
  destruct H as [i [Hok [Ht [_ [_ [H0 H1]]]]]].
  - eexists. split; [right; left; reflexivity|]. split; reflexivity.
  - exists i. split; [exact Hok|]. split; [|split; assumption].
    rewrite Ht. reflexivity.
Defined.

(** ** Counting the values of a column *)

Lemma sumZ_perm (l l' : list Z) : Permutation l l' -> sumZ l = sumZ l'.
Proof.
  induction 1 as [|x l l' _ IH|x y l|l l' l'' _ IH1 _ IH2]; simpl;
    unfold sumZ in *; simpl; lia.
Qed.

Lemma filter_perm {A} (f : A -> bool) (l l' : list A) :
  Permutation l l' -> Permutation (filter f l) (filter f l').
Proof.
  induction 1 as [|x l l' _ IH|x y l|l l' l'' _ IH1 _ IH2]; simpl.
  - constructor.
  - destruct (f x); [now constructor | exact IH].
  - destruct (f x), (f y); try apply Permutation_refl.
    apply perm_swap.
  - eapply perm_trans; eassumption.
Qed.

Lemma sumZ_map_add {A} (f g : A -> Z) (l : list A) :
  sumZ (map (fun x => f x + g x) l) = sumZ (map f l) + sumZ (map g l).
Proof.
  induction l as [|x l IH]; [reflexivity|].
  change (f x + g x + sumZ (map (fun x => f x + g x) l)
          = f x + sumZ (map f l) + (g x + sumZ (map g l))).
  lia.
Qed.

Lemma sumZ_zero {A} (f : A -> Z) (l : list A) :
  (forall x, In x l -> f x = 0) -> sumZ (map f l) = 0.
Proof.
  induction l as [|x l IH]; intros H; [reflexivity|].
  change (f x + sumZ (map f l) = 0).
  rewrite (H x (or_introl eq_refl)), IH; [reflexivity|].
  intros y Hy. apply H. now right.
Qed.

Lemma distinct_In (l : list string) (v : string) :
  In v (distinct l) <-> In v l.
Proof.
  induction l as [|x l IH]; simpl; [tauto|].
  rewrite filter_In, IH. split.
  - intros [H|[H _]]; auto.
  - intros [H|H]; [now left|].
    destruct (v =? x)%string eqn:E.
    + apply String.eqb_eq in E. left. now symmetry.
    + right. now split.
Qed.

Lemma distinct_NoDup (l : list string) : NoDup (distinct l).
Proof.
  induction l as [|x l IH]; simpl; constructor.
  - intros H. apply filter_In in H. destruct H as [_ H].
    now rewrite String.eqb_refl in H.
  - now apply NoDup_filter.
Qed.

Lemma present_Some {A} (l : list A) : present (map Some l) = l.
Proof.
  induction l as [|x l IH]; simpl; [reflexivity|]. now rewrite IH.
Qed.

Lemma indicator_absent (w : string) (D : list string) :
  ~ In w D ->
  sumZ (map (fun v => if (v =? w)%string then 1 else 0) D) = 0.
Proof.
  intros H. apply sumZ_zero. intros v Hv.
  destruct (v =? w)%string eqn:E; [|reflexivity].
  apply String.eqb_eq in E. subst v. contradiction.
Qed.

Lemma indicator_present (w : string) (D : list string) :
  NoDup D -> In w D ->
  sumZ (map (fun v => if (v =? w)%string then 1 else 0) D) = 1.
Proof.
  induction 1 as [|d D Hd _ IH]; intros Hin; [contradiction|].
  change ((if (d =? w)%string then 1 else 0)
          + sumZ (map (fun v => if (v =? w)%string then 1 else 0) D) = 1).
  destruct (d =? w)%string eqn:E.
  - apply String.eqb_eq in E. subst d.
    rewrite (indicator_absent w D Hd). reflexivity.
  - destruct Hin as [Hin|Hin]; [subst d; now rewrite String.eqb_refl in E|].
    rewrite (IH Hin). reflexivity.
Qed.

(** Every row is counted under exactly one of the distinct values. *)
Lemma counts_total (D ws : list string) :
  NoDup D -> (forall w, In w ws -> In w D) ->
  sumZ (map (fun v => count_where (String.eqb v) ws) D)
  = Z.of_nat (List.length ws).
Proof.
  intros HD. induction ws as [|w ws IH]; intros Hin.
  - apply sumZ_zero. reflexivity.
  - rewrite (map_ext _
               (fun v => (if (v =? w)%string then 1 else 0)
                         + count_where (String.eqb v) ws)).
    + rewrite sumZ_map_add, IH by (intros x Hx; apply Hin; now right).
      rewrite (indicator_present w D HD (Hin w (or_introl eq_refl))).
      simpl List.length. lia.
    + intros v. unfold count_where. simpl.
      destruct (v =? w)%string; simpl List.length; lia.
Qed.

Lemma count_where_nonneg {A} (p : A -> bool) (l : list A) :
  0 <= count_where p l.
Proof. unfold count_where. lia. Qed.

Lemma count_where_le {A} (p : A -> bool) (l : list A) :
  count_where p l <= Z.of_nat (List.length l).
Proof.
  unfold count_where.
  assert (List.length (filter p l) <= List.length l)%nat; [|lia].
  induction l as [|x l IH]; simpl; [lia|].
  destruct (p x); simpl; lia.
Qed.

Lemma count_where_pos (v : string) (l : list string) :
  In v l -> 0 < count_where (String.eqb v) l.
Proof.
  intros H. unfold count_where.
  assert (In v (filter (String.eqb v) l)) as Hin
      by (apply filter_In; split; [exact H | apply String.eqb_refl]).
  destruct (filter (String.eqb v) l); [contradiction | simpl; lia].
Qed.

Lemma count_where_absent (v : string) (l : list string) :
  ~ In v l -> count_where (String.eqb v) l = 0.
Proof.
  intros H. unfold count_where. rewrite filter_nil_when; [reflexivity|].
  intros x Hx. destruct (v =? x)%string eqn:E; [|reflexivity].
  apply String.eqb_eq in E. subst x. contradiction.
Qed.

Lemma value_counts_perm (cells : list (option string)) :
  Permutation (value_counts cells)
    (map (fun v => (v, count_where (String.eqb v) (present cells)))
       (distinct (present cells))).
Proof. unfold value_counts. apply sort_by_perm. Qed.

Lemma value_counts_In (cells : list (option string)) (v : string) (c : Z) :
  In (v, c) (value_counts cells)
  <-> In v (present cells)
      /\ c = count_where (String.eqb v) (present cells).
Proof.
  unfold value_counts. rewrite sort_by_In, in_map_iff. split.
  - intros [x [E Hx]]. apply (proj1 (distinct_In _ _)) in Hx.
    injection E as Ev Ec. subst x. split; [exact Hx | now symmetry].
  - intros [Hv ->]. exists v. split; [reflexivity|]. now apply distinct_In.
Qed.

Lemma value_counts_keys (cells : list (option string)) :
  Permutation (map fst (value_counts cells)) (distinct (present cells)).
Proof.
  eapply perm_trans; [apply Permutation_map, value_counts_perm|].
  rewrite map_map. simpl. rewrite map_id. apply Permutation_refl.
Qed.

Lemma value_counts_keys_NoDup (cells : list (option string)) :
  NoDup (map fst (value_counts cells)).
Proof.
  eapply Permutation_NoDup;
    [apply Permutation_sym, value_counts_keys | apply distinct_NoDup].
Qed.

Lemma value_counts_sorted (cells : list (option string)) :
  StronglySorted (fun a b => snd b <= snd a) (value_counts cells).
Proof.
  unfold value_counts.
  eapply StronglySorted_weaken; [|apply sort_by_sorted].
  - intros a b H. apply Z.ltb_ge in H. exact H.
  - intros x y H. apply Z.ltb_lt in H. apply Z.ltb_ge. lia.
  - intros x y z H. apply Z.ltb_lt in H.
    destruct (Z_lt_le_dec (snd y) (snd x)) as [L|L].
    + left. now apply Z.ltb_lt.
    + right. apply Z.ltb_lt. lia.
Qed.

(** ** Market shares *)

Lemma sumQ_shares (n : Z) (VC : list (string * Z)) :
  (sumQ (map snd
           (map (fun vc => (fst vc, inject_Z (snd vc) / inject_Z n)) VC))
   == inject_Z (sumZ (map snd VC)) / inject_Z n)%Q.
Proof.
  induction VC as [|x VC IH]; unfold sumQ, sumZ in *;
    cbn [map fold_right snd fst].
  - unfold Qdiv. rewrite Qmult_0_l. reflexivity.
  - rewrite IH, inject_Z_plus. unfold Qdiv. ring.
Qed.

Lemma share_positive (c n : Z) :
  0 < c -> c <= n ->
  (0 < inject_Z c / inject_Z n)%Q /\ (inject_Z c / inject_Z n <= 1)%Q.
Proof.
  intros Hc Hn.
  assert (0 < inject_Z n)%Q
    by (change 0%Q with (inject_Z 0); rewrite <- Zlt_Qlt; lia).
  assert (0 < inject_Z c)%Q
    by (change 0%Q with (inject_Z 0); rewrite <- Zlt_Qlt; lia).
  assert (inject_Z c <= inject_Z n)%Q by (rewrite <- Zle_Qle; lia).
  split.
  - apply Qlt_shift_div_l; [assumption | lra].
  - apply Qle_shift_div_r; [assumption | lra].
Qed.

Lemma shares_distribution (cells : list (option string)) :
  present cells <> [] ->
  is_distribution (SquadTransferInsights.shares cells) (present cells).
Proof.
  intros Hne. unfold is_distribution, SquadTransferInsights.shares.
  set (nations := present cells) in *.
  assert (0 < Z.of_nat (List.length nations)) as Hlen
      by (destruct nations; [now elim Hne | simpl; lia]).
  split; [|split; [|split]].
  - rewrite sumQ_shares.
    rewrite (sumZ_perm _ _ (Permutation_map snd (value_counts_perm cells))).
    rewrite map_map. cbn [snd]. fold nations.
    rewrite counts_total;
      [|apply distinct_NoDup | intros w Hw; now apply distinct_In].
    unfold Qdiv. apply Qmult_inv_r.
    change 0%Q with (inject_Z 0). rewrite inject_Z_injective. lia.
  - rewrite map_map. cbn [fst]. apply value_counts_keys_NoDup.
  - intros n. rewrite map_map. cbn [fst].
    pose proof (value_counts_keys cells) as Hk. fold nations in Hk.
    rewrite <- (distinct_In nations n).
    split; apply Permutation_in;
      [exact Hk | apply Permutation_sym, Hk].
  - intros n s Hin. apply in_map_iff in Hin.
    destruct Hin as [[v c] [E Hin]]. cbn [fst snd] in E.
    injection E as _ <-.
    apply value_counts_In in Hin. fold nations in Hin.
    destruct Hin as [Hv ->].
    apply share_positive;
      [now apply count_where_pos | apply count_where_le].
Qed.

Lemma shares_of_nulls (cells : list (option string)) :
  present cells = [] -> SquadTransferInsights.shares cells = [].
Proof.
  intros H. unfold SquadTransferInsights.shares, value_counts.
  rewrite H. reflexivity.
Qed.

Lemma analyze_shares (self : SquadTransferInsights.t)
  (sample : list SquadTransferInsights.DataRow)
  (nation : SquadTransferInsights.DataRow -> option string)
  (i : SquadTransferInsights.Insights) :
  SquadTransferInsights.analyze self sample nation = Ok i ->
  sample <> []
  /\ SquadTransferInsights.market_shares i
     = SquadTransferInsights.shares (map nation sample)
  /\ SquadTransferInsights.total_transfers i
     = Z.of_nat (List.length sample)
  /\ SquadTransferInsights.total_fee i
     = sum_int64 (map SquadTransferInsights.d_fee
                    (filter
                       (fun r => negb (SquadTransferInsights.d_is_loan r))
                       sample)).
Proof.
  unfold SquadTransferInsights.analyze, py_truediv, bind. intros H.
  destruct (Z.of_nat
              (List.length
                 (filter (fun r => negb (SquadTransferInsights.d_is_loan r))
                    sample)) =? 0) eqn:E; [discriminate H|].
  split.
  - intros ->. discriminate E.
  - injection H as <-. repeat split.
Qed.

(** The market shares [analyze_inbound] and [analyze_outbound] return are
    taken over the league nations on the other side of the sampled
    transfers, the sampled transfers without a nation left out.  When one
    of them has a nation, the shares are a distribution: every nation of
    the sample is a key, once, with a share in (0, 1], and the shares add
    up to 1 (in exact arithmetic).  When none has, there are no shares at
    all. *)
Theorem market_shares_are_distributions :
  forall self : SquadTransferInsights.t,
    (forall i,
        SquadTransferInsights.analyze_inbound self = Ok i ->
        let nations :=
          present
            (map SquadTransferInsights.d_from_league_nation
               (filter SquadTransferInsights.incoming
                  (SquadTransferInsights._data self))) in
        (nations <> [] ->
         is_distribution (SquadTransferInsights.market_shares i) nations)
        /\ (nations = [] -> SquadTransferInsights.market_shares i = []))
    /\ (forall o,
           SquadTransferInsights.analyze_outbound self = Ok o ->
           let nations :=
             present
               (map SquadTransferInsights.d_to_league_nation
                  (filter
                     (fun r => negb (SquadTransferInsights.incoming r))
                     (SquadTransferInsights._data self))) in
           (nations <> [] ->
            is_distribution (SquadTransferInsights.market_shares o) nations)
           /\ (nations = [] ->
               SquadTransferInsights.market_shares o = [])).
Proof.
  intros self. split; intros i Hi nations;
    apply analyze_shares in Hi; destruct Hi as [_ [-> _]]; split;
    intros H; [now apply shares_distribution | now apply shares_of_nulls
              | now apply shares_distribution | now apply shares_of_nulls].
Qed.

Lemma market_shares_are_distributions_witness :
  exists i,
    SquadTransferInsights.analyze_inbound sample_transfer_insights = Ok i
    /\ is_distribution (SquadTransferInsights.market_shares i)
         (present
            (map SquadTransferInsights.d_from_league_nation
               (filter SquadTransferInsights.incoming
                  (SquadTransferInsights._data sample_transfer_insights)))).
Proof.
  eexists. split; [vm_compute; reflexivity|].
  apply (proj1 (market_shares_are_distributions sample_transfer_insights)).
  - vm_compute. reflexivity.
  - vm_compute. discriminate.
Defined.

(** ** Transfers counted by the insights *)

Lemma transfer_init_data (team : SciSportsTeam)
  (self : SquadTransferInsights.t) :
  SquadTransferInsights.__init__ team = Ok self ->
  transfers team <> []
  /\ exists f,
      (forall x,
          SquadTransferInsights.d_fee (f x) = fillna 0 (fee x)
          /\ SquadTransferInsights.d_is_loan (f x)
             = fillna false (is_loan x)
          /\ SquadTransferInsights.incoming (f x)
             = (to_team_id x =? team_id team))
      /\ SquadTransferInsights._data self
         = map f (sort_by later (filter kept_transfer (transfers team))).
Proof.
  unfold SquadTransferInsights.__init__, SquadTransferInsights._preprocess,
    bind, getitem, has_column, from_records. intros H.
  destruct (transfers team) as [|x rest] eqn:E; [discriminate H|].
  split; [discriminate|].
  cbn [columns records] in H. simpl existsb in H. cbv iota in H.
  injection H as <-. eexists. split; [|reflexivity].
  intros y. repeat split.
Qed.

Lemma filter_split_length {A} (p q : A -> bool) (l : list A) :
  (List.length (filter (fun x => p x && q x) l)
   + List.length (filter (fun x => p x && negb (q x)) l)
   = List.length (filter p l))%nat.
Proof.
  induction l as [|x l IH]; simpl; [reflexivity|].
  destruct (p x), (q x); simpl; lia.
Qed.

(** On a team whose insights object is built, the inbound (outbound)
    aggregate counts the transfers of the history that are no loan returns
    and go to (do not go to) the club, whatever their order, and its total
    fee is the int64 sum of the fees, a missing fee as 0, of those among
    them that are no loans: the sum modulo 2^64, which is the sum itself
    when that lies within the int64 range.  When both aggregates come out,
    their numbers of transfers add up to the number of transfers that are
    no loan returns. *)
Theorem transfer_aggregates_partition_the_history :
  forall team self,
    SquadTransferInsights.__init__ team = Ok self ->
    (forall i,
        SquadTransferInsights.analyze_inbound self = Ok i ->
        SquadTransferInsights.total_transfers i
        = count_where (inbound_transfer team) (transfers team)
        /\ SquadTransferInsights.total_fee i
           = wrap64 (sumZ (map (fun x => fillna 0 (fee x))
                             (filter (fun x => inbound_transfer team x
                                               && permanent x)
                                (transfers team))))
        /\ (- 2 ^ 63
            <= sumZ (map (fun x => fillna 0 (fee x))
                       (filter (fun x => inbound_transfer team x
                                         && permanent x)
                          (transfers team))) < 2 ^ 63 ->
            SquadTransferInsights.total_fee i
            = sumZ (map (fun x => fillna 0 (fee x))
                      (filter (fun x => inbound_transfer team x
                                        && permanent x)
                         (transfers team)))))
    /\ (forall o,
           SquadTransferInsights.analyze_outbound self = Ok o ->
           SquadTransferInsights.total_transfers o
           = count_where (outbound_transfer team) (transfers team)
           /\ SquadTransferInsights.total_fee o
              = wrap64 (sumZ (map (fun x => fillna 0 (fee x))
                                (filter (fun x => outbound_transfer team x
                                                  && permanent x)
                                   (transfers team))))
           /\ (- 2 ^ 63
               <= sumZ (map (fun x => fillna 0 (fee x))
                          (filter (fun x => outbound_transfer team x
                                            && permanent x)
                             (transfers team))) < 2 ^ 63 ->
               SquadTransferInsights.total_fee o
               = sumZ (map (fun x => fillna 0 (fee x))
                         (filter (fun x => outbound_transfer team x
                                           && permanent x)
                            (transfers team)))))
    /\ (forall i o,
           SquadTransferInsights.analyze_inbound self = Ok i ->
           SquadTransferInsights.analyze_outbound self = Ok o ->
           SquadTransferInsights.total_transfers i
           + SquadTransferInsights.total_transfers o
           = count_where kept_transfer (transfers team)).
Proof.
  intros team self Hinit.
  destruct (transfer_init_data team self Hinit)
    as [_ [f [Hf Hdata]]].
  assert (forall (side : Transfer -> bool)
                 (sample : list SquadTransferInsights.DataRow)
                 nation i,
             sample
             = map f (filter side
                        (sort_by later
                           (filter kept_transfer (transfers team)))) ->
             SquadTransferInsights.analyze self sample nation = Ok i ->
             SquadTransferInsights.total_transfers i
             = count_where (fun x => kept_transfer x && side x)
                 (transfers team)
             /\ SquadTransferInsights.total_fee i
                = wrap64 (sumZ (map (fun x => fillna 0 (fee x))
                                  (filter (fun x => kept_transfer x && side x
                                                    && permanent x)
                                     (transfers team))))
             /\ (- 2 ^ 63
                 <= sumZ (map (fun x => fillna 0 (fee x))
                            (filter (fun x => kept_transfer x && side x
                                              && permanent x)
                               (transfers team))) < 2 ^ 63 ->
                 SquadTransferInsights.total_fee i
                 = sumZ (map (fun x => fillna 0 (fee x))
                           (filter (fun x => kept_transfer x && side x
                                             && permanent x)
                              (transfers team)))))
    as Hside.
  { intros side sample nation i -> Hi.
    apply analyze_shares in Hi. destruct Hi as [_ [_ [-> ->]]].
    split.
    - rewrite length_map. unfold count_where. f_equal.
      rewrite (filter_length_perm side _ _
                 (sort_by_perm _ later
                    (filter kept_transfer (transfers team)))).
      now rewrite filter_filter.
    - assert (sum_int64
                (map SquadTransferInsights.d_fee
                   (filter
                      (fun r => negb (SquadTransferInsights.d_is_loan r))
                      (map f
                         (filter side
                            (sort_by later
                               (filter kept_transfer (transfers team)))))))
              = wrap64
                  (sumZ (map (fun x => fillna 0 (fee x))
                           (filter (fun x => kept_transfer x && side x
                                             && permanent x)
                              (transfers team))))) as Hfee.
      { rewrite filter_map_swap, map_map.
        rewrite (map_ext _ (fun x => fillna 0 (fee x)))
          by (intros x; apply (Hf x)).
        rewrite (filter_ext _ permanent)
          by (intros x; unfold permanent;
              now rewrite (proj1 (proj2 (Hf x)))).
        unfold sum_int64. f_equal.
        apply sumZ_perm, Permutation_map.
        rewrite <- !filter_filter.
        apply filter_perm, filter_perm, sort_by_perm. }
      split; [exact Hfee|].
      intros Hfit. rewrite Hfee. now apply wrap64_small. }
  assert (SquadTransferInsights.analyze_inbound self
          = SquadTransferInsights.analyze self
              (map f (filter (fun x => to_team_id x =? team_id team)
                        (sort_by later
                           (filter kept_transfer (transfers team)))))
              SquadTransferInsights.d_from_league_nation) as Hin.
  { unfold SquadTransferInsights.analyze_inbound.
    rewrite Hdata, filter_map_swap. f_equal. f_equal.
    apply filter_ext. intros x. apply (Hf x). }
  assert (SquadTransferInsights.analyze_outbound self
          = SquadTransferInsights.analyze self
              (map f (filter (fun x => negb (to_team_id x =? team_id team))
                        (sort_by later
                           (filter kept_transfer (transfers team)))))
              SquadTransferInsights.d_to_league_nation) as Hout.
  { unfold SquadTransferInsights.analyze_outbound.
    rewrite Hdata, filter_map_swap. f_equal. f_equal.
    apply filter_ext. intros x. now rewrite (proj2 (proj2 (Hf x))). }
  split; [|split].
  - intros i Hi. rewrite Hin in Hi.
    apply (Hside _ _ _ _ eq_refl Hi).
  - intros o Ho. rewrite Hout in Ho.
    apply (Hside _ _ _ _ eq_refl Ho).
  - intros i o Hi Ho. rewrite Hin in Hi. rewrite Hout in Ho.
    destruct (Hside _ _ _ _ eq_refl Hi) as [-> _].
    destruct (Hside _ _ _ _ eq_refl Ho) as [-> _].
    unfold count_where. rewrite <- Nat2Z.inj_add. f_equal.
    apply filter_split_length.
Qed.

Lemma transfer_aggregates_partition_the_history_witness :
  exists i o,
    SquadTransferInsights.analyze_inbound sample_transfer_insights = Ok i
    /\ SquadTransferInsights.analyze_outbound sample_transfer_insights
       = Ok o
    /\ SquadTransferInsights.total_transfers i
       + SquadTransferInsights.total_transfers o
       = count_where kept_transfer (transfers sample_team_transfers).
Proof.
  eexists. eexists.
  split; [vm_compute; reflexivity|]. split; [vm_compute; reflexivity|].
  apply (proj2 (proj2 (transfer_aggregates_partition_the_history
                         sample_team_transfers sample_transfer_insights
                         eq_refl))).
  - vm_compute. reflexivity.
  - vm_compute. reflexivity.
Defined.

(** ** Formations *)

Lemma present_nil_iff {A} (cells : list (option A)) :
  present cells = [] <-> forall c, In c cells -> c = None.
Proof.
  induction cells as [|c cells IH]; simpl.
  - split; [contradiction | reflexivity].
  - destruct c as [v|]; simpl.
    + split; [discriminate|]. intros H.
      discriminate (H (Some v) (or_introl eq_refl)).
    + rewrite IH. split.
      * intros H c [<-|Hc]; [reflexivity | now apply H].
      * intros H c Hc. apply H. now right.
Qed.

Lemma value_counts_count (cells : list (option string)) (x : string * Z) :
  In x (value_counts cells) ->
  In (fst x) (present cells)
  /\ snd x = count_where (String.eqb (fst x)) (present cells).
Proof.
  destruct x as [v c]. intros H. now apply value_counts_In.
Qed.

Lemma value_counts_nil (cells : list (option string)) :
  value_counts cells = [] <-> present cells = [].
Proof.
  split; intros H.
  - destruct (present cells) as [|v rest] eqn:E; [reflexivity|].
    assert (In (v, count_where (String.eqb v) (present cells))
              (value_counts cells)) as Hin
        by (apply value_counts_In; rewrite E; split;
            [now left | reflexivity]).
    rewrite H in Hin. contradiction.
  - unfold value_counts. rewrite H. reflexivity.
Qed.

(** [get_team_formations] raises IndexError exactly when no match row has
    a formation.  Otherwise it returns two formations the team fielded: the
    first is fielded at least as often as any formation, the second at
    least as often as any formation other than the first, and the two are
    the same exactly when the team fielded one formation only. *)
Theorem formations_are_the_most_used :
  forall self : SquadPerformanceInsights.t,
    (SquadPerformanceInsights.get_team_formations self = Raise IndexError
     <-> forall r, In r (SquadPerformanceInsights._matches self) ->
                   formation (SquadPerformanceInsights.attrs r) = None)
    /\ ((exists r f, In r (SquadPerformanceInsights._matches self)
                     /\ formation (SquadPerformanceInsights.attrs r)
                        = Some f) ->
        exists f1 f2,
          SquadPerformanceInsights.get_team_formations self = Ok (f1, f2)
          /\ In f1 (fielded self) /\ In f2 (fielded self)
          /\ (forall g, count_where (String.eqb g) (fielded self)
                        <= count_where (String.eqb f1) (fielded self))
          /\ (forall g, g <> f1 ->
                        count_where (String.eqb g) (fielded self)
                        <= count_where (String.eqb f2) (fielded self))
          /\ (f1 = f2 <-> forall g, In g (fielded self) -> g = f1)).
Proof.
  intros self.
  set (cells := map (fun r => formation (SquadPerformanceInsights.attrs r))
                  (SquadPerformanceInsights._matches self)).
  assert ((forall r, In r (SquadPerformanceInsights._matches self) ->
                     formation (SquadPerformanceInsights.attrs r) = None)
          <-> value_counts cells = []) as Hnone.
  { rewrite value_counts_nil, present_nil_iff. unfold cells. split.
    - intros H c Hc. apply in_map_iff in Hc.
      destruct Hc as [r [<- Hr]]. now apply H.
    - intros H r Hr. apply H. apply in_map_iff. now exists r. }
  pose proof (value_counts_sorted cells) as Hsorted.
  pose proof (value_counts_keys_NoDup cells) as Hnodup.
  pose proof (value_counts_count cells) as Hcount.
  pose proof (fun v c => proj2 (value_counts_In cells v c)) as Hmem.
  unfold SquadPerformanceInsights.get_team_formations, fielded.
  fold cells.
  assert (forall g x, In x (value_counts cells) ->
                      (forall y, In y (value_counts cells) ->
                                 fst y = g -> snd y <= snd x) ->
                      count_where (String.eqb g) (present cells) <= snd x)
    as Hbound.
  { intros g x Hx Hle.
    destruct (in_dec string_dec g (present cells)) as [Hg|Hg].
    - apply (Hle (g, count_where (String.eqb g) (present cells)));
        [now apply Hmem | reflexivity].
    - rewrite (count_where_absent g _ Hg).
      rewrite (proj2 (Hcount x Hx)). apply count_where_nonneg. }
  destruct (value_counts cells) as [|x [|y rest]] eqn:E.
  - split; [rewrite Hnone; tauto|].
    intros [r [f [Hr Hf]]].
    rewrite (proj2 Hnone eq_refl r Hr) in Hf. discriminate Hf.
  - split.
    { rewrite Hnone. split; discriminate. }
    intros _. exists (fst x), (fst x).
    destruct (Hcount x (or_introl eq_refl)) as [Hx Hcx].
    assert (forall g, In g (present cells) -> g = fst x) as Hall.
    { intros g Hg.
      destruct (Hmem g _ (conj Hg eq_refl)) as [Hgx|[]].
      rewrite Hgx. reflexivity. }
    split; [reflexivity|]. split; [exact Hx|]. split; [exact Hx|].
    rewrite <- Hcx. split; [|split].
    + intros g. apply Hbound; [now left|].
      intros z [<-|[]] _. lia.
    + intros g Hg.
      rewrite count_where_absent; [rewrite Hcx; apply count_where_nonneg|].
      intros Hin. apply Hg. now apply Hall.
    + split; [intros _; exact Hall | reflexivity].
  - split.
    { rewrite Hnone. split; discriminate. }
    intros _. exists (fst x), (fst y).
    destruct (Hcount x (or_introl eq_refl)) as [Hx Hcx].
    destruct (Hcount y (or_intror (or_introl eq_refl))) as [Hy Hcy].
    inversion Hsorted as [|? ? Hs1 Hf1]; subst.
    inversion Hs1 as [|? ? _ Hf2]; subst.
    rewrite Forall_forall in Hf1, Hf2.
    simpl in Hnodup. inversion Hnodup as [|? ? Hfresh _]; subst.
    split; [reflexivity|]. split; [exact Hx|]. split; [exact Hy|].
    rewrite <- Hcx, <- Hcy. split; [|split].
    + intros g. apply Hbound; [now left|].
      intros z [<-|Hz] _; [lia | now apply Hf1].
    + intros g Hg. apply Hbound; [right; now left|].
      intros z [<-|[<-|Hz]] Ez; [now elim Hg | lia | now apply Hf2].
    + split.
      * intros Heq. elim Hfresh. left. now symmetry.
      * intros Hall. symmetry. now apply Hall.
Qed.

Lemma formations_are_the_most_used_witness :
  exists f1 f2,
    SquadPerformanceInsights.get_team_formations sample_performance
    = Ok (f1, f2)
    /\ In f1 (fielded sample_performance)
    /\ (f1 = f2 <-> forall g, In g (fielded sample_performance) -> g = f1).
Proof.
  destruct (proj2 (formations_are_the_most_used sample_performance))
    as [f1 [f2 [Hok [H1 [_ [_ [_ Heq]]]]]]].
  - eexists. eexists. split; [left; reflexivity | reflexivity].
  - exists f1, f2. split; [exact Hok|]. split; [exact H1 | exact Heq].
Defined.

(** ** Points *)

Lemma points_of_cases (m : MatchTeamAttributes) :
  (goals_scored m > goals_conceded m
   /\ SquadPerformanceInsights.points_of m = Some 3)
  \/ (goals_scored m = goals_conceded m
      /\ SquadPerformanceInsights.points_of m = Some 1)
  \/ (goals_scored m < goals_conceded m
      /\ SquadPerformanceInsights.points_of m = Some 0).
Proof.
  unfold SquadPerformanceInsights.points_of, SquadPerformanceInsights.assign.
  destruct (Z.ltb_spec (goals_scored m) (goals_conceded m));
    [right; right; split; [lia | reflexivity]|].
  destruct (Z.eqb_spec (goals_scored m) (goals_conceded m));
    [right; left; split; [lia | reflexivity]|].
  destruct (Z.gtb_spec (goals_scored m) (goals_conceded m));
    [left; split; [lia | reflexivity] | lia].
Qed.

(** On any frame of matches, [_preprocess_matches] gives every row 3, 1 or
    0 points as the team scored more than, as many as or fewer goals than
    it conceded; the insights then count each match as won, drawn or lost,
    exactly one of the three, and the total of the points is three times
    the matches won plus the matches drawn. *)
Theorem points_follow_the_score :
  forall (df : DataFrame MatchTeamAttributes) rows,
    SquadPerformanceInsights._preprocess_matches df = Ok rows ->
    (forall r, In r rows ->
        (SquadPerformanceInsights.points r = Some 3
         <-> goals_scored (SquadPerformanceInsights.attrs r)
             > goals_conceded (SquadPerformanceInsights.attrs r))
        /\ (SquadPerformanceInsights.points r = Some 1
            <-> goals_scored (SquadPerformanceInsights.attrs r)
                = goals_conceded (SquadPerformanceInsights.attrs r))
        /\ (SquadPerformanceInsights.points r = Some 0
            <-> goals_scored (SquadPerformanceInsights.attrs r)
                < goals_conceded (SquadPerformanceInsights.attrs r)))
    /\ forall self i,
         SquadPerformanceInsights._matches self = rows ->
         SquadPerformanceInsights.get_team_performance_insights self
         = Ok i ->
         SquadPerformanceInsights.matches_won i
         + SquadPerformanceInsights.matches_drawn i
         + SquadPerformanceInsights.matches_lost i
         = Z.of_nat (List.length (records df))
         /\ SquadPerformanceInsights.total_points i
            = 3 * SquadPerformanceInsights.matches_won i
              + SquadPerformanceInsights.matches_drawn i.
Proof.
  intros df rows Hpre.
  unfold SquadPerformanceInsights._preprocess_matches, bind in Hpre.
  destruct (getitem df "goals_scored"); [|discriminate Hpre].
  injection Hpre as <-. split.
  - intros r Hr. apply in_map_iff in Hr. destruct Hr as [m [<- _]].
    cbn [SquadPerformanceInsights.points SquadPerformanceInsights.attrs].
    destruct (points_of_cases m) as [[Hs ->]|[[Hs ->]|[Hs ->]]];
      repeat split; intros H; try discriminate H; try reflexivity; lia.
  - intros self i Hm Hi.
    unfold SquadPerformanceInsights.get_team_performance_insights, bind
      in Hi.
    destruct (SquadPerformanceInsights.get_team_formations self);
      [|discriminate Hi].
    injection Hi as <-.
    cbn [SquadPerformanceInsights.matches_won
           SquadPerformanceInsights.matches_drawn
           SquadPerformanceInsights.matches_lost
           SquadPerformanceInsights.total_points].
    rewrite Hm. unfold count_where. clear Hm.
    induction (records df) as [|m l IH]; [split; reflexivity|].
    destruct IH as [IH1 IH2]. cbn [map].
    set (rows := map (fun m => {| SquadPerformanceInsights.attrs := m;
                                  SquadPerformanceInsights.points :=
                                    SquadPerformanceInsights.points_of m |})
                   l) in *.
    set (won := List.length
                  (filter (SquadPerformanceInsights.has_points 3) rows))
      in *.
    set (drawn := List.length
                    (filter (SquadPerformanceInsights.has_points 1) rows))
      in *.
    set (lost := List.length
                   (filter (SquadPerformanceInsights.has_points 0) rows))
      in *.
    set (total := sumZ (present (map SquadPerformanceInsights.points rows)))
      in *.
    destruct (points_of_cases m) as [[_ ->]|[[_ ->]|[_ ->]]];
      cbn [filter SquadPerformanceInsights.has_points
             SquadPerformanceInsights.points Z.eqb Pos.eqb List.length
             map present flat_map app];
      fold won; fold drawn; fold lost;
      change (sumZ (?a :: flat_map _ (map SquadPerformanceInsights.points rows)))
        with (a + total);
      split; lia.
Qed.

Lemma points_follow_the_score_witness :
  exists i,
    SquadPerformanceInsights.get_team_performance_insights
      sample_performance = Ok i
    /\ SquadPerformanceInsights.total_points i
       = 3 * SquadPerformanceInsights.matches_won i
         + SquadPerformanceInsights.matches_drawn i.
Proof.
  eexists. split; [vm_compute; reflexivity|].
  refine (proj2 (proj2 (points_follow_the_score
                          (from_records mta_columns
                             (match_team_attributes sample_team))
                          (SquadPerformanceInsights._matches
                             sample_performance)
                          eq_refl)
                   sample_performance _ eq_refl _)).
  vm_compute. reflexivity.
Defined.

(** ** The teams of a season *)

Section TeamsInSeason.
Import SeasonTeamInsights.

Lemma append_new_spec (teams : list Z) (team_id : Z) :
  NoDup teams ->
  NoDup (append_new teams team_id)
  /\ (forall x, In x (append_new teams team_id)
                <-> In x teams \/ x = team_id)
  /\ exists more, append_new teams team_id = teams ++ more.
Proof.
  intros Hnd. unfold append_new.
  destruct (existsb (Z.eqb team_id) teams) eqn:E.
  - split; [exact Hnd|]. split.
    + intros x. split; [now left|]. intros [H|Hx]; [exact H | subst x].
      apply existsb_exists in E. destruct E as [y [Hy Ey]].
      apply Z.eqb_eq in Ey. now subst y.
    + exists []. now rewrite app_nil_r.
  - assert (~ In team_id teams) as Hfresh.
    { intros Hin.
      assert (existsb (Z.eqb team_id) teams = true) as Ht
          by (apply existsb_exists; exists team_id; split;
              [exact Hin | apply Z.eqb_refl]).
      congruence. }
    split; [|split].
    + apply NoDup_app; [exact Hnd | constructor; [intros [] | constructor]|].
      intros x Hx [Ex|Ex]; [subst x; contradiction | contradiction].
    + intros x. rewrite in_app_iff. simpl. intuition.
    + now exists [team_id].
Qed.

Lemma teams_fold (fixtures : list SciSportsMatch) (acc : list Z) :
  NoDup acc ->
  let teams :=
    fold_left
      (fun teams fixture =>
         append_new (append_new teams (home_team_id fixture))
           (away_team_id fixture))
      fixtures acc in
  NoDup teams
  /\ (forall x, In x teams
                <-> In x acc
                    \/ exists fixture,
                        In fixture fixtures
                        /\ (home_team_id fixture = x
                            \/ away_team_id fixture = x))
  /\ exists more, teams = acc ++ more.
Proof.
  revert acc. induction fixtures as [|f fixtures IH]; intros acc Hnd; simpl.
  - split; [exact Hnd|]. split.
    + intros x. split; [now left|]. intros [H|[? [[] _]]]. exact H.
    + exists []. now rewrite app_nil_r.
  - destruct (append_new_spec acc (home_team_id f) Hnd)
      as [Hnd1 [Hin1 [m1 Hm1]]].
    destruct (append_new_spec _ (away_team_id f) Hnd1)
      as [Hnd2 [Hin2 [m2 Hm2]]].
    destruct (IH _ Hnd2) as [Hnd3 [Hin3 [m3 Hm3]]].
    split; [exact Hnd3|]. split.
    + intros x. rewrite Hin3, Hin2, Hin1. split.
      * intros [[[H|H]|H]|[fx [Hfx H]]].
        -- now left.
        -- right. exists f. split; [now left | left; now symmetry].
        -- right. exists f. split; [now left | right; now symmetry].
        -- right. exists fx. split; [now right | exact H].
      * intros [H|[fx [[E|Hfx] H]]].
        -- left. left. now left.
        -- subst fx.
           destruct H as [H|H]; [left; left; right | left; right];
             now symmetry.
        -- right. now exists fx.
    + exists (m1 ++ m2 ++ m3). rewrite Hm3, Hm2, Hm1.
      now rewrite <- !app_assoc.
Qed.

(** [_get_teams_in_season] lists every club that is home or away in a
    fixture of the season, each once, and no other id; fixtures that come
    later only add to the end of the list. *)
Theorem teams_in_season_once :
  forall fixtures : list SciSportsMatch,
    NoDup (_get_teams_in_season fixtures)
    /\ (forall team_id,
           In team_id (_get_teams_in_season fixtures)
           <-> exists fixture,
                 In fixture fixtures
                 /\ (home_team_id fixture = team_id
                     \/ away_team_id fixture = team_id))
    /\ (forall later_fixtures,
           exists more,
             _get_teams_in_season (fixtures ++ later_fixtures)
             = _get_teams_in_season fixtures ++ more).
Proof.
  intros fixtures.
  destruct (teams_fold fixtures [] (NoDup_nil Z)) as [Hnd [Hin _]].
  split; [exact Hnd|]. split.
  - intros x. unfold _get_teams_in_season. rewrite Hin.
    split; [intros [[]|H]; exact H | now right].
  - intros later_fixtures. unfold _get_teams_in_season.
    rewrite fold_left_app.
    destruct (teams_fold later_fixtures _ Hnd) as [_ [_ Hmore]].
    exact Hmore.
Qed.
End TeamsInSeason.

(** ** The scouting planner *)

Lemma keys_determine_shares {A B} (l : list (A * B)) (k : A) (v v' : B) :
  NoDup (map fst l) -> In (k, v) l -> In (k, v') l -> v = v'.
Proof.
  induction l as [|[a b] l IH]; simpl; intros Hnd H1 H2; [contradiction|].
  inversion Hnd as [|? ? Hfresh Hnd']; subst.
  destruct H1 as [E1|H1], H2 as [E2|H2].
  - congruence.
  - injection E1 as -> ->. elim Hfresh.
    apply in_map_iff. now exists (k, v').
  - injection E2 as -> ->. elim Hfresh.
    apply in_map_iff. now exists (k, v).
  - now apply IH.
Qed.

Lemma StronglySorted_app_cross {A} (S : A -> A -> Prop) (l1 l2 : list A) :
  StronglySorted S (l1 ++ l2) ->
  forall a b, In a l1 -> In b l2 -> S a b.
Proof.
  induction l1 as [|x l1 IH]; simpl; intros Hs a b Ha Hb; [contradiction|].
  inversion Hs as [|? ? Hs' Hf]; subst.
  destruct Ha as [<-|Ha].
  - rewrite Forall_forall in Hf. apply Hf, in_or_app. now right.
  - now apply IH.
Qed.

Lemma present_In {A} (cells : list (option A)) (v : A) :
  In v (present cells) <-> In (Some v) cells.
Proof.
  unfold present. rewrite in_flat_map. split.
  - intros [c [Hc Hv]]. destruct c as [w|]; [|contradiction].
    destruct Hv as [<-|[]]. exact Hc.
  - intros H. exists (Some v). split; [exact H | now left].
Qed.

Lemma shares_keys (cells : list (option string)) :
  NoDup (map fst (SquadTransferInsights.shares cells))
  /\ forall n, In n (map fst (SquadTransferInsights.shares cells))
               <-> In (Some n) cells.
Proof.
  unfold SquadTransferInsights.shares. rewrite map_map. cbn [fst].
  split; [apply value_counts_keys_NoDup|].
  intros n. rewrite <- present_In, <- (distinct_In (present cells) n).
  pose proof (value_counts_keys cells) as Hk.
  split; apply Permutation_in; [exact Hk | apply Permutation_sym, Hk].
Qed.

Lemma shares_sorted (nations : list (option string)) :
  StronglySorted (fun a b => (snd b <= snd a)%Q)
    (SquadTransferInsights.shares nations).
Proof.
  unfold SquadTransferInsights.shares. apply StronglySorted_map.
  eapply StronglySorted_weaken; [|apply value_counts_sorted].
  intros x y H. cbn [snd].
  destruct (Z.eq_dec (Z.of_nat (List.length (present nations))) 0)
    as [E|E].
  - rewrite E. unfold Qdiv, Qinv. simpl. rewrite !Qmult_0_r. apply Qle_refl.
  - unfold Qdiv. apply Qmult_le_compat_r; [now rewrite <- Zle_Qle|].
    apply Qinv_le_0_compat. change 0%Q with (inject_Z 0).
    rewrite <- Zle_Qle. lia.
Qed.

(** The planner searches the leagues of at most ten nations: the first ten
    keys of the inbound market shares, whichever branch is taken.  They are
    distinct nations the club bought or loaned from, and no nation left out
    has a bigger share of the inbound transfers than one that is
    selected.  (The cell of a nation is null for a league without one, so
    the nation [n] of a row stands in it as [Some n].) *)
Theorem scouting_markets_are_the_biggest :
  forall (self : SquadTransferInsights.t) i,
    SquadTransferInsights.analyze_inbound self = Ok i ->
    let shares := SquadTransferInsights.market_shares i in
    let selection := ScoutingPlanner.league_selection shares in
    selection = firstn 10 (map fst shares)
    /\ (List.length selection <= 10)%nat
    /\ NoDup selection
    /\ (forall n, In n selection ->
           exists r, In r (SquadTransferInsights._data self)
                     /\ SquadTransferInsights.incoming r = true
                     /\ SquadTransferInsights.d_from_league_nation r
                        = Some n)
    /\ (forall n s m t,
           In (n, s) shares -> In (m, t) shares ->
           In n selection -> ~ In m selection -> (t <= s)%Q).
Proof.
  intros self i Hi shares selection.
  assert (selection = firstn 10 (map fst shares)) as Hsel.
  { unfold selection, ScoutingPlanner.league_selection.
    destruct (10 <? List.length (map fst shares))%nat eqn:E;
      [reflexivity|].
    apply Nat.ltb_ge in E. symmetry. now apply firstn_all2. }
  unfold SquadTransferInsights.analyze_inbound in Hi.
  destruct (analyze_shares _ _ _ _ Hi) as [Hne [Hshares _]].
  fold shares in Hshares.
  destruct (shares_keys
              (map SquadTransferInsights.d_from_league_nation
                 (filter SquadTransferInsights.incoming
                    (SquadTransferInsights._data self))))
    as [Hnd Hkeys].
  rewrite <- Hshares in Hnd, Hkeys.
  assert (StronglySorted (fun a b => (snd b <= snd a)%Q) shares) as Hsorted
      by (rewrite Hshares; apply shares_sorted).
  split; [exact Hsel|]. rewrite Hsel.
  split; [apply firstn_le_length|].
  split.
  { rewrite <- (firstn_skipn 10 (map fst shares)) in Hnd.
    now apply NoDup_app_remove_r in Hnd. }
  split.
  { intros n Hn.
    assert (In n (map fst shares)) as Hin.
    { rewrite <- (firstn_skipn 10 (map fst shares)).
      apply in_or_app. now left. }
    apply Hkeys in Hin. apply in_map_iff in Hin.
    destruct Hin as [r [Hr Hin]]. apply filter_In in Hin.
    exists r. tauto. }
  intros n s m t Hns Hmt Hn Hm.
  rewrite firstn_map in Hn, Hm.
  apply in_map_iff in Hn. destruct Hn as [[n' s'] [En Hn]].
  cbn [fst] in En. subst n'.
  assert (s' = s) as ->.
  { apply (keys_determine_shares shares n); [exact Hnd| |exact Hns].
    rewrite <- (firstn_skipn 10 shares). apply in_or_app. now left. }
  assert (In (m, t) (skipn 10 shares)) as Hskip.
  { rewrite <- (firstn_skipn 10 shares) in Hmt.
    apply in_app_or in Hmt. destruct Hmt as [Hmt|Hmt]; [|exact Hmt].
    elim Hm. apply in_map_iff. now exists (m, t). }
  rewrite <- (firstn_skipn 10 shares) in Hsorted.
  apply (StronglySorted_app_cross _ _ _ Hsorted (n, s) (m, t) Hn Hskip).
Qed.

Lemma scouting_markets_are_the_biggest_witness :
  exists i,
    SquadTransferInsights.analyze_inbound sample_many_markets = Ok i
    /\ List.length (SquadTransferInsights.market_shares i) = 11%nat
    /\ (List.length
          (ScoutingPlanner.league_selection
             (SquadTransferInsights.market_shares i)) <= 10)%nat
    /\ NoDup (ScoutingPlanner.league_selection
                (SquadTransferInsights.market_shares i)).
Proof.
  eexists. split; [vm_compute; reflexivity|].
  split; [vm_compute; reflexivity|].
  refine (let H := scouting_markets_are_the_biggest sample_many_markets
                     _ _ in
          conj (proj1 (proj2 H)) (proj1 (proj2 (proj2 H)))).
  vm_compute. reflexivity.
Defined.

Ltac label_case p :=
  exists p; split; [vm_compute; tauto | split; reflexivity].

(** The table of [_map_positions] takes the name of each of the ten field
    positions, and no other string, to a label; the player engine reads
    that label as the position named, and so does the position engine
    except for centre midfield, whose label is none of its keys. *)
Theorem scouting_labels_name_the_positions :
  (forall name label,
      ScoutingPlanner._map_positions name = Some label ->
      exists p,
        In p ten_positions
        /\ position_name p = name
        /\ PlayerAlerts._map_group label = p)
  /\ (forall p,
         In p ten_positions <->
         exists label,
           ScoutingPlanner._map_positions (position_name p) = Some label)
  /\ (forall name label,
         ScoutingPlanner._map_positions name = Some label ->
         name <> "Centre midfield" ->
         PositionAlerts._map_group label = PlayerAlerts._map_group label)
  /\ (forall label,
         ScoutingPlanner._map_positions "Centre midfield" = Some label ->
         PositionAlerts._map_group label = OTHER).
Proof.
  split; [|split; [|split]].
  - intros name label H. unfold ScoutingPlanner._map_positions in H.
    repeat match type of H with
           | (if (name =? ?k)%string then _ else _) = _ =>
               destruct (String.eqb_spec name k) as [E|_];
               [subst name; injection H as <-|]
           end;
      [label_case GOALKEEPER | label_case CENTRE_BACK | label_case LEFT_BACK
      | label_case RIGHT_BACK | label_case DEFENSIVE_MIDFIELDER
      | label_case CENTRE_MIDFIELDER | label_case ATTACKING_MIDFIELDER
      | label_case CENTRE_FORWARD | label_case LEFT_WING
      | label_case RIGHT_WING | discriminate H].
  - intros p. split.
    + intros Hp. destruct p; try (eexists; vm_compute; reflexivity);
        vm_compute in Hp; repeat destruct Hp as [Hp|Hp];
        try discriminate Hp; contradiction.
    + intros [label H]. destruct p; try (vm_compute; tauto);
        vm_compute in H; discriminate H.
  - intros name label H Hname.
    unfold ScoutingPlanner._map_positions in H.
    repeat match type of H with
           | (if (name =? ?k)%string then _ else _) = _ =>
               destruct (String.eqb_spec name k) as [E|_];
               [subst name; injection H as <-|]
           end;
      try reflexivity; [now elim Hname | discriminate H].
  - intros label H. vm_compute in H. injection H as <-. reflexivity.
Qed.

Lemma scouting_labels_name_the_positions_witness :
  exists p,
    In p ten_positions
    /\ position_name p = "Left wing"
    /\ PlayerAlerts._map_group "LeftWing" = p.
Proof.
  apply (proj1 scouting_labels_name_the_positions "Left wing" "LeftWing").
  reflexivity.
Defined.

(** ** Players as the provider gives them *)

(** A player that [get_player] builds always has a date that ends the
    stay: the end of the loan when the provider gives one (the player is
    on loan exactly then), else the end of the contract, else 1 January
    1990.  The three position fields are the first three positions of the
    provider, padded with empty strings.  In a run of the player engine
    after that date the player gets the expiry alert and is left out of the
    squad the rules look at; so a player without a contract on record is
    reported as expired. *)
Theorem provider_players_always_expire :
  forall plr sciskill potential sciskill_dev etv etv_dev,
    let p :=
      PlayersAPI.get_player plr sciskill potential sciskill_dev etv
        etv_dev in
    operative_expiry p = Some (provider_expiry plr)
    /\ (on_loan p = true
        <-> PlayersAPI.contract_get plr PlayersAPI.onLoanUntil <> None)
    /\ [first_position p; second_position p; third_position p]
       = firstn 3 (PlayersAPI.positions (PlayersAPI.info plr)
                   ++ [""; ""; ""])
    /\ forall team ps now self,
         In p (squad team) ->
         PlayerAlerts.__init__ team ps now = Ok self ->
         to_micros (provider_expiry plr)
         < to_micros (PlayerAlerts.run_date ps) ->
         In {| alert_type := CONTRACT_OR_LOAN_EXPIRED;
               position := PlayerAlerts._map_group (first_position p);
               alert_priority :=
                 PlayerAlerts._get_player_priority
                   (moved_row team ps now p);
               player := Some (PlayersAPI.info_name (PlayersAPI.info plr))
            |} (PlayerAlerts.alerts self)
         /\ ~ In (moved_row team ps now p) (PlayerAlerts._squad self).
Proof.
  intros plr sciskill potential sciskill_dev etv etv_dev p.
  assert (operative_expiry p = Some (provider_expiry plr)) as Hexp.
  { unfold operative_expiry, provider_expiry, p, PlayersAPI.get_player.
    cbn [on_loan loan_end contract_end].
    destruct (PlayersAPI.contract_get plr PlayersAPI.onLoanUntil);
      reflexivity. }
  split; [exact Hexp|]. split; [|split].
  - unfold p, PlayersAPI.get_player. cbn [on_loan].
    destruct (PlayersAPI.contract_get plr PlayersAPI.onLoanUntil).
    + split; [discriminate | reflexivity].
    + split; [discriminate | intros H; now elim H].
  - unfold p, PlayersAPI.get_player.
    cbn [first_position second_position third_position].
    destruct (PlayersAPI.positions (PlayersAPI.info plr))
      as [|a [|b [|c l]]]; reflexivity.
  - intros team ps now self Hin Hinit Hlt.
    assert (PlayerAlerts.exclude (moved_row team ps now p) = true) as Hex.
    { rewrite moved_row_exclude, Hexp. simpl. now apply Z.ltb_lt. }
    destruct (init_rows _ _ _ _ Hinit) as [rows [Hperm [_ [Hsq Hal]]]].
    assert (In (moved_row team ps now p) rows) as Hrow.
    { apply (Permutation_in _ (Permutation_sym Hperm)). now apply in_map. }
    split.
    + rewrite Hal.
      change (In (PlayerAlerts.expired_alert (moved_row team ps now p))
                (map PlayerAlerts.expired_alert
                   (filter PlayerAlerts.exclude rows))).
      apply in_map. apply filter_In. now split.
    + rewrite Hsq. intros H. apply filter_In in H.
      destruct H as [_ H]. rewrite Hex in H. discriminate H.
Qed.

Lemma provider_players_always_expire_witness :
  provider_expiry sample_object = date 1990 1 1
  /\ In {| alert_type := CONTRACT_OR_LOAN_EXPIRED;
           position := RIGHT_WING;
           alert_priority := LOW;
           player := Some "P4" |}
        (PlayerAlerts.alerts sample_engine_api).
Proof.
  split; [reflexivity|].
  refine (proj1
            (proj2 (proj2 (proj2
               (provider_players_always_expire sample_object (Fin 55)
                  (Fin 66) (Fin 1) (Fin 2000) (Fin 0))))
               sample_team_api sample_params sample_now sample_engine_api
               _ _ _)).
  - right. left. reflexivity.
  - vm_compute. reflexivity.
  - vm_compute. reflexivity.
Defined.

(** ** The guided search *)

(** The months left on a contract are never negative.  For dates with a
    month from 1 to 12 they are 0 exactly when the contract ends on a day
    before the current one on the calendar, and count the months from the
    current month to the month of the end, one more when the day of the
    end is not before the current day, otherwise. *)
Theorem months_left_zero_iff_ended :
  forall current_date e,
    1 <= month current_date <= 12 ->
    1 <= month e <= 12 ->
    (forall cell, 0 <= GuidedSearchAPI.months_left current_date cell)
    /\ (GuidedSearchAPI.months_left current_date (Some e) = 0
        <-> calendar_before e current_date)
    /\ (~ calendar_before e current_date ->
        GuidedSearchAPI.months_left current_date (Some e)
        = (year e - year current_date) * 12
          + (month e - month current_date)
          + (if day e <? day current_date then 0 else 1)).
Proof.
  intros c e Hc He. unfold calendar_before. split; [|split].
  - intros [d|]; simpl; lia.
  - simpl. rewrite Z.geb_leb.
    destruct (Z.leb_spec (day c) (day e)); split; lia.
  - intros Hnot. simpl. rewrite Z.geb_leb.
    destruct (Z.leb_spec (day c) (day e)), (Z.ltb_spec (day e) (day c));
      lia.
Qed.

Lemma months_left_zero_iff_ended_witness :
  GuidedSearchAPI.months_left (date 2025 3 15) (Some (date 2025 3 14)) = 0
  <-> calendar_before (date 2025 3 14) (date 2025 3 15).
Proof.
  apply (months_left_zero_iff_ended (date 2025 3 15) (date 2025 3 14));
    simpl; lia.
Defined.

Lemma fleb_Fin_le (x : pyfloat) (b b' : Q) :
  (b <= b')%Q -> fleb x (Fin b) = true -> fleb x (Fin b') = true.
Proof.
  intros Hb. destruct x as [q| | |]; simpl; try (intros H; exact H).
  intros H. apply Qle_bool_iff in H. apply Qle_bool_iff.
  eapply Qle_trans; eassumption.
Qed.

Lemma between_of_Z (m lo hi : Z) :
  GuidedSearchAPI.between (of_Z m) (of_Z lo) (of_Z hi) = true
  <-> lo <= m <= hi.
Proof.
  unfold GuidedSearchAPI.between, of_Z. simpl.
  rewrite andb_true_iff, !Qle_bool_iff, <- !Zle_Qle. tauto.
Qed.

Lemma between_age (x : pyfloat) (lo hi : Z) :
  GuidedSearchAPI.between x (of_Z lo) (of_Z hi) = true
  <-> exists a, x = Fin a
                /\ (inject_Z lo <= a)%Q /\ (a <= inject_Z hi)%Q.
Proof.
  unfold GuidedSearchAPI.between, of_Z. split.
  - destruct x as [a| | |]; simpl; intros H; try discriminate H;
      try (rewrite andb_false_r in H; discriminate H).
    apply andb_true_iff in H. rewrite !Qle_bool_iff in H.
    exists a. tauto.
  - intros [a [-> [H1 H2]]]. simpl.
    apply andb_true_iff. now rewrite !Qle_bool_iff.
Qed.

Lemma pre_filter_In (c : datetime) (budget : Q) (lo hi : Z)
  (rows : list GuidedSearchAPI.SearchRow)
  (r : GuidedSearchAPI.SearchRow) (m : Z) :
  In (r, m) (GuidedSearchAPI._pre_filter_selection c budget lo hi rows)
  <-> In r rows
      /\ GuidedSearchAPI.between (GuidedSearchAPI.info_age r) (of_Z lo)
           (of_Z hi) = true
      /\ m = GuidedSearchAPI.months_left c
               (GuidedSearchAPI.contract_contractEnd r)
      /\ (if negb (Qeq_bool budget 0) then
            (GuidedSearchAPI.between (of_Z m) (of_Z 0) (of_Z 36)
             && fleb (GuidedSearchAPI.contract_marketValue r) (Fin budget))
            || GuidedSearchAPI.contract_isFreeAgent r
            || (GuidedSearchAPI.between (of_Z m) (of_Z 0) (of_Z 11)
                && fleb (GuidedSearchAPI.contract_marketValue r)
                     (Fin ((3 # 2) * budget)))
          else
            GuidedSearchAPI.contract_isFreeAgent r
            || GuidedSearchAPI.between (of_Z m) (of_Z 0) (of_Z 7)) = true.
Proof.
  unfold GuidedSearchAPI._pre_filter_selection,
    GuidedSearchAPI._set_contract_months_left.
  destruct (negb (Qeq_bool budget 0));
    rewrite filter_In, in_map_iff; cbn [fst snd]; split.
  - intros [[x [E Hx]] Hc]. injection E as -> <-.
    apply filter_In in Hx. tauto.
  - intros [Hr [Ha [-> Hc]]]. split; [|exact Hc].
    exists r. split; [reflexivity|]. apply filter_In. now split.
  - intros [[x [E Hx]] Hc]. injection E as -> <-.
    apply filter_In in Hx. tauto.
  - intros [Hr [Ha [-> Hc]]]. split; [|exact Hc].
    exists r. split; [reflexivity|]. apply filter_In. now split.
Qed.

(** What [_pre_filter_selection] keeps: only rows of the search results,
    each with its months left and an age within the two limits; every free
    agent of such an age; of the others, with no budget only players with
    at most 7 months left, and with a budget above 0 only players with at
    most 36 months left and a market value of at most one and a half times
    the budget.  Raising a budget above 0 never drops a player. *)
Theorem pre_filter_selection_keeps :
  forall current_date budget age_lower age_upper rows,
    let kept b :=
      GuidedSearchAPI._pre_filter_selection current_date b age_lower
        age_upper rows in
    (forall r m,
        In (r, m) (kept budget) ->
        In r rows
        /\ m = GuidedSearchAPI.months_left current_date
                 (GuidedSearchAPI.contract_contractEnd r)
        /\ exists a,
             GuidedSearchAPI.info_age r = Fin a
             /\ (inject_Z age_lower <= a)%Q /\ (a <= inject_Z age_upper)%Q)
    /\ (forall r,
           In r rows ->
           GuidedSearchAPI.between (GuidedSearchAPI.info_age r)
             (of_Z age_lower) (of_Z age_upper) = true ->
           GuidedSearchAPI.contract_isFreeAgent r = true ->
           In (r, GuidedSearchAPI.months_left current_date
                    (GuidedSearchAPI.contract_contractEnd r))
              (kept budget))
    /\ (forall r m,
           In (r, m) (kept budget) ->
           GuidedSearchAPI.contract_isFreeAgent r = false ->
           ((budget == 0)%Q -> m <= 7)
           /\ ((0 < budget)%Q ->
               m <= 36
               /\ fleb (GuidedSearchAPI.contract_marketValue r)
                    (Fin ((3 # 2) * budget)) = true))
    /\ (forall bigger x,
           (0 < budget)%Q -> (budget <= bigger)%Q ->
           In x (kept budget) -> In x (kept bigger)).
Proof.
  intros c budget lo hi rows kept. unfold kept.
  split; [|split; [|split]].
  - intros r m H. apply pre_filter_In in H.
    destruct H as [Hr [Ha [Hm _]]]. split; [exact Hr|].
    split; [exact Hm|]. now apply between_age.
  - intros r Hr Ha Hfree. apply pre_filter_In.
    split; [exact Hr|]. split; [exact Ha|]. split; [reflexivity|].
    rewrite Hfree. destruct (negb (Qeq_bool budget 0));
      [now rewrite orb_true_r | reflexivity].
  - intros r m H Hfree. apply pre_filter_In in H.
    destruct H as [_ [_ [_ Hc]]]. rewrite Hfree in Hc. split.
    + intros Hb. apply Qeq_bool_iff in Hb. rewrite Hb in Hc.
      cbn [negb orb] in Hc. apply between_of_Z in Hc. lia.
    + intros Hb.
      assert (Qeq_bool budget 0 = false) as Hne.
      { destruct (Qeq_bool budget 0) eqn:E; [|reflexivity].
        apply Qeq_bool_iff in E. rewrite E in Hb.
        now apply Qlt_irrefl in Hb. }
      rewrite Hne in Hc. cbn [negb] in Hc. rewrite orb_false_r in Hc.
      apply orb_true_iff in Hc.
      destruct Hc as [Hc|Hc]; apply andb_true_iff in Hc;
        destruct Hc as [Hm Hv]; apply between_of_Z in Hm.
      * split; [lia|]. apply (fleb_Fin_le _ budget); [lra | exact Hv].
      * split; [lia | exact Hv].
  - intros bigger [r m] Hb Hle H. apply pre_filter_In in H.
    apply pre_filter_In.
    destruct H as [Hr [Ha [Hm Hc]]].
    split; [exact Hr|]. split; [exact Ha|]. split; [exact Hm|].
    assert (forall b, (0 < b)%Q -> Qeq_bool b 0 = false) as Hpos.
    { intros b Hb0. destruct (Qeq_bool b 0) eqn:E; [|reflexivity].
      apply Qeq_bool_iff in E. rewrite E in Hb0.
      now apply Qlt_irrefl in Hb0. }
    rewrite (Hpos budget Hb) in Hc.
    rewrite (Hpos bigger) by (eapply Qlt_le_trans; eassumption).
    cbn [negb] in *.
    apply orb_true_iff in Hc. destruct Hc as [Hc|Hc].
    + apply orb_true_iff in Hc. destruct Hc as [Hc|Hc].
      * apply andb_true_iff in Hc. destruct Hc as [Hm' Hv].
        rewrite Hm'. rewrite (fleb_Fin_le _ budget bigger Hle Hv).
        reflexivity.
      * rewrite Hc. now rewrite orb_true_r.
    + apply andb_true_iff in Hc. destruct Hc as [Hm' Hv].
      rewrite Hm'.
      rewrite (fleb_Fin_le _ ((3 # 2) * budget) ((3 # 2) * bigger));
        [now rewrite orb_true_r | lra | exact Hv].
Qed.

Lemma pre_filter_selection_keeps_witness :
  In (sample_search_row 1 24 (Some (date 2026 6 30)) 1000 false, 16)
    (GuidedSearchAPI._pre_filter_selection (date 2025 3 15) 2000%Q 18 35
       [sample_search_row 1 24 (Some (date 2026 6 30)) 1000 false;
        sample_search_row 2 40 None 0 true]).
Proof.
  apply (proj2 (proj2 (proj2
           (pre_filter_selection_keeps (date 2025 3 15) 1000%Q 18 35
              [sample_search_row 1 24 (Some (date 2026 6 30)) 1000 false;
               sample_search_row 2 40 None 0 true])))
           2000%Q).
  - reflexivity.
  - vm_compute. discriminate.
  - vm_compute. left. reflexivity.
Defined.
